(** * Gateway panel protocol engine

    A shallow embedding of the protocol engine of the Gateway firmware:
    the registry of panel protocols ([setProtocolType]), the three byte-wise
    parsers ([serialRxGent], [serialRxAdvanced], [serialRxAdvancedAscii])
    and the event encoder ([serialTxEventToNimbus]).

    The C globals become the fields of one record that is threaded through
    every call; function-local [static] variables become small records of
    their own.  Fixed-width integers are [Z] with the wrap-around written
    out.  A store outside an array has no defined behaviour in C; here it
    ends the run with a [Fault]. *)

From Stdlib Require Import ZArith NArith Lia List Bool Ascii String.
From Stdlib Require Import HexadecimalString.
From stdpp Require Import base list.
Import ListNotations.
Local Open Scope Z_scope.

(** ** Fixed-width integers *)

Definition u8 (z : Z) : Z := z mod 256.
Definition u16 (z : Z) : Z := z mod 65536.
Definition u32 (z : Z) : Z := z mod 4294967296.

Definition is_u8 (z : Z) : Prop := 0 <= z < 256.

(** ** Outcomes of a call *)

Inductive fault : Type :=
| BufferOverrun   (* store past the end of serialRxBuffer [512] *)
| RecordOverrun   (* memcpy past the end of eventMessage.Data [244] *)
| ReadOverrun     (* read past the end of a caller's buffer *)
| TableOverrun    (* index past the end of protocolHandlerTable *)
| OutOfFuel.      (* a loop did not finish within the fuel given *)

Inductive result (A : Type) : Type :=
| Ok (a : A)
| Fault (f : fault).
Arguments Ok {A} a.
Arguments Fault {A} f.

Definition rbind {A B} (c : result A) (k : A -> result B) : result B :=
  match c with
  | Ok a => k a
  | Fault f => Fault f
  end.

Notation "'do' x <- c ; k" := (rbind c (fun x => k))
  (at level 10, x name, c at level 100, k at level 200,
   format "'[v' 'do'  x  <-  c ; '/' k ']'").

(** ** Arrays *)

(** [a [i]] as an rvalue; the callers below only read inside the array. *)
Definition rd (a : list Z) (i : Z) : Z := nth (Z.to_nat i) a 0.

(** [a [i] = v] *)
Definition wr (a : list Z) (i v : Z) : list Z := <[Z.to_nat i := v]> a.

(** [memcpy (dst, src, n)] for [n] within both arrays. *)
Definition memcpy (dst src : list Z) (n : Z) : list Z :=
  take (Z.to_nat n) src ++ drop (Z.to_nat n) dst.

(** Little-endian bytes of a 32-bit field, as the target lays them out. *)
Definition le32 (z : Z) : list Z :=
  [u8 z; u8 (z / 256); u8 (z / 65536); u8 (z / 16777216)].

(** ** build.h : the two wire records *)

Record eventMessage_t : Type := {
  ev_Type : Z;
  ev_Length : list Z;
  ev_TimeStamp : Z;
  ev_SecondFracPart : Z;
  ev_Data : list Z
}.

Record nimbusTransferMessage_t : Type := {
  tr_Type : Z;
  tr_Length : list Z;
  tr_uniqueTransferId : Z;
  tr_TimeStamp : Z;
  tr_SecondFracPart : Z;
  tr_Data : list Z
}.

Definition EVENT_DATA_SIZE : Z := 244.
Definition TRANSFER_DATA_SIZE : Z := 1008.

(** The byte view of the unions: [eventMessage.Event] and
    [nimbusTransferMessage.Message]. *)
Definition Event (e : eventMessage_t) : list Z :=
  [ev_Type e] ++ ev_Length e ++ le32 (ev_TimeStamp e)
    ++ le32 (ev_SecondFracPart e) ++ ev_Data e.

Definition Message (m : nimbusTransferMessage_t) : list Z :=
  [tr_Type m] ++ tr_Length m ++ le32 (tr_uniqueTransferId m)
    ++ le32 (tr_TimeStamp m) ++ le32 (tr_SecondFracPart m) ++ tr_Data m.

(** ** eeprom.h : the configuration the engine reads *)

Record particleEepromData_t : Type := {
  protocolId : Z;
  verbose : bool
}.

(** ** panel_protocol : globals *)

Record globals : Type := {
  particleEepromData : particleEepromData_t;
  Time_now : nat -> Z;                (* what the n-th call of Time.now ()
                                         returns *)
  Time_calls : nat;                   (* the calls of Time.now () so far *)
  serialRxState : Z;
  serialRxBuffer : list Z;
  serialRxLength : Z;
  totalDiscardedBytes : Z;
  totalRxEvents : Z;
  uniqueTransferId : Z;
  eventMessage : eventMessage_t;
  nimbusTransferMessage : nimbusTransferMessage_t;
  published : list (list Z)           (* bodies handed to Particle.publish *)
}.

Definition SERIAL_RX_BUFFER_SIZE : Z := 512.

Definition set_serialRxState (v : Z) (g : globals) : globals :=
  {| particleEepromData := particleEepromData g; Time_now := Time_now g;
     Time_calls := Time_calls g;
     serialRxState := v; serialRxBuffer := serialRxBuffer g;
     serialRxLength := serialRxLength g;
     totalDiscardedBytes := totalDiscardedBytes g;
     totalRxEvents := totalRxEvents g; uniqueTransferId := uniqueTransferId g;
     eventMessage := eventMessage g;
     nimbusTransferMessage := nimbusTransferMessage g;
     published := published g |}.

Definition set_serialRxBuffer (v : list Z) (g : globals) : globals :=
  {| particleEepromData := particleEepromData g; Time_now := Time_now g;
     Time_calls := Time_calls g;
     serialRxState := serialRxState g; serialRxBuffer := v;
     serialRxLength := serialRxLength g;
     totalDiscardedBytes := totalDiscardedBytes g;
     totalRxEvents := totalRxEvents g; uniqueTransferId := uniqueTransferId g;
     eventMessage := eventMessage g;
     nimbusTransferMessage := nimbusTransferMessage g;
     published := published g |}.

Definition set_serialRxLength (v : Z) (g : globals) : globals :=
  {| particleEepromData := particleEepromData g; Time_now := Time_now g;
     Time_calls := Time_calls g;
     serialRxState := serialRxState g; serialRxBuffer := serialRxBuffer g;
     serialRxLength := v;
     totalDiscardedBytes := totalDiscardedBytes g;
     totalRxEvents := totalRxEvents g; uniqueTransferId := uniqueTransferId g;
     eventMessage := eventMessage g;
     nimbusTransferMessage := nimbusTransferMessage g;
     published := published g |}.

Definition set_totalDiscardedBytes (v : Z) (g : globals) : globals :=
  {| particleEepromData := particleEepromData g; Time_now := Time_now g;
     Time_calls := Time_calls g;
     serialRxState := serialRxState g; serialRxBuffer := serialRxBuffer g;
     serialRxLength := serialRxLength g;
     totalDiscardedBytes := v;
     totalRxEvents := totalRxEvents g; uniqueTransferId := uniqueTransferId g;
     eventMessage := eventMessage g;
     nimbusTransferMessage := nimbusTransferMessage g;
     published := published g |}.

(** [serialRxBuffer [idx] = v], inside the 512 bytes or not at all. *)
Definition store (idx v : Z) (g : globals) : result globals :=
  if (0 <=? idx) && (idx <? SERIAL_RX_BUFFER_SIZE)
  then Ok (set_serialRxBuffer (wr (serialRxBuffer g) idx v) g)
  else Fault BufferOverrun.

(** [serialRxBuffer [serialRxLength++] = v] *)
Definition append (v : Z) (g : globals) : result globals :=
  do g1 <- store (serialRxLength g) v g;
  Ok (set_serialRxLength (u16 (serialRxLength g + 1)) g1).

(** The state of the machine at reset: zero-initialised globals, the
    transfer id starting at 1, and a clock that reads [now] at every
    call. *)
Definition power_on (cfg : particleEepromData_t) (now : Z) : globals :=
  {| particleEepromData := cfg; Time_now := fun _ => now; Time_calls := 0;
     serialRxState := 0;
     serialRxBuffer := repeat 0 (Z.to_nat SERIAL_RX_BUFFER_SIZE);
     serialRxLength := 0;
     totalDiscardedBytes := 0;
     totalRxEvents := 0;
     uniqueTransferId := 1;
     eventMessage :=
       {| ev_Type := 0; ev_Length := [0; 0; 0]; ev_TimeStamp := 0;
          ev_SecondFracPart := 0;
          ev_Data := repeat 0 (Z.to_nat EVENT_DATA_SIZE) |};
     nimbusTransferMessage :=
       {| tr_Type := 0; tr_Length := [0; 0; 0]; tr_uniqueTransferId := 0;
          tr_TimeStamp := 0; tr_SecondFracPart := 0;
          tr_Data := repeat 0 (Z.to_nat TRANSFER_DATA_SIZE) |};
     published := [] |}.

(** ** serialTxEventToNimbus *)

(** [serialLen] and [transferLen] are [uint8_t]; every assignment to them
    truncates.  [Time.now ()] is called twice, for the event record first
    and for the transfer record after it.  The Base64 step is left out:
    the log keeps the [transferLen] bytes of
    [nimbusTransferMessage.Message] that are handed to the encoder, whose
    1024-byte output buffer always holds the at most 341 characters that
    255 bytes encode to. *)
Definition serialTxEventToNimbus (g : globals) : result globals :=
  let totalRxEvents' := u32 (totalRxEvents g + 1) in
  let serialLen := u8 (serialRxLength g + 8) in
  if EVENT_DATA_SIZE <? serialRxLength g then Fault RecordOverrun else
  let ev :=
    {| ev_Type := protocolId (particleEepromData g);
       ev_Length := [serialLen; 0; 0];
       ev_TimeStamp := Time_now g (Time_calls g);
       ev_SecondFracPart := 0;
       ev_Data := memcpy (ev_Data (eventMessage g)) (serialRxBuffer g)
                         (serialRxLength g) |} in
  let serialLen := u8 (serialLen + 4) in
  let transferLen := u8 (serialLen + 12) in
  let tr :=
    {| tr_Type := 131;
       tr_Length := [u8 transferLen; 0; 0];
       tr_uniqueTransferId := uniqueTransferId g;
       tr_TimeStamp := Time_now g (S (Time_calls g));
       tr_SecondFracPart := 0;
       tr_Data := memcpy (tr_Data (nimbusTransferMessage g)) (Event ev)
                         serialLen |} in
  let uniqueTransferId' := u8 (uniqueTransferId g + 1) in
  let transferLen := u8 (transferLen + 4) in
  Ok {| particleEepromData := particleEepromData g; Time_now := Time_now g;
        Time_calls := S (S (Time_calls g));
        serialRxState := serialRxState g;
        serialRxBuffer := serialRxBuffer g;
        serialRxLength := serialRxLength g;
        totalDiscardedBytes := totalDiscardedBytes g;
        totalRxEvents := totalRxEvents';
        uniqueTransferId := uniqueTransferId';
        eventMessage := ev;
        nimbusTransferMessage := tr;
        published :=
          published g ++ [take (Z.to_nat transferLen) (Message tr)] |}.

(** ** panel_serial_Gent *)

Definition ASCII_ACK : Z := 6.
Definition ASCII_NAK : Z := 21.

(** The [static] locals of [serialRxGent]. *)
Record gent_static : Type := {
  gent_i : Z;
  rxExpectedLen : Z;
  rxChecksum : Z
}.

(** The [switch] of [rxGentValidateEventPair] over the two event bytes. *)
Definition gentEventPair (b0 b1 : Z) : bool :=
  match b0 with
  | 0 => ((1 <=? b1) && (b1 <=? 6)) || (b1 =? ASCII_NAK)
  | 2 => (b1 =? 1) || (b1 =? 2)
  | 4 | 5 | 7 | 9 | 10 | 18 => true
  | _ => false
  end.

(** The two event bytes at the head of [serialRxBuffer] against the table
    of known Gent events. *)
Definition rxGentValidateEventPair (g : globals) : bool :=
  gentEventPair (rd (serialRxBuffer g) 0) (rd (serialRxBuffer g) 1).

Definition serialProcessGent (g : globals) : result globals :=
  serialTxEventToNimbus g.

Definition serialRxGent (st : gent_static) (g : globals) (rxChar : Z)
  : result (gent_static * globals) :=
  match serialRxState g with
  | 0 =>
      if 18 <? rxChar then Ok (st, g)
      else
        let i := 0 in
        let g := set_serialRxState 1 g in
        do g <- store i rxChar g;
        Ok ({| gent_i := u8 (i + 1); rxExpectedLen := rxExpectedLen st;
               rxChecksum := u16 rxChar |}, g)
  | 1 =>
      do g <- store (gent_i st) rxChar g;
      let i := u8 (gent_i st + 1) in
      let sum := u16 (rxChecksum st + rxChar) in
      if rxGentValidateEventPair g then
        if (rxChar =? ASCII_ACK) || (rxChar =? ASCII_NAK) then
          Ok ({| gent_i := i; rxExpectedLen := rxExpectedLen st;
                 rxChecksum := sum |}, set_serialRxState 3 g)
        else
          Ok ({| gent_i := i; rxExpectedLen := 56; rxChecksum := sum |},
              set_serialRxState 2 g)
      else
        Ok ({| gent_i := i; rxExpectedLen := rxExpectedLen st;
               rxChecksum := sum |}, set_serialRxState 0 g)
  | 2 =>
      do g <- (if gent_i st <? rxExpectedLen st
               then store (gent_i st) rxChar g
               else store (gent_i st) rxChar (set_serialRxState 3 g));
      Ok ({| gent_i := u8 (gent_i st + 1); rxExpectedLen := rxExpectedLen st;
             rxChecksum := u16 (rxChecksum st + rxChar) |}, g)
  | 3 =>
      if rxChar =? u8 (Z.shiftr (rxChecksum st) 8) then
        do g <- store (gent_i st) rxChar (set_serialRxState 4 g);
        Ok ({| gent_i := u8 (gent_i st + 1);
               rxExpectedLen := rxExpectedLen st;
               rxChecksum := rxChecksum st |}, g)
      else Ok (st, set_serialRxState 0 g)
  | 4 =>
      if rxChar =? u8 (Z.land (rxChecksum st) 255) then
        do g <- store (gent_i st) rxChar g;
        let i := u8 (gent_i st + 1) in
        let st := {| gent_i := i; rxExpectedLen := rxExpectedLen st;
                     rxChecksum := rxChecksum st |} in
        if i =? 59 then
          do g <- serialProcessGent (set_serialRxLength i g);
          Ok (st, set_serialRxState 0 g)
        else Ok (st, set_serialRxState 0 g)
      else Ok (st, set_serialRxState 0 g)
  | _ => Ok (st, g)
  end.

(** The bytes of a stream given to a handler one after the other, as
    [serialScan] does. *)
Fixpoint feed {S : Type} (rx : S -> globals -> Z -> result (S * globals))
  (st : S) (g : globals) (bytes : list Z) : result (S * globals) :=
  match bytes with
  | [] => Ok (st, g)
  | c :: rest =>
      do r <- rx st g c;
      feed rx (fst r) (snd r) rest
  end.

(** ** panel_serial_Advanced *)

Definition ADVANCED_MIN_LENGTH : Z := 12.
Definition ADVANCED_MAX_LENGTH : Z := 108.

Definition crc_table_low : list Z :=
  [
      0; 192; 193;   1; 195;   3;   2; 194;
    198;   6;   7; 199;   5; 197; 196;   4;
    204;  12;  13; 205;  15; 207; 206;  14;
     10; 202; 203;  11; 201;   9;   8; 200;
    216;  24;  25; 217;  27; 219; 218;  26;
     30; 222; 223;  31; 221;  29;  28; 220;
     20; 212; 213;  21; 215;  23;  22; 214;
    210;  18;  19; 211;  17; 209; 208;  16;
    240;  48;  49; 241;  51; 243; 242;  50;
     54; 246; 247;  55; 245;  53;  52; 244;
     60; 252; 253;  61; 255;  63;  62; 254;
    250;  58;  59; 251;  57; 249; 248;  56;
     40; 232; 233;  41; 235;  43;  42; 234;
    238;  46;  47; 239;  45; 237; 236;  44;
    228;  36;  37; 229;  39; 231; 230;  38;
     34; 226; 227;  35; 225;  33;  32; 224;
    160;  96;  97; 161;  99; 163; 162;  98;
    102; 166; 167; 103; 165; 101; 100; 164;
    108; 172; 173; 109; 175; 111; 110; 174;
    170; 106; 107; 171; 105; 169; 168; 104;
    120; 184; 185; 121; 187; 123; 122; 186;
    190; 126; 127; 191; 125; 189; 188; 124;
    180; 116; 117; 181; 119; 183; 182; 118;
    114; 178; 179; 115; 177; 113; 112; 176;
     80; 144; 145;  81; 147;  83;  82; 146;
    150;  86;  87; 151;  85; 149; 148;  84;
    156;  92;  93; 157;  95; 159; 158;  94;
     90; 154; 155;  91; 153;  89;  88; 152;
    136;  72;  73; 137;  75; 139; 138;  74;
     78; 142; 143;  79; 141;  77;  76; 140;
     68; 132; 133;  69; 135;  71;  70; 134;
    130;  66;  67; 131;  65; 129; 128;  64 ].

Definition crc_table_high : list Z :=
  [
      0; 193; 129;  64;   1; 192; 128;  65;
      1; 192; 128;  65;   0; 193; 129;  64;
      1; 192; 128;  65;   0; 193; 129;  64;
      0; 193; 129;  64;   1; 192; 128;  65;
      1; 192; 128;  65;   0; 193; 129;  64;
      0; 193; 129;  64;   1; 192; 128;  65;
      0; 193; 129;  64;   1; 192; 128;  65;
      1; 192; 128;  65;   0; 193; 129;  64;
      1; 192; 128;  65;   0; 193; 129;  64;
      0; 193; 129;  64;   1; 192; 128;  65;
      0; 193; 129;  64;   1; 192; 128;  65;
      1; 192; 128;  65;   0; 193; 129;  64;
      0; 193; 129;  64;   1; 192; 128;  65;
      1; 192; 128;  65;   0; 193; 129;  64;
      1; 192; 128;  65;   0; 193; 129;  64;
      0; 193; 129;  64;   1; 192; 128;  65;
      1; 192; 128;  65;   0; 193; 129;  64;
      0; 193; 129;  64;   1; 192; 128;  65;
      0; 193; 129;  64;   1; 192; 128;  65;
      1; 192; 128;  65;   0; 193; 129;  64;
      0; 193; 129;  64;   1; 192; 128;  65;
      1; 192; 128;  65;   0; 193; 129;  64;
      1; 192; 128;  65;   0; 193; 129;  64;
      0; 193; 129;  64;   1; 192; 128;  65;
      0; 193; 129;  64;   1; 192; 128;  65;
      1; 192; 128;  65;   0; 193; 129;  64;
      1; 192; 128;  65;   0; 193; 129;  64;
      0; 193; 129;  64;   1; 192; 128;  65;
      1; 192; 128;  65;   0; 193; 129;  64;
      0; 193; 129;  64;   1; 192; 128;  65;
      0; 193; 129;  64;   1; 192; 128;  65;
      1; 192; 128;  65;   0; 193; 129;  64 ].

Record idCodeTable_t : Type := {
  code : Z;
  count : Z;
  label : string
}.

Definition idCodeTable_init : list idCodeTable_t :=
  [ {| code := 1;  count := 0; label := "Acknowledgement" |};
    {| code := 10; count := 0; label := "Device Status" |};
    {| code := 11; count := 0; label := "Node Status" |};
    {| code := 12; count := 0; label := "Network Configuration Change" |};
    {| code := 13; count := 0; label := "Zone Text" |};
    {| code := 14; count := 0; label := "Analogue Value" |};
    {| code := 15; count := 0;
       label := "Output Activated / Deactivated by BMS" |} ].

Definition NUM_ID_CODES : Z := 7.

(** The file-level variables of the Advanced handler. *)
Record adv_static : Type := {
  errorStr : string;
  idCodeTable : list idCodeTable_t
}.

Definition set_count (v : Z) (e : idCodeTable_t) : idCodeTable_t :=
  {| code := code e; count := v; label := label e |}.

Definition advancedPacketReceptionError (g : globals) : result globals :=
  if verbose (particleEepromData g) then serialTxEventToNimbus g else Ok g.

(** *** advancedCrcUpdate *)

Definition crc_step (crc : Z * Z) (b : Z) : Z * Z :=
  let table_index := Z.lxor (fst crc) b in
  (Z.lxor (snd crc) (rd crc_table_high table_index),
   rd crc_table_low table_index).

(** [buff] is the array from the pointer on; the result is
    [(crc_hi, crc_lo)]. *)
Definition advancedCrcUpdate (buff : list Z) (count : Z) (crc_hi crc_lo : Z)
  : Z * Z :=
  fold_left crc_step (take (Z.to_nat count) buff) (crc_hi, crc_lo).

Definition validateCRC (buf : list Z) (len : Z) : bool :=
  let crc := advancedCrcUpdate (drop 1 buf) (u16 (len - 4)) 255 255 in
  (rd buf (len - 3) =? fst crc) && (rd buf (len - 2) =? snd crc).

(** *** advancedAddClashCodes *)

Definition CLASH_CODE : Z := 250.

(** The substitution loop: [n] bytes still to visit, [pbuf_in] the input
    from the read pointer on, [out] what has been written so far. *)
Fixpoint addClashCodes_loop (n : nat) (pbuf_in out : list Z) (pbuf_len : Z)
  : result (list Z * list Z * Z) :=
  match n with
  | O => Ok (pbuf_in, out, pbuf_len)
  | S n' =>
      match pbuf_in with
      | [] => Fault ReadOverrun
      | b :: rest =>
          if CLASH_CODE <=? b
          then addClashCodes_loop n' rest (out ++ [CLASH_CODE; b - CLASH_CODE])
                                  (u16 (pbuf_len + 1))
          else addClashCodes_loop n' rest (out ++ [b]) pbuf_len
      end
  end.

(** Returns the output buffer and the updated [*pbuf_len]. *)
Definition advancedAddClashCodes (pbuf_in : list Z) (pbuf_len : Z)
  : result (list Z * Z) :=
  let length := u16 (pbuf_len - 2) in
  match pbuf_in with
  | [] => Fault ReadOverrun
  | first :: rest =>
      do r <- addClashCodes_loop (Z.to_nat length) rest [first] pbuf_len;
      match fst (fst r) with
      | [] => Fault ReadOverrun
      | last :: _ => Ok (snd (fst r) ++ [last], snd r)
      end
  end.

(** *** checkPacketFormat *)

(** The inner [for] loop: the first entry whose code matches has its count
    incremented; [None] stands for leaving the loop with
    [i = NUM_ID_CODES]. *)
Fixpoint matchIdCode (c : Z) (tbl : list idCodeTable_t)
  : option (list idCodeTable_t) :=
  match tbl with
  | [] => None
  | e :: rest =>
      if c =? code e then Some (set_count (u8 (count e + 1)) e :: rest)
      else match matchIdCode c rest with
           | Some rest' => Some (e :: rest')
           | None => None
           end
  end.

(** The [do ... while (code != 0xf0)] loop, one iteration per unit of
    fuel.  [c] and [offset] are the loop's [code] and [offset]. *)
Fixpoint scanMessages (fuel : nat) (buf : list Z) (maxOffset : Z)
  (c offset : Z) (tbl : list idCodeTable_t)
  : result (bool * list idCodeTable_t) :=
  match fuel with
  | O => Fault OutOfFuel
  | S fuel' =>
      match matchIdCode c tbl with
      | Some tbl' =>
          let offset := u8 (offset + (rd buf offset - 1)) in
          if maxOffset <? offset then Ok (false, tbl')
          else
            let c := rd buf offset in
            let offset := u8 (offset + 1) in
            if c =? 240 then Ok (true, tbl')
            else scanMessages fuel' buf maxOffset c offset tbl'
      | None => Ok (false, tbl)
      end
  end.

Definition checkPacketFormat (fuel : nat) (g : globals)
  (tbl : list idCodeTable_t) : result (bool * list idCodeTable_t) :=
  let maxOffset := u8 (serialRxLength g - 4) in
  let tbl := map (set_count 0) tbl in
  let offset := 5 in
  let c := rd (serialRxBuffer g) offset in
  let offset := u8 (offset + 1) in
  scanMessages fuel (serialRxBuffer g) maxOffset c offset tbl.

(** *** validateAdvancedBmsPacket *)

(** The texts written to [errorStr]. *)
Definition crlf : string := String "013" (String "010" EmptyString).

Definition error_too_short : string :=
  String.append "Error - Packet too short" crlf.

Definition error_invalid_crc : string :=
  String.append "Error - Invalid CRC" crlf.

(** [sprintf] with 0x%x on the identity byte found. *)
Definition error_invalid_id (found : Z) : string :=
  String.append "Error - Invalid Packet Id. Expected 0x80, found 0x"
    (String.append (NilZero.string_of_uint (N.to_hex_uint (Z.to_N found)))
                   crlf).

Definition error_invalid_format : string :=
  String.append "Error - Invalid Packet Format" crlf.

Definition validateAdvancedBmsPacket (fuel : nat) (g : globals)
  (st : adv_static) : result (bool * adv_static) :=
  if serialRxLength g <? ADVANCED_MIN_LENGTH then
    Ok (false, {| errorStr := error_too_short;
                  idCodeTable := idCodeTable st |})
  else if negb (validateCRC (serialRxBuffer g) (serialRxLength g)) then
    Ok (false, {| errorStr := error_invalid_crc;
                  idCodeTable := idCodeTable st |})
  else if negb (rd (serialRxBuffer g) 1 =? 128) then
    Ok (false, {| errorStr := error_invalid_id (rd (serialRxBuffer g) 1);
                  idCodeTable := idCodeTable st |})
  else
    do r <- checkPacketFormat fuel g (idCodeTable st);
    if fst r then Ok (true, {| errorStr := errorStr st;
                               idCodeTable := snd r |})
    else Ok (false, {| errorStr := error_invalid_format;
                       idCodeTable := snd r |}).

(** *** serialRxAdvanced *)

(** [tbl [i].count] *)
Definition idCodeCount (i : nat) (tbl : list idCodeTable_t) : Z :=
  match nth_error tbl i with
  | Some e => count e
  | None => 0
  end.

(** [idCodeTable [1].count], the count of Device Status messages. *)
Definition deviceStatusCount (st : adv_static) : Z :=
  idCodeCount 1 (idCodeTable st).

Definition serialRxAdvanced (fuel : nat) (st : adv_static) (g : globals)
  (rxChar : Z) : result (adv_static * globals) :=
  match serialRxState g with
  | 0 =>
      if rxChar =? 254 then
        do g <- append rxChar
                  (set_serialRxState 1 (set_serialRxLength 0 g));
        Ok (st, g)
      else Ok (st, g)
  | 1 =>
      if rxChar =? 255 then
        do g <- append rxChar g;
        do v <- validateAdvancedBmsPacket fuel g st;
        let st := snd v in
        do g <- (if fst v then
                   if verbose (particleEepromData g)
                      || (0 <? deviceStatusCount st)
                   then serialTxEventToNimbus g
                   else Ok g
                 else
                   if verbose (particleEepromData g)
                   then serialTxEventToNimbus g
                   else Ok (set_totalDiscardedBytes
                              (u32 (totalDiscardedBytes g + serialRxLength g))
                              g));
        Ok (st, set_serialRxState 0 g)
      else if rxChar =? 250 then
        Ok (st, set_serialRxState 2 g)
      else if (250 <? rxChar) && (rxChar <=? 254) then
        do g <- advancedPacketReceptionError g;
        Ok (st, set_serialRxState 0
                  (set_totalDiscardedBytes
                     (u32 (totalDiscardedBytes g + serialRxLength g)) g))
      else if ADVANCED_MAX_LENGTH <=? serialRxLength g then
        do g <- advancedPacketReceptionError g;
        Ok (st, set_serialRxState 0
                  (set_totalDiscardedBytes
                     (u32 (totalDiscardedBytes g + serialRxLength g)) g))
      else
        do g <- append rxChar g;
        Ok (st, g)
  | 2 =>
      if 5 <? rxChar then
        do g <- advancedPacketReceptionError g;
        Ok (st, set_serialRxState 0
                  (set_totalDiscardedBytes
                     (u32 (totalDiscardedBytes g + serialRxLength g)) g))
      else
        do g <- append (u8 (rxChar + 250)) g;
        Ok (st, set_serialRxState 1 g)
  | _ => Ok (st, set_serialRxState 0 g)
  end.

(** ** panel_serial_AdvancedAscii *)

Definition ADVANCED_ASCII_MAX_LINES : Z := 8.
Definition ADVANCED_ASCII_LINE_LENGTH : Z := 42.
Definition ADVANCED_ASCII_MAX_LENGTH : Z := 312.

(** The [static] locals of [serialRxAdvancedAscii]. *)
Record ascii_static : Type := {
  lineCount : Z;
  lineCharCount : Z;
  previousChar : Z
}.

Definition ascii_static_init : ascii_static :=
  {| lineCount := 0; lineCharCount := 0; previousChar := 0 |}.

Definition serialRxAdvancedAscii (st : ascii_static) (g : globals)
  (rxChar : Z) : result (ascii_static * globals) :=
  match serialRxState g with
  | 0 =>
      let lcc := u8 (lineCharCount st + 1) in
      do g <- append rxChar g;
      if rxChar =? 10 then
        if 2 <? lcc then
          Ok ({| lineCount := 1; lineCharCount := 0;
                 previousChar := rxChar |}, set_serialRxState 1 g)
        else
          Ok ({| lineCount := lineCount st; lineCharCount := 0;
                 previousChar := rxChar |}, set_serialRxLength 0 g)
      else if ADVANCED_ASCII_LINE_LENGTH <? lcc then
        Ok ({| lineCount := lineCount st; lineCharCount := 0;
               previousChar := rxChar |}, set_serialRxLength 0 g)
      else
        Ok ({| lineCount := lineCount st; lineCharCount := lcc;
               previousChar := rxChar |}, g)
  | 1 =>
      let lcc := u8 (lineCharCount st + 1) in
      do g <- append rxChar g;
      if rxChar =? 10 then
        if 2 <? lcc then
          let lc := u8 (lineCount st + 1) in
          if ADVANCED_ASCII_MAX_LINES <? lc then
            (* leaves through [break]: previousChar keeps its value *)
            Ok ({| lineCount := lc; lineCharCount := 0;
                   previousChar := previousChar st |}, set_serialRxState 2 g)
          else
            Ok ({| lineCount := lc; lineCharCount := 0;
                   previousChar := rxChar |}, g)
        else if (lcc =? 2) && (previousChar st =? 13) then
          do g <- serialTxEventToNimbus g;
          Ok ({| lineCount := lineCount st; lineCharCount := 0;
                 previousChar := rxChar |},
              set_serialRxState 0 (set_serialRxLength 0 g))
        else
          Ok ({| lineCount := lineCount st; lineCharCount := 0;
                 previousChar := rxChar |}, set_serialRxState 2 g)
      else if ADVANCED_ASCII_LINE_LENGTH <? lcc then
        Ok ({| lineCount := lineCount st; lineCharCount := 0;
               previousChar := rxChar |}, set_serialRxState 2 g)
      else if ADVANCED_ASCII_MAX_LENGTH <=? serialRxLength g then
        Ok ({| lineCount := lineCount st; lineCharCount := 0;
               previousChar := rxChar |}, set_serialRxState 2 g)
      else
        Ok ({| lineCount := lineCount st; lineCharCount := lcc;
               previousChar := rxChar |}, g)
  | 2 =>
      let lcc := u8 (lineCharCount st + 1) in
      if rxChar =? 10 then
        if 2 <? lcc then
          Ok ({| lineCount := lineCount st; lineCharCount := 0;
                 previousChar := rxChar |}, g)
        else if (lcc =? 2) && (previousChar st =? 13) then
          Ok ({| lineCount := lineCount st; lineCharCount := 0;
                 previousChar := rxChar |},
              set_serialRxState 0 (set_serialRxLength 0 g))
        else
          Ok ({| lineCount := lineCount st; lineCharCount := lcc;
                 previousChar := rxChar |}, g)
      else
        Ok ({| lineCount := lineCount st; lineCharCount := lcc;
               previousChar := rxChar |}, g)
  | _ =>
      Ok ({| lineCount := lineCount st; lineCharCount := 0;
             previousChar := previousChar st |},
          set_serialRxState 0 (set_serialRxLength 0 g))
  end.

(** The bytes of a text, for writing inputs the way the panel prints
    them. *)
Definition bytes_of_string (s : string) : list Z :=
  map (fun a => Z.of_N (Ascii.N_of_ascii a)) (list_ascii_of_string s).

Definition CR : Z := 13.
Definition LF : Z := 10.

(** ** panel_protocol : the registry *)

Inductive protocolStartHandler_t : Type :=
| serialStartGent | serialStartKentec | serialStartSiemensASCII
| serialStartMinervaASCII | serialStartAdvanced | serialStartNotifier
| serialStartGentASCII | serialStartZiton | serialStartAdvancedASCII.

Inductive protocolStopHandler_t : Type :=
| serialStopGent | serialStopKentec | serialStopSiemensASCII
| serialStopMinervaASCII | serialStopAdvanced | serialStopNotifier
| serialStopGentASCII | serialStopZiton | serialStopAdvancedASCII.

(** The functions [protocolRxHandler] can point to. *)
Inductive protocolRxHandler_t : Type :=
| RxGent | RxAdvanced | RxAdvancedAscii.

Inductive interfaceType_e : Type :=
| INTERFACE_NONE | INTERFACE_SERIAL | INTERFACE_USB | INTERFACE_ETHERNET.

Definition PROTOCOL_NONE_CONFIGURED : Z := 0.
Definition PROTOCOL_GENT : Z := 1.
Definition PROTOCOL_KENTEC : Z := 2.
Definition PROTOCOL_SIEMENS_ASCII : Z := 3.
Definition PROTOCOL_MINERVA_ASCII : Z := 4.
Definition PROTOCOL_ADVANCED : Z := 5.
Definition PROTOCOL_NOTIFIER : Z := 6.
Definition PROTOCOL_GENT_ASCII : Z := 7.
Definition PROTOCOL_ZITON : Z := 8.
Definition PROTOCOL_RESERVED : Z := 9.
Definition PROTOCOL_ADVANCED_ASCII : Z := 10.
Definition PROTOCOL_COUNT : Z := 11.

Record protocolHandlerTable_t : Type := {
  id : Z;
  plabel : string;
  type : interfaceType_e;
  protocolStartHandler : option protocolStartHandler_t;
  protocolStopHandler : option protocolStopHandler_t
}.

Definition protocolHandlerTable : list protocolHandlerTable_t :=
  [ {| id := PROTOCOL_NONE_CONFIGURED; plabel := "None configured";
       type := INTERFACE_NONE;
       protocolStartHandler := None; protocolStopHandler := None |};
    {| id := PROTOCOL_GENT; plabel := "Gent Vigilon Universal";
       type := INTERFACE_SERIAL;
       protocolStartHandler := Some serialStartGent;
       protocolStopHandler := Some serialStopGent |};
    {| id := PROTOCOL_KENTEC; plabel := "Kentec Syncro AS";
       type := INTERFACE_SERIAL;
       protocolStartHandler := Some serialStartKentec;
       protocolStopHandler := Some serialStopKentec |};
    {| id := PROTOCOL_SIEMENS_ASCII;
       plabel := "Siemens Cerberus CS1140 ASCII";
       type := INTERFACE_SERIAL;
       protocolStartHandler := Some serialStartSiemensASCII;
       protocolStopHandler := Some serialStopSiemensASCII |};
    {| id := PROTOCOL_MINERVA_ASCII; plabel := "Tyco Minerva ASCII";
       type := INTERFACE_SERIAL;
       protocolStartHandler := Some serialStartMinervaASCII;
       protocolStopHandler := Some serialStopMinervaASCII |};
    {| id := PROTOCOL_ADVANCED; plabel := "Advanced MXPro BMS I/F";
       type := INTERFACE_SERIAL;
       protocolStartHandler := Some serialStartAdvanced;
       protocolStopHandler := Some serialStopAdvanced |};
    {| id := PROTOCOL_NOTIFIER; plabel := "Notifier ID3000";
       type := INTERFACE_SERIAL;
       protocolStartHandler := Some serialStartNotifier;
       protocolStopHandler := Some serialStopNotifier |};
    {| id := PROTOCOL_GENT_ASCII; plabel := "Gent Vigilon ASCII";
       type := INTERFACE_SERIAL;
       protocolStartHandler := Some serialStartGentASCII;
       protocolStopHandler := Some serialStopGentASCII |};
    {| id := PROTOCOL_ZITON; plabel := "Ziton ZP3";
       type := INTERFACE_SERIAL;
       protocolStartHandler := Some serialStartZiton;
       protocolStopHandler := Some serialStopZiton |};
    {| id := PROTOCOL_RESERVED; plabel := "Reserved";
       type := INTERFACE_NONE;
       protocolStartHandler := None; protocolStopHandler := None |};
    {| id := PROTOCOL_ADVANCED_ASCII; plabel := "Advanced MXPro ASCII";
       type := INTERFACE_SERIAL;
       protocolStartHandler := Some serialStartAdvancedASCII;
       protocolStopHandler := Some serialStopAdvancedASCII |} ].

(** A handler call as it shows in the order of execution. *)
Inductive call : Type :=
| Stopped (h : protocolStopHandler_t)
| Started (h : protocolStartHandler_t).

(** What the registry and its handlers touch: the installed byte handler,
    the isolated supply ([true] for HIGH), whether [Serial1] is running,
    the [static currentId] of [setProtocolType], and the handler calls
    made so far, oldest first. *)
Record interface : Type := {
  protocolRxHandler : option protocolRxHandler_t;
  pwrEnablePin : bool;
  Serial1_running : bool;
  currentId : Z;
  calls : list call
}.

(** The three protocols with a parser install it, switch the supply on and
    start the UART. *)
Definition install (rx : protocolRxHandler_t) (s : interface) : interface :=
  {| protocolRxHandler := Some rx; pwrEnablePin := true;
     Serial1_running := true; currentId := currentId s; calls := calls s |}.

(** Their stop handlers release it, end the UART and switch the supply
    off. *)
Definition release (s : interface) : interface :=
  {| protocolRxHandler := None; pwrEnablePin := false;
     Serial1_running := false; currentId := currentId s; calls := calls s |}.

Definition log_call (c : call) (s : interface) : interface :=
  {| protocolRxHandler := protocolRxHandler s;
     pwrEnablePin := pwrEnablePin s;
     Serial1_running := Serial1_running s; currentId := currentId s;
     calls := calls s ++ [c] |}.

Definition run_start (h : protocolStartHandler_t) (s : interface)
  : interface :=
  let s := log_call (Started h) s in
  match h with
  | serialStartGent => install RxGent s
  | serialStartAdvanced => install RxAdvanced s
  | serialStartAdvancedASCII => install RxAdvancedAscii s
  | _ => s                                   (* empty bodies *)
  end.

Definition run_stop (h : protocolStopHandler_t) (s : interface) : interface :=
  let s := log_call (Stopped h) s in
  match h with
  | serialStopGent | serialStopAdvanced | serialStopAdvancedASCII => release s
  | _ => s                                   (* empty bodies *)
  end.

Definition table_entry (i : Z) : result protocolHandlerTable_t :=
  if (0 <=? i) && (i <? PROTOCOL_COUNT)
  then match nth_error protocolHandlerTable (Z.to_nat i) with
       | Some e => Ok e
       | None => Fault TableOverrun
       end
  else Fault TableOverrun.

Definition setProtocolType (Id : Z) (s : interface) : result interface :=
  do cur <- table_entry (currentId s);
  let s := match protocolStopHandler cur with
           | Some h => run_stop h s
           | None => s
           end in
  do new <- table_entry Id;
  let s := match protocolStartHandler new with
           | Some h => run_start h s
           | None => s
           end in
  Ok {| protocolRxHandler := protocolRxHandler s;
        pwrEnablePin := pwrEnablePin s;
        Serial1_running := Serial1_running s;
        currentId := Id; calls := calls s |}.

(** What an observer of the device sees of the registry. *)
Definition observable (s : interface)
  : option protocolRxHandler_t * Z * bool * bool :=
  (protocolRxHandler s, currentId s, pwrEnablePin s, Serial1_running s).

Definition is_stop (c : call) : bool :=
  match c with Stopped _ => true | Started _ => false end.

Definition is_start (c : call) : bool :=
  match c with Started _ => true | Stopped _ => false end.

Definition stops (s : interface) : nat :=
  length (List.filter is_stop (calls s)).
Definition starts (s : interface) : nat :=
  length (List.filter is_start (calls s)).

(** The call a switch away from protocol [i] makes, if it makes one, and
    the call a switch to it makes. *)
Definition stop_call (i : Z) : list call :=
  match table_entry i with
  | Ok e => match protocolStopHandler e with
            | Some h => [Stopped h]
            | None => []
            end
  | Fault _ => []
  end.

Definition start_call (i : Z) : list call :=
  match table_entry i with
  | Ok e => match protocolStartHandler e with
            | Some h => [Started h]
            | None => []
            end
  | Fault _ => []
  end.

(** The registry as [setup ()] finds it: nothing installed, the isolated
    supply already switched on, [currentId] zero. *)
Definition boot : interface :=
  {| protocolRxHandler := None; pwrEnablePin := true;
     Serial1_running := false; currentId := 0; calls := [] |}.

(** [setProtocolType (Id)] twice in a row. *)
Definition switch_twice (Id : Z) (s : interface) : result interface :=
  do s1 <- setProtocolType Id s;
  setProtocolType Id s1.

(** ** Sample configurations and inputs *)

(** A device configured for the Advanced BMS protocol, quiet. *)
Definition advanced_cfg : particleEepromData_t :=
  {| protocolId := PROTOCOL_ADVANCED; verbose := false |}.

(** The same device holding a 50-byte frame in its receive buffer. *)
Definition holding_50 : globals :=
  set_serialRxLength 50 (power_on advanced_cfg 1700000000).

(** The clock of [g] replaced by [clock], no call made yet. *)
Definition with_clock (clock : nat -> Z) (g : globals) : globals :=
  {| particleEepromData := particleEepromData g; Time_now := clock;
     Time_calls := 0;
     serialRxState := serialRxState g; serialRxBuffer := serialRxBuffer g;
     serialRxLength := serialRxLength g;
     totalDiscardedBytes := totalDiscardedBytes g;
     totalRxEvents := totalRxEvents g; uniqueTransferId := uniqueTransferId g;
     eventMessage := eventMessage g;
     nimbusTransferMessage := nimbusTransferMessage g;
     published := published g |}.

(** The same device with the second turning between the first and the
    second reading of the clock. *)
Definition holding_50_as_the_second_turns : globals :=
  with_clock (fun n => match n with
                       | O => 1700000000
                       | S _ => 1700000001
                       end) holding_50.

(** [Length [0]] of either record. *)
Definition Length0 (l : list Z) : Z := rd l 0.

(** The state a successful call leaves, the state itself on a fault. *)
Definition forwarded (g : globals) : globals :=
  match serialTxEventToNimbus g with
  | Ok g' => g'
  | Fault _ => g
  end.

Definition forwarded_once : globals := forwarded holding_50.
Definition forwarded_twice : globals := forwarded forwarded_once.

(** The same frame forwarded 254 times: the counter has reached 255. *)
Definition forwarded_255 : globals := Nat.iter 253 forwarded forwarded_once.

(** ** Gent frames, as the protocol describes them *)

Definition sum_bytes (l : list Z) : Z := fold_right Z.add 0 l.

(** The 16-bit sum over the message body. *)
Definition checksum16 (body : list Z) : Z := u16 (sum_bytes body).

(** A full event frame: 57 body bytes that open with a known event pair
    other than ACK and NAK, then the high and the low byte of the body's
    checksum. *)
Definition gent_event_frame (f : list Z) : Prop :=
  length f = 59%nat /\
  gentEventPair (rd f 0) (rd f 1) = true /\
  rd f 1 <> ASCII_ACK /\ rd f 1 <> ASCII_NAK /\
  rd f 57 = checksum16 (take 57 f) / 256 /\
  rd f 58 = checksum16 (take 57 f) mod 256.

(** The frame inside a publication: what follows the 16-byte transfer
    header and the 12-byte event header. *)
Definition frame_of (m : list Z) : list Z := drop 28 m.

Definition gent_static_init : gent_static :=
  {| gent_i := 0; rxExpectedLen := 0; rxChecksum := 0 |}.

Definition gent_cfg : particleEepromData_t :=
  {| protocolId := PROTOCOL_GENT; verbose := false |}.

(** The ACK frame a panel sends. *)
Definition gentAckResponse : list Z := [0; ASCII_ACK; 0; ASCII_ACK].

(** The event pair at the head of the buffer calls for a 59-byte frame. *)
Definition event_pair_held (buf : list Z) : Prop :=
  gentEventPair (rd buf 0) (rd buf 1) = true /\
  rd buf 1 <> ASCII_ACK /\ rd buf 1 <> ASCII_NAK.

(** Where [serialRxGent] can be between two bytes, once it has been
    started in state 0. *)
Inductive gent_inv (st : gent_static) (g : globals) : Prop :=
| GentWaitMsb :
    serialRxState g = 0 -> gent_inv st g
| GentWaitLsb :
    serialRxState g = 1 -> gent_i st = 1 ->
    rxChecksum st = checksum16 (take 1 (serialRxBuffer g)) ->
    gent_inv st g
| GentCollecting :
    serialRxState g = 2 -> 2 <= gent_i st <= 56 -> rxExpectedLen st = 56 ->
    rxChecksum st
      = checksum16 (take (Z.to_nat (gent_i st)) (serialRxBuffer g)) ->
    event_pair_held (serialRxBuffer g) ->
    gent_inv st g
| GentAckHi :
    serialRxState g = 3 -> gent_i st = 2 -> gent_inv st g
| GentChecksumHi :
    serialRxState g = 3 -> gent_i st = 57 ->
    rxChecksum st = checksum16 (take 57 (serialRxBuffer g)) ->
    event_pair_held (serialRxBuffer g) ->
    gent_inv st g
| GentAckLo :
    serialRxState g = 4 -> gent_i st = 3 -> gent_inv st g
| GentChecksumLo :
    serialRxState g = 4 -> gent_i st = 58 ->
    rxChecksum st = checksum16 (take 57 (serialRxBuffer g)) ->
    rd (serialRxBuffer g) 57 = rxChecksum st / 256 ->
    event_pair_held (serialRxBuffer g) ->
    gent_inv st g.

(** What one more byte may add to the publications. *)
Definition publishes_at_most (P : list Z -> Prop) (g g' : globals) : Prop :=
  published g' = published g \/
  exists m, published g' = published g ++ [m] /\ P (frame_of m).

(** A Fire event frame: event pair (9, 1), 55 zero bytes of body, and the
    checksum 0x000A. *)
Definition gent_fire_frame : list Z := [9; 1] ++ repeat 0 55 ++ [0; 10].

Definition all_u8 (l : list Z) : bool :=
  forallb (fun b => (0 <=? b) && (b <? 256)) l.

(** The handler's state and the publications after a stream, [None] on a
    fault. *)
Definition gent_run (bytes : list Z) : option (Z * Z * list (list Z)) :=
  match feed serialRxGent gent_static_init (power_on gent_cfg 0) bytes with
  | Ok (st, g) => Some (serialRxState g, gent_i st, published g)
  | Fault _ => None
  end.

(** ** Advanced BMS packets, as the protocol describes them *)

Definition adv_static_init : adv_static :=
  {| errorStr := ""; idCodeTable := idCodeTable_init |}.

Definition verbose_cfg : particleEepromData_t :=
  {| protocolId := PROTOCOL_ADVANCED; verbose := true |}.

(** The substitution of one body byte. *)
Definition stuff (b : Z) : list Z :=
  if CLASH_CODE <=? b then [CLASH_CODE; b - CLASH_CODE] else [b].

(** [*pbuf_len] after the substitution: one more for every byte
    substituted. *)
Definition stuffed_len (body : list Z) (len : Z) : Z :=
  fold_left (fun l b => if CLASH_CODE <=? b then u16 (l + 1) else l)
            body len.

(** The receive side once the end byte 0xFF has been appended to the
    packet in progress. *)
Definition completed (g : globals) : globals :=
  set_serialRxLength (u16 (serialRxLength g + 1))
    (set_serialRxBuffer (wr (serialRxBuffer g) (serialRxLength g) 255) g).

(** The handler's state, the packet length and the publications after a
    stream fed to a quiet, freshly started device. *)
Definition adv_run (cfg : particleEepromData_t) (fuel : nat)
  (bytes : list Z) : result (Z * Z * list (list Z)) :=
  do r <- feed (serialRxAdvanced fuel) adv_static_init (power_on cfg 0) bytes;
  Ok (serialRxState (snd r), serialRxLength (snd r), published (snd r)).

(** A start byte and then [n] times the escape pair FA 00. *)
Definition escaped_stream (n : nat) : list Z :=
  254 :: concat (repeat [250; 0] n).

(** A start byte, 107 bytes of value 1 and the end byte. *)
Definition full_length_stream : list Z := 254 :: repeat 1 107 ++ [255].

(** The packet the handler polls the panel with, CRC 8C 67 included. *)
Definition requestNodeStatus : list Z :=
  [254; 128; 0; 0; 1; 42; 3; 1; 240; 140; 103; 255].

(** The known identifier codes. *)
Definition known_code (c : Z) : Prop :=
  In c (map code idCodeTable_init).

(** A chain of {identifier code, length} messages from offset [c] on: each
    code is known, each length leads to the next code without passing
    [bound], and the chain ends at the code 0xF0. *)
Inductive message_chain (buf : list Z) (bound : Z) : Z -> Prop :=
| chain_last c :
    known_code (rd buf c) ->
    c + rd buf (c + 1) <= bound ->
    rd buf (c + rd buf (c + 1)) = 240 ->
    message_chain buf bound c
| chain_next c :
    known_code (rd buf c) ->
    c + rd buf (c + 1) <= bound ->
    message_chain buf bound (c + rd buf (c + 1)) ->
    message_chain buf bound c.

(** The CRC over bytes 1 to len - 4 of a packet, starting from FF FF. *)
Definition packet_crc (buf : list Z) (len : Z) : Z * Z :=
  fold_left crc_step (take (Z.to_nat (len - 4)) (drop 1 buf)) (255, 255).

(** A valid packet in the words of the specification. *)
Definition valid_packet (buf : list Z) (len : Z) : Prop :=
  12 <= len /\
  packet_crc buf len = (rd buf (len - 3), rd buf (len - 2)) /\
  rd buf 1 = 128 /\
  message_chain buf (len - 4) 5.

(** A packet whose first message has the length byte 0xFF (sent as FA 05)
    and whose sequence number is 0xF0; 3B 96 is its CRC. *)
Definition wrapping_packet : list Z :=
  [254; 128; 0; 0; 240; 10; 255; 0; 0; 59; 150; 255].

Definition wrapping_stream : list Z :=
  [254; 128; 0; 0; 240; 10; 250; 5; 0; 0; 59; 150; 255].

(** A packet whose first message has the length byte 0; 76 37 is its
    CRC. *)
Definition stalling_stream : list Z :=
  [254; 128; 0; 0; 1; 10; 0; 0; 240; 118; 55; 255].

(** A well-formed packet with one Device Status message, one with a Node
    Status message instead (its CRC is 85 FB, the FB sent as FA 01), and a
    frame of ten bytes. *)
Definition device_status_stream : list Z :=
  [254; 128; 0; 0; 1; 10; 3; 7; 240; 132; 7; 255].

Definition node_status_stream : list Z :=
  [254; 128; 0; 0; 1; 11; 3; 7; 240; 133; 250; 1; 255].

Definition short_stream : list Z :=
  [254; 128; 0; 0; 1; 10; 3; 7; 240; 255].

(** The globals a quiet, freshly started device holds after a stream that
    ends inside a packet. *)
Definition received (bytes : list Z) : globals :=
  match feed (serialRxAdvanced 0) adv_static_init (power_on advanced_cfg 0)
             bytes with
  | Ok r => snd r
  | Fault _ => power_on advanced_cfg 0
  end.

(** The codes of a table, in table order. *)
Definition codes (tbl : list idCodeTable_t) : list Z := map code tbl.

(** ** Advanced ASCII messages *)

Definition ascii_cfg : particleEepromData_t :=
  {| protocolId := PROTOCOL_ADVANCED_ASCII; verbose := false |}.

(** The handler's state, the message length and the publications after a
    stream fed to a freshly started device. *)
Definition ascii_run (bytes : list Z) : result (Z * Z * list (list Z)) :=
  do r <- feed serialRxAdvancedAscii ascii_static_init (power_on ascii_cfg 0)
               bytes;
  Ok (serialRxState (snd r), serialRxLength (snd r), published (snd r)).

(** The input of scenario C. *)
Definition LINE1 : list Z := bytes_of_string "LINE1".
Definition scenario_C : list Z := LINE1 ++ [CR; LF; CR; LF].

(** A printed line of [n] letters. *)
Definition ascii_line (n : nat) : list Z := repeat 65 n ++ [CR; LF].

(** The longest message the handler is written for: a first line of 16
    characters, seven lines of 42 and the blank line, 312 characters. *)
Definition longest_message : list Z :=
  ascii_line 14 ++ concat (repeat (ascii_line 40) 7) ++ [CR; LF].

(** Six lines of 42 characters and the blank line, 254 characters. *)
Definition six_line_message : list Z :=
  concat (repeat (ascii_line 40) 6) ++ [CR; LF].

(** Five lines of 42 characters and the blank line, 212 characters. *)
Definition five_line_message : list Z :=
  concat (repeat (ascii_line 40) 5) ++ [CR; LF].

(** ** The scan of [checkPacketFormat], position by position *)

(** Whenever the loop of [checkPacketFormat] starts a turn, [code] is the
    byte at some position [p] of the buffer and [offset] is [p + 1]: the
    turn is a function of [p] alone. *)
Definition known_codeb (c : Z) : bool :=
  existsb (Z.eqb c) (codes idCodeTable_init).

(** One turn from the identifier code at [p]: the verdict the function
    returns with, or the position of the next identifier code. *)
Definition scan_turn (buf : list Z) (maxOffset p : Z) : bool + Z :=
  if known_codeb (rd buf p) then
    let offset := u8 (p + 1) in
    let offset := u8 (offset + (rd buf offset - 1)) in
    if maxOffset <? offset then inl false
    else if rd buf offset =? 240 then inl true
    else inr offset
  else inl false.

(** The position after [k] turns, as long as the loop runs. *)
Fixpoint scan_pos (buf : list Z) (maxOffset : Z) (k : nat) (p : Z)
  : option Z :=
  match k with
  | O => Some p
  | S k' =>
      match scan_turn buf maxOffset p with
      | inr p' => scan_pos buf maxOffset k' p'
      | inl _ => None
      end
  end.

(** The positions of the first [k + 1] turns. *)
Fixpoint scan_path (buf : list Z) (maxOffset : Z) (k : nat) (p : Z)
  : list Z :=
  p :: match k with
       | O => []
       | S k' =>
           match scan_turn buf maxOffset p with
           | inr p' => scan_path buf maxOffset k' p'
           | inl _ => []
           end
       end.

(** The table after the identifier code [c] has been looked up. *)
Definition bump (c : Z) (tbl : list idCodeTable_t) : list idCodeTable_t :=
  match matchIdCode c tbl with
  | Some tbl' => tbl'
  | None => tbl
  end.

(** The loop returns the verdict [b] in its turn number [k], counted from
    zero. *)
Definition scan_halts (buf : list Z) (maxOffset : Z) (k : nat) (p : Z)
  (b : bool) : Prop :=
  exists q, scan_pos buf maxOffset k p = Some q /\
            scan_turn buf maxOffset q = inl b.

(** The scan of the packet held in [g] comes across a Device Status
    code (0x0A). *)
Definition device_status_seen (g : globals) : Prop :=
  exists i q,
    scan_pos (serialRxBuffer g) (u8 (serialRxLength g - 4)) i 5 = Some q /\
    rd (serialRxBuffer g) q = 10.

(** The number of Device Status codes among the codes at the positions
    [path]. *)
Definition device_status_among (buf : list Z) (path : list Z) : nat :=
  length (List.filter (fun q => rd buf q =? 10) path).

(** ** The transmit side *)

(** The variables only [serialTxEventToNimbus] writes. *)
Definition tx_side (g : globals)
  : Z * Z * nimbusTransferMessage_t * list (list Z) :=
  (uniqueTransferId g, totalRxEvents g, nimbusTransferMessage g, published g).

(** The transfer id counter runs one ahead of the event count, modulo 256,
    and the record published last carries the number of its event. *)
Definition tx_inv (g : globals) : Prop :=
  uniqueTransferId g = u8 (totalRxEvents g + 1) /\
  (published g <> [] ->
   tr_uniqueTransferId (nimbusTransferMessage g) = u8 (totalRxEvents g)).

(** ** The event count *)

(** [totalRxEvents] is the number of publications, as far as 32 bits
    count. *)
Definition events_counted (g : globals) : Prop :=
  totalRxEvents g = u32 (Z.of_nat (length (published g))).

(** ** The Gent parser along one event frame *)

(** The state [serialRxGent] is in once it has taken the first [k] bytes
    of an event frame. *)
Definition gent_phase (k : nat) : Z :=
  match k with
  | O => 0
  | S O => 1
  | _ => if (k <=? 56)%nat then 2 else if (k =? 57)%nat then 3 else 4
  end.

(** The parser has taken the first [k] bytes of the frame [f] and holds
    them, with their running sum. *)
Definition gent_holds (f : list Z) (k : nat) (st : gent_static)
  (g : globals) : Prop :=
  serialRxState g = gent_phase k /\
  ((0 < k)%nat -> gent_i st = Z.of_nat k) /\
  ((2 <= k)%nat -> rxExpectedLen st = 56) /\
  ((0 < k)%nat -> rxChecksum st = checksum16 (take (Nat.min k 57) f)) /\
  take k (serialRxBuffer g) = take k f /\
  length (serialRxBuffer g) = 512%nat.

(** What lies in [serialRxBuffer] behind the 59 bytes of a Gent frame. *)
Definition tail_is (T : list Z) (g : globals) : Prop :=
  drop 59 (serialRxBuffer g) = T.

(** ** The CRC state *)

(** Both CRC bytes are bytes. *)
Definition crc_u8 (crc : Z * Z) : Prop := is_u8 (fst crc) /\ is_u8 (snd crc).

(** ** The length bound of the binary parser *)

(** The packet in progress is within the 108 bytes the parser allows, one
    more once the end byte has been added. *)
Definition adv_within (g : globals) : Prop :=
  0 <= serialRxLength g <= 109 /\
  (serialRxState g = 0 \/
   serialRxState g = 1 /\ serialRxLength g <= ADVANCED_MAX_LENGTH).

(** ** Printed messages *)

(** A printed line: its characters, then CR LF. *)
Definition text_line (l : list Z) : list Z := l ++ [CR; LF].

(** A printed message: its lines, then the blank line. *)
Definition text_message (lines : list (list Z)) : list Z :=
  concat (map text_line lines) ++ [CR; LF].

(** A line the parser takes: one to 41 characters, none of them LF. *)
Definition text_ok (l : list Z) : Prop :=
  l <> [] /\ (length l <= 41)%nat /\ Forall (fun c => c <> LF) l.

(** What the parser holds between two bytes: in state 0 the message is
    the line so far, in state 1 it has room for the end of its line, and
    the error state stores nothing. *)
Definition ascii_within (st : ascii_static) (g : globals) : Prop :=
  (serialRxState g = 0 /\
   0 <= lineCharCount st <= ADVANCED_ASCII_LINE_LENGTH /\
   serialRxLength g = lineCharCount st) \/
  (serialRxState g = 1 /\
   0 <= lineCharCount st <= ADVANCED_ASCII_LINE_LENGTH /\
   0 <= serialRxLength g /\
   serialRxLength g + (if lineCharCount st =? 0 then 0 else 1)
     <= ADVANCED_ASCII_MAX_LENGTH) \/
  (serialRxState g = 2 /\
   0 <= serialRxLength g <= ADVANCED_ASCII_MAX_LENGTH + 1).

(** ** The registry over a run, and the scan of the UART *)

(** The parser a start handler installs, by protocol id. *)
Definition parser_of (i : Z) : option protocolRxHandler_t :=
  match table_entry i with
  | Ok e =>
      match protocolStartHandler e with
      | Some serialStartGent => Some RxGent
      | Some serialStartAdvanced => Some RxAdvanced
      | Some serialStartAdvancedASCII => Some RxAdvancedAscii
      | _ => None
      end
  | Fault _ => None
  end.

(** [setProtocolType] called for one id after the other. *)
Fixpoint switches (ids : list Z) (s : interface) : result interface :=
  match ids with
  | [] => Ok s
  | i :: rest => do s1 <- setProtocolType i s; switches rest s1
  end.

(** The installed handler is the parser of the active protocol, the UART
    runs exactly while a handler is installed, and a handler never runs
    without the isolated supply. *)
Definition registry_inv (s : interface) : Prop :=
  0 <= currentId s < PROTOCOL_COUNT /\
  protocolRxHandler s = parser_of (currentId s) /\
  Serial1_running s
  = match protocolRxHandler s with Some _ => true | None => false end /\
  (protocolRxHandler s <> None -> pwrEnablePin s = true).

(** The device as [loop ()] sees it: the registry, the globals, the
    statics of the three parsers and the bytes [Serial1] holds ready.
    The global [rxChar] only carries a byte from the read to the call and
    is left out. *)
Record device : Type := {
  registry : interface;
  globals_of : globals;
  gent_statics : gent_static;
  adv_statics : adv_static;
  ascii_statics : ascii_static;
  Serial1_pending : list Z
}.

(** [protocolRxHandler (rxChar)] *)
Definition call_handler (fuel : nat) (h : protocolRxHandler_t) (rxChar : Z)
  (rest : list Z) (d : device) : result device :=
  match h with
  | RxGent =>
      do r <- serialRxGent (gent_statics d) (globals_of d) rxChar;
      Ok {| registry := registry d; globals_of := snd r;
            gent_statics := fst r; adv_statics := adv_statics d;
            ascii_statics := ascii_statics d; Serial1_pending := rest |}
  | RxAdvanced =>
      do r <- serialRxAdvanced fuel (adv_statics d) (globals_of d) rxChar;
      Ok {| registry := registry d; globals_of := snd r;
            gent_statics := gent_statics d; adv_statics := fst r;
            ascii_statics := ascii_statics d; Serial1_pending := rest |}
  | RxAdvancedAscii =>
      do r <- serialRxAdvancedAscii (ascii_statics d) (globals_of d) rxChar;
      Ok {| registry := registry d; globals_of := snd r;
            gent_statics := gent_statics d; adv_statics := adv_statics d;
            ascii_statics := fst r; Serial1_pending := rest |}
  end.

Definition serialScan (fuel : nat) (d : device) : result device :=
  match Serial1_pending d with
  | [] => Ok d
  | rxChar :: rest =>
      match protocolRxHandler (registry d) with
      | Some h => call_handler fuel h rxChar rest d
      | None =>
          Ok {| registry := registry d; globals_of := globals_of d;
                gent_statics := gent_statics d;
                adv_statics := adv_statics d;
                ascii_statics := ascii_statics d;
                Serial1_pending := rest |}
      end
  end.

(** [n] passes of [loop ()]. *)
Fixpoint scans (fuel : nat) (n : nat) (d : device) : result device :=
  match n with
  | O => Ok d
  | S n' => do d1 <- serialScan fuel d; scans fuel n' d1
  end.

(** The device after the installed parser has taken [bytes]. *)
Definition fed (fuel : nat) (bytes rest : list Z) (d : device)
  : result device :=
  match protocolRxHandler (registry d) with
  | Some RxGent =>
      do r <- feed serialRxGent (gent_statics d) (globals_of d) bytes;
      Ok {| registry := registry d; globals_of := snd r;
            gent_statics := fst r; adv_statics := adv_statics d;
            ascii_statics := ascii_statics d; Serial1_pending := rest |}
  | Some RxAdvanced =>
      do r <- feed (serialRxAdvanced fuel) (adv_statics d) (globals_of d)
                   bytes;
      Ok {| registry := registry d; globals_of := snd r;
            gent_statics := gent_statics d; adv_statics := fst r;
            ascii_statics := ascii_statics d; Serial1_pending := rest |}
  | Some RxAdvancedAscii =>
      do r <- feed serialRxAdvancedAscii (ascii_statics d) (globals_of d)
                   bytes;
      Ok {| registry := registry d; globals_of := snd r;
            gent_statics := gent_statics d; adv_statics := adv_statics d;
            ascii_statics := fst r; Serial1_pending := rest |}
  | None =>
      Ok {| registry := registry d; globals_of := globals_of d;
            gent_statics := gent_statics d; adv_statics := adv_statics d;
            ascii_statics := ascii_statics d; Serial1_pending := rest |}
  end.

(** A device just out of [setup ()] with [bytes] waiting in the UART. *)
Definition started (cfg : particleEepromData_t) (s : interface)
  (bytes : list Z) : device :=
  {| registry := s; globals_of := power_on cfg 0;
     gent_statics := gent_static_init; adv_statics := adv_static_init;
     ascii_statics := ascii_static_init; Serial1_pending := bytes |}.

(** ** hexDump *)

(** The conversions [hexDump] asks of [sprintf]: one hexadecimal digit,
    [%02X] of a byte, [%03x] of a 16-bit offset, [isprint] in the C
    locale. *)
Definition hex_digit (upper : bool) (d : Z) : Z :=
  if d <? 10 then 48 + d else (if upper then 55 else 87) + d.

Definition fmt_02X (b : Z) : list Z :=
  [hex_digit true (b / 16); hex_digit true (b mod 16)].

Definition fmt_03x (i : Z) : list Z :=
  if i <? 4096
  then [hex_digit false (i / 256); hex_digit false (i / 16 mod 16);
        hex_digit false (i mod 16)]
  else [hex_digit false (i / 4096); hex_digit false (i / 256 mod 16);
        hex_digit false (i / 16 mod 16); hex_digit false (i mod 16)].

Definition isprint (c : Z) : bool := (32 <=? c) && (c <? 127).

(** The local [ob [80]]. *)
Definition OB_SIZE : Z := 80.

(** [s] written over [ob] from index [pos] on. *)
Definition poke (ob : list Z) (pos : nat) (s : list Z) : list Z :=
  take pos ob ++ s ++ drop (pos + length s) ob.

(** [sprintf ((char * ) ob + pos, ...)] : the characters [s] and the
    terminating NUL, inside [ob] or not at all. *)
Definition sprintf (ob : list Z) (pos : Z) (s : list Z) : result (list Z) :=
  if (0 <=? pos) && (pos + Z.of_nat (length s) <? OB_SIZE)
  then Ok (poke ob (Z.to_nat pos) (s ++ [0]))
  else Fault BufferOverrun.

(** What [%s] prints of a buffer: the characters before the first NUL. *)
Fixpoint c_string (ob : list Z) : list Z :=
  match ob with
  | [] => []
  | c :: rest => if c =? 0 then [] else c :: c_string rest
  end.

(** The body of the loop over [j]: the hex column and the character
    column of byte [j] of the line, blanks behind the last byte. *)
Definition hexDump_column (buf : list Z) (i n k : Z) (ob : list Z) (j : Z)
  : result (list Z) :=
  if j <? n then
    match buf !! Z.to_nat (i + j) with
    | Some b =>
        do ob <- sprintf ob (k + j * 3) (fmt_02X b ++ [32]);
        sprintf ob (k + 16 * 3 + j + 2) [if isprint b then b else 46]
    | None => Fault ReadOverrun
    end
  else
    do ob <- sprintf ob (k + j * 3) [32; 32; 32];
    sprintf ob (k + 16 * 3 + j + 2) [32].

(** [for (j = ...; j < 16; j++)] with [cnt] turns to go. *)
Fixpoint hexDump_columns (cnt : nat) (buf : list Z) (i n k : Z)
  (ob : list Z) (j : Z) : result (list Z) :=
  match cnt with
  | O => Ok ob
  | S cnt' =>
      do ob <- hexDump_column buf i n k ob j;
      hexDump_columns cnt' buf i n k ob (j + 1)
  end.

(** One turn of the loop over [i]: the buffer it leaves and the line it
    prints. *)
Definition hexDump_line (buf : list Z) (len i : Z) (ob : list Z)
  : result (list Z * list Z) :=
  let head := [32; 32; 32] ++ fmt_03x i ++ [58; 32] in
  do ob <- sprintf ob 0 head;
  let k := Z.of_nat (length head) in
  let n := if len <? i + 16 then u16 (len - i) else 16 in
  do ob <- hexDump_columns 16 buf i n k ob 0;
  let ob := wr ob (k + 16 * 3) 32 in
  let ob := wr ob 79 0 in
  Ok (ob, c_string ob ++ [13; 10]).

(** [for (i = 0; i < len; i += 16)] on a [uint16_t i], one turn per unit
    of fuel; [out] is what has been written to the console. *)
Fixpoint hexDump_lines (fuel : nat) (buf : list Z) (len i : Z)
  (ob : list Z) (out : list (list Z)) : result (list (list Z)) :=
  match fuel with
  | O => Fault OutOfFuel
  | S fuel' =>
      if i <? len then
        do r <- hexDump_line buf len i ob;
        hexDump_lines fuel' buf len (u16 (i + 16)) (fst r) (out ++ [snd r])
      else Ok out
  end.

(** The writes to the console, in order. *)
Definition hexDump (fuel : nat) (buf : list Z) (len : Z)
  : result (list (list Z)) :=
  let ob := repeat 32 79 ++ [0] in
  do out <- hexDump_lines fuel buf len 0 ob [];
  Ok (out ++ [[13; 10]]).

(** A line of the dump as it should read: offset, sixteen hex columns,
    two blanks, sixteen character columns. *)
Definition dump_char (b : Z) : Z := if isprint b then b else 46.

Definition dump_line (i : Z) (chunk : list Z) : list Z :=
  [32; 32; 32] ++ fmt_03x i ++ [58; 32]
  ++ flat_map (fun b => fmt_02X b ++ [32]) chunk
  ++ repeat 32 (3 * (16 - length chunk))
  ++ [32; 32]
  ++ map dump_char chunk ++ repeat 32 (16 - length chunk)
  ++ [13; 10].

(** The bytes of line [q] of a dump of [len] bytes. *)
Definition dump_chunk (buf : list Z) (len : Z) (q : nat) : list Z :=
  take 16 (drop (16 * q) (take (Z.to_nat len) buf)).

(** The whole dump as it should read. *)
Definition dump (buf : list Z) (len : Z) : list (list Z) :=
  map (fun q => dump_line (16 * Z.of_nat q) (dump_chunk buf len q))
      (seq 0 (Z.to_nat ((len + 15) / 16)))
  ++ [[13; 10]].

(** The two columns of position [j] of a line whose bytes are [chunk]. *)
Definition cell_hex (chunk : list Z) (j : nat) : list Z :=
  match chunk !! j with
  | Some b => fmt_02X b ++ [32]
  | None => [32; 32; 32]
  end.

Definition cell_chr (chunk : list Z) (j : nat) : Z :=
  match chunk !! j with
  | Some b => dump_char b
  | None => 32
  end.

(** [ob] after [j] turns of the loop over the columns: the head and [j]
    hex columns at the front, the blank at 57 and [j] character columns
    from 58 on. *)
Definition columns_done (head chunk : list Z) (j : nat) (ob : list Z)
  : Prop :=
  length ob = 80%nat /\
  take (8 + 3 * j) ob = head ++ flat_map (cell_hex chunk) (seq 0 j) /\
  take (1 + j) (drop 57 ob) = 32 :: map (cell_chr chunk) (seq 0 j) /\
  ((0 < j)%nat -> ob !! (58 + j)%nat = Some 0).

(** What every turn of the loop over [i] finds and leaves of [ob]: its 80
    bytes, with the blank of the first fill still at index 57. *)
Definition dump_ready (ob : list Z) : Prop :=
  length ob = 80%nat /\ ob !! 57%nat = Some 32.

(** Reading a dump back: a hex digit, the hex columns of a line, the
    offset of a line. *)
Definition unhex_digit (c : Z) : Z :=
  if c <? 58 then c - 48 else if c <? 97 then c - 55 else c - 87.

Fixpoint unhex_columns (l : list Z) : list Z :=
  match l with
  | a :: b :: _ :: rest =>
      (16 * unhex_digit a + unhex_digit b) :: unhex_columns rest
  | _ => []
  end.

Definition unhex_offset (l : list Z) : Z :=
  fold_left (fun z c => 16 * z + unhex_digit c) l 0.

(** ** The receive buffer as bytes *)

(** Every cell of [serialRxBuffer] holds a byte. *)
Definition buffer_of_bytes (g : globals) : Prop :=
  Forall is_u8 (serialRxBuffer g).

(** The configuration is [cfg]. *)
Definition config_is (cfg : particleEepromData_t) (g : globals) : Prop :=
  particleEepromData g = cfg.

(** * Properties *)

Lemma u8_range z : 0 <= u8 z < 256.
Proof. unfold u8. apply Z.mod_pos_bound. lia. Qed.

Lemma u16_range z : 0 <= u16 z < 65536.
Proof. unfold u16. apply Z.mod_pos_bound. lia. Qed.

Lemma u8_small z : 0 <= z < 256 -> u8 z = z.
Proof. intros. unfold u8. apply Z.mod_small. lia. Qed.

Lemma u16_small z : 0 <= z < 65536 -> u16 z = z.
Proof. intros. unfold u16. apply Z.mod_small. lia. Qed.

Lemma rbind_Ok {A B} (c : result A) (k : A -> result B) b :
  rbind c k = Ok b -> exists a, c = Ok a /\ k a = Ok b.
Proof. destruct c; simpl; intros; [eauto | discriminate]. Qed.

Lemma u8_idem z : u8 (u8 z) = u8 z.
Proof. unfold u8. apply Z.mod_mod. lia. Qed.

Lemma u8_add_l a b : u8 (u8 a + b) = u8 (a + b).
Proof. unfold u8. apply Zplus_mod_idemp_l. Qed.

(** ** The event encoder *)

Lemma serialTxEventToNimbus_fits g :
  serialRxLength g <= EVENT_DATA_SIZE ->
  exists g', serialTxEventToNimbus g = Ok g'.
Proof.
  intros H. unfold serialTxEventToNimbus.
  destruct (EVENT_DATA_SIZE <? serialRxLength g) eqn:E.
  - apply Z.ltb_lt in E. exfalso; lia.
  - eexists. reflexivity.
Qed.

Lemma serialTxEventToNimbus_overrun g :
  EVENT_DATA_SIZE < serialRxLength g ->
  serialTxEventToNimbus g = Fault RecordOverrun.
Proof.
  intros H. unfold serialTxEventToNimbus.
  destruct (EVENT_DATA_SIZE <? serialRxLength g) eqn:E; [reflexivity|].
  apply Z.ltb_ge in E. lia.
Qed.

(** Whatever a successful call leaves behind, field by field. *)
Lemma serialTxEventToNimbus_fields g g' :
  serialTxEventToNimbus g = Ok g' ->
  serialRxLength g <= EVENT_DATA_SIZE /\
  ev_Type (eventMessage g') = protocolId (particleEepromData g) /\
  ev_Length (eventMessage g') = [u8 (serialRxLength g + 8); 0; 0] /\
  ev_SecondFracPart (eventMessage g') = 0 /\
  tr_Type (nimbusTransferMessage g') = 131 /\
  tr_Length (nimbusTransferMessage g') = [u8 (serialRxLength g + 24); 0; 0] /\
  tr_uniqueTransferId (nimbusTransferMessage g') = uniqueTransferId g /\
  uniqueTransferId g' = u8 (uniqueTransferId g + 1) /\
  totalRxEvents g' = u32 (totalRxEvents g + 1) /\
  serialRxState g' = serialRxState g /\
  serialRxBuffer g' = serialRxBuffer g /\
  serialRxLength g' = serialRxLength g /\
  totalDiscardedBytes g' = totalDiscardedBytes g /\
  particleEepromData g' = particleEepromData g.
Proof.
  unfold serialTxEventToNimbus.
  destruct (EVENT_DATA_SIZE <? serialRxLength g) eqn:E; [discriminate|].
  apply Z.ltb_ge in E. intros [= <-]. cbn [eventMessage nimbusTransferMessage
    ev_Type ev_Length ev_SecondFracPart tr_Type tr_Length tr_uniqueTransferId
    uniqueTransferId totalRxEvents serialRxState serialRxBuffer serialRxLength
    totalDiscardedBytes particleEepromData].
  repeat split; try assumption.
  rewrite u8_idem, !u8_add_l, <- Z.add_assoc, u8_add_l.
  do 2 f_equal. lia.
Qed.

(** C2, as the code has it: for a frame of [L <= 244] bytes in the receive
    buffer and configured protocol id [p], [serialTxEventToNimbus] sets
    EventRecord.Type = p and EventRecord.Length = [L + 8; 0; 0], sets
    TransferRecord.Type = 0x83 and TransferRecord.Length [0] to the low
    byte of L + 24, which is the EventRecord length byte plus 16 (the 4
    bytes of the event's type and length fields and the 12 bytes of
    transfer id, timestamp and fraction) with the other two length bytes
    zero, writes the current transfer id and moves the 8-bit counter on by
    one modulo 256.  For L = 50 and p = 5 the two length bytes are 58 and
    74. *)
Theorem C2_transfer_encoder_fields (g : globals) :
  0 <= serialRxLength g <= EVENT_DATA_SIZE ->
  exists g',
    serialTxEventToNimbus g = Ok g' /\
    ev_Type (eventMessage g') = protocolId (particleEepromData g) /\
    ev_Length (eventMessage g') = [serialRxLength g + 8; 0; 0] /\
    tr_Type (nimbusTransferMessage g') = 131 /\
    tr_Length (nimbusTransferMessage g')
      = [(Length0 (ev_Length (eventMessage g')) + 16) mod 256; 0; 0] /\
    tr_uniqueTransferId (nimbusTransferMessage g') = uniqueTransferId g /\
    uniqueTransferId g' = (uniqueTransferId g + 1) mod 256 /\
    (serialRxLength g = 50 -> protocolId (particleEepromData g) = 5 ->
     ev_Type (eventMessage g') = 5 /\
     Length0 (ev_Length (eventMessage g')) = 58 /\
     Length0 (tr_Length (nimbusTransferMessage g')) = 74).
Proof.
  intros HL.
  destruct (serialTxEventToNimbus_fits g) as [g' Hg']; [lia|].
  exists g'. split; [exact Hg'|].
  apply serialTxEventToNimbus_fields in Hg'.
  destruct Hg' as (_ & HT & HEL & _ & HTT & HTL & HId & HCnt & _).
  assert (Hsmall : u8 (serialRxLength g + 8) = serialRxLength g + 8).
  { apply u8_small. unfold EVENT_DATA_SIZE in HL. lia. }
  rewrite Hsmall in HEL.
  repeat split; try assumption.
  - rewrite HTL, HEL. unfold Length0, rd, u8. simpl.
    do 2 f_equal. lia.
  - congruence.
  - rewrite HEL. unfold Length0, rd. simpl. lia.
  - rewrite HTL. unfold Length0, rd. simpl.
    replace (serialRxLength g) with 50 by (symmetry; assumption).
    reflexivity.
Qed.

Lemma C2_transfer_encoder_fields_witness :
  exists g',
    serialTxEventToNimbus holding_50 = Ok g' /\
    ev_Type (eventMessage g') = 5 /\
    Length0 (ev_Length (eventMessage g')) = 58 /\
    Length0 (tr_Length (nimbusTransferMessage g')) = 74.
Proof.
  destruct (C2_transfer_encoder_fields holding_50) as (g' & H & _ & _ & _ & _ & _ & _ & H50).
  - vm_compute. split; discriminate.
  - exists g'. split; [exact H|]. apply H50; reflexivity.
Defined.

(** C2 as stated fails: for the 50-byte frame and protocol id 5 the
    TransferRecord length byte is 74; it is neither the EventRecord length
    byte plus 4 (62) nor the serialized EventRecord size plus 4 (66).  And
    the transfer id after 255 is 0, not 256. *)
Lemma C2_transfer_length_counterexample :
  match serialTxEventToNimbus holding_50 with
  | Ok g' =>
      Length0 (ev_Length (eventMessage g')) = 58 /\
      Length0 (tr_Length (nimbusTransferMessage g')) = 74 /\
      Length0 (tr_Length (nimbusTransferMessage g'))
        <> Length0 (ev_Length (eventMessage g')) + 4 /\
      Length0 (tr_Length (nimbusTransferMessage g'))
        <> (Length0 (ev_Length (eventMessage g')) + 4) + 4
  | Fault _ => False
  end /\
  match serialTxEventToNimbus forwarded_255 with
  | Ok g' =>
      tr_uniqueTransferId (nimbusTransferMessage g') = 255 /\
      uniqueTransferId g' = 0 /\
      uniqueTransferId g' <> uniqueTransferId forwarded_255 + 1
  | Fault _ => False
  end.
Proof. vm_compute. repeat split; discriminate. Qed.


(** ** Arrays *)

Lemma length_wr a i v : length (wr a i v) = length a.
Proof. unfold wr. apply length_insert. Qed.

Lemma rd_wr_same a i v :
  0 <= i -> (Z.to_nat i < length a)%nat -> rd (wr a i v) i = v.
Proof.
  intros Hi Hlen. unfold rd, wr.
  rewrite nth_lookup, list_lookup_insert_eq by assumption. reflexivity.
Qed.

Lemma rd_wr_other a i j v :
  0 <= i -> 0 <= j -> i <> j -> rd (wr a i v) j = rd a j.
Proof.
  intros Hi Hj Hne. unfold rd, wr.
  rewrite !nth_lookup, list_lookup_insert_ne by lia. reflexivity.
Qed.

Lemma take_wr_ge a n i v :
  0 <= i -> (n <= Z.to_nat i)%nat -> take n (wr a i v) = take n a.
Proof. intros Hi Hn. unfold wr. apply take_insert_ge. assumption. Qed.

Lemma take_wr_next a i v :
  0 <= i -> (Z.to_nat i < length a)%nat ->
  take (Z.to_nat (i + 1)) (wr a i v) = take (Z.to_nat i) a ++ [v].
Proof.
  intros Hi Hlen. unfold wr.
  replace (Z.to_nat (i + 1)) with (S (Z.to_nat i)) by lia.
  rewrite (take_S_r _ _ v) by (apply list_lookup_insert_eq; assumption).
  rewrite take_insert_ge by lia. reflexivity.
Qed.

Lemma rd_take a n i :
  0 <= i -> (Z.to_nat i < n)%nat -> rd (take n a) i = rd a i.
Proof.
  intros Hi Hn. unfold rd.
  rewrite !nth_lookup, lookup_take_lt by assumption. reflexivity.
Qed.

(** ** What a publication carries *)

(** The bytes handed to the publisher are the 16-byte transfer header, the
    12-byte event header and then the frame, as long as the three lengths
    fit their byte. *)
Lemma serialTxEventToNimbus_published g g' :
  serialTxEventToNimbus g = Ok g' ->
  0 <= serialRxLength g <= 227 ->
  (Z.to_nat (serialRxLength g) <= length (serialRxBuffer g))%nat ->
  exists m,
    published g' = published g ++ [m] /\
    drop 28 m = take (Z.to_nat (serialRxLength g)) (serialRxBuffer g).
Proof.
  unfold serialTxEventToNimbus.
  destruct (EVENT_DATA_SIZE <? serialRxLength g) eqn:E; [discriminate|].
  intros [= <-] HL Hlen. cbn [published].
  eexists. split; [reflexivity|].
  set (L := serialRxLength g) in *.
  rewrite (u8_small (L + 8)), (u8_small (L + 8 + 4)),
    (u8_small (L + 8 + 4 + 12)), (u8_small (L + 8 + 4 + 12 + 4)) by lia.
  unfold Message, Event, memcpy, le32.
  replace (Z.to_nat (L + 8 + 4 + 12 + 4)) with (28 + Z.to_nat L)%nat by lia.
  replace (Z.to_nat (L + 8 + 4)) with (12 + Z.to_nat L)%nat by lia.
  cbn [tr_Type tr_Length tr_uniqueTransferId tr_TimeStamp tr_SecondFracPart
       tr_Data ev_Type ev_Length ev_TimeStamp ev_SecondFracPart ev_Data
       app take drop Nat.add].
  rewrite take_app_le.
  2:{ rewrite length_take, length_app, length_take. lia. }
  rewrite take_take, Nat.min_id.
  rewrite take_app_le by (rewrite length_take; lia).
  rewrite take_take, Nat.min_id. reflexivity.
Qed.

(** ** The Gent parser *)

Lemma store_Ok idx v g :
  0 <= idx < SERIAL_RX_BUFFER_SIZE ->
  store idx v g = Ok (set_serialRxBuffer (wr (serialRxBuffer g) idx v) g).
Proof.
  intros H. unfold store.
  replace ((0 <=? idx) && (idx <? SERIAL_RX_BUFFER_SIZE)) with true;
    [reflexivity|].
  symmetry. apply andb_true_iff. split; [apply Z.leb_le | apply Z.ltb_lt]; lia.
Qed.

Lemma sum_bytes_snoc l c : sum_bytes (l ++ [c]) = sum_bytes l + c.
Proof.
  unfold sum_bytes. induction l as [|a l IH]; simpl; [lia|].
  rewrite IH. lia.
Qed.

Lemma checksum16_snoc l c : checksum16 (l ++ [c]) = u16 (checksum16 l + c).
Proof.
  unfold checksum16, u16. rewrite sum_bytes_snoc.
  symmetry. apply Zplus_mod_idemp_l.
Qed.

Lemma checksum16_range l : 0 <= checksum16 l < 65536.
Proof. apply u16_range. Qed.

Lemma checksum_hi_byte s :
  0 <= s < 65536 -> u8 (Z.shiftr s 8) = s / 256.
Proof.
  intros H. rewrite Z.shiftr_div_pow2 by lia. change (2 ^ 8) with 256.
  apply u8_small.
  split; [apply Z.div_pos; lia | apply Z.div_lt_upper_bound; lia].
Qed.

Lemma checksum_lo_byte s : 0 <= s -> u8 (Z.land s 255) = s mod 256.
Proof.
  intros H. change 255 with (Z.ones 8). rewrite Z.land_ones by lia.
  change (2 ^ 8) with 256. unfold u8. apply Z.mod_mod. lia.
Qed.

Lemma event_pair_held_wr buf i v :
  2 <= i -> event_pair_held buf -> event_pair_held (wr buf i v).
Proof.
  intros Hi (H1 & H2 & H3). unfold event_pair_held.
  rewrite !rd_wr_other by lia. auto.
Qed.

Lemma take_1_wr_0 a v :
  (0 < length a)%nat -> take 1 (wr a 0 v) = [v].
Proof.
  intros H. change 1%nat with (Z.to_nat (0 + 1)).
  rewrite take_wr_next by (simpl; lia). reflexivity.
Qed.

Lemma checksum16_single c : checksum16 [c] = u16 c.
Proof. unfold checksum16, sum_bytes. simpl. f_equal. lia. Qed.

Ltac gent_fields :=
  cbn [serialRxState serialRxBuffer serialRxLength published
       set_serialRxBuffer set_serialRxState set_serialRxLength
       gent_i rxChecksum rxExpectedLen fst snd].

Lemma gent_step st g c :
  length (serialRxBuffer g) = 512%nat ->
  gent_inv st g -> is_u8 c ->
  exists st' g',
    serialRxGent st g c = Ok (st', g') /\
    length (serialRxBuffer g') = 512%nat /\
    gent_inv st' g' /\
    publishes_at_most gent_event_frame g g'.
Proof.
  intros Hlen Hinv Hc. unfold is_u8 in Hc.
  destruct Hinv as [Hs | Hs Hi Hsum | Hs Hi He Hsum Hp | Hs Hi
                   | Hs Hi Hsum Hp | Hs Hi | Hs Hi Hsum Hhi Hp];
    unfold serialRxGent; rewrite Hs; cbv beta iota.
  - (* WaitEventMsb *)
    destruct (18 <? c) eqn:E.
    + exists st, g. repeat split; [assumption | | left; reflexivity].
      apply GentWaitMsb; assumption.
    + rewrite store_Ok by (unfold SERIAL_RX_BUFFER_SIZE; lia).
      cbn [rbind]. eexists _, _. split; [reflexivity|]. gent_fields.
      split; [rewrite length_wr; assumption|].
      split; [|left; reflexivity].
      apply GentWaitLsb; gent_fields; try reflexivity.
      rewrite take_1_wr_0 by lia. symmetry. apply checksum16_single.
  - (* WaitEventLsb *)
    rewrite Hi, store_Ok by (unfold SERIAL_RX_BUFFER_SIZE; lia).
    cbn [rbind]. change (u8 (1 + 1)) with 2.
    set (g1 := set_serialRxBuffer (wr (serialRxBuffer g) 1 c) g).
    assert (Hsum' : u16 (rxChecksum st + c)
                    = checksum16 (take 2 (serialRxBuffer g1))).
    { subst g1. gent_fields. change 2%nat with (Z.to_nat (1 + 1)).
      rewrite take_wr_next by (simpl; lia).
      rewrite checksum16_snoc, Hsum. reflexivity. }
    destruct (rxGentValidateEventPair g1) eqn:Ev.
    + destruct ((c =? ASCII_ACK) || (c =? ASCII_NAK)) eqn:Ea.
      * eexists _, _. split; [reflexivity|]. gent_fields.
        split; [subst g1; gent_fields; rewrite length_wr; assumption|].
        split; [|left; reflexivity].
        apply GentAckHi; reflexivity.
      * eexists _, _. split; [reflexivity|]. gent_fields.
        split; [subst g1; gent_fields; rewrite length_wr; assumption|].
        split; [|left; reflexivity].
        apply GentCollecting; gent_fields; try reflexivity; try lia.
        -- exact Hsum'.
        -- apply orb_false_iff in Ea as [Ea1 Ea2].
           apply Z.eqb_neq in Ea1, Ea2.
           unfold event_pair_held. split; [exact Ev|].
           subst g1. gent_fields.
           rewrite rd_wr_same by (simpl; lia). auto.
    + eexists _, _. split; [reflexivity|]. gent_fields.
      split; [subst g1; gent_fields; rewrite length_wr; assumption|].
      split; [|left; reflexivity].
      apply GentWaitMsb; reflexivity.
  - (* Collecting *)
    rewrite He.
    assert (Hi8 : u8 (gent_i st + 1) = gent_i st + 1)
      by (apply u8_small; lia).
    assert (Hnext : u16 (rxChecksum st + c)
      = checksum16 (take (Z.to_nat (gent_i st + 1))
                         (wr (serialRxBuffer g) (gent_i st) c))).
    { rewrite take_wr_next by lia. rewrite checksum16_snoc, Hsum.
      reflexivity. }
    destruct (gent_i st <? 56) eqn:E.
    + apply Z.ltb_lt in E.
      rewrite store_Ok by (unfold SERIAL_RX_BUFFER_SIZE; lia).
      cbn [rbind]. eexists _, _. split; [reflexivity|]. gent_fields.
      split; [rewrite length_wr; assumption|].
      split; [|left; reflexivity].
      apply GentCollecting; gent_fields; try assumption; try reflexivity.
      * lia.
      * rewrite Hi8. exact Hnext.
      * apply event_pair_held_wr; [lia | assumption].
    + apply Z.ltb_ge in E. assert (Hi56 : gent_i st = 56) by lia.
      rewrite store_Ok by (unfold SERIAL_RX_BUFFER_SIZE; lia).
      cbn [rbind]. eexists _, _. split; [reflexivity|]. gent_fields.
      split; [rewrite length_wr; assumption|].
      split; [|left; reflexivity].
      apply GentChecksumHi; gent_fields; try reflexivity.
      * rewrite Hi56. reflexivity.
      * rewrite Hnext, Hi56. reflexivity.
      * apply event_pair_held_wr; [lia | assumption].
  - (* first checksum byte of an ACK or NAK *)
    destruct (c =? u8 (Z.shiftr (rxChecksum st) 8)) eqn:E.
    + rewrite Hi, store_Ok by (unfold SERIAL_RX_BUFFER_SIZE; lia).
      cbn [rbind]. eexists _, _. split; [reflexivity|]. gent_fields.
      split; [rewrite length_wr; assumption|].
      split; [|left; reflexivity].
      apply GentAckLo; reflexivity.
    + eexists _, _. split; [reflexivity|]. gent_fields.
      split; [assumption|]. split; [|left; reflexivity].
      apply GentWaitMsb; reflexivity.
  - (* first checksum byte of an event frame *)
    destruct (c =? u8 (Z.shiftr (rxChecksum st) 8)) eqn:E.
    + apply Z.eqb_eq in E.
      rewrite checksum_hi_byte in E
        by (rewrite Hsum; apply checksum16_range).
      rewrite Hi, store_Ok by (unfold SERIAL_RX_BUFFER_SIZE; lia).
      cbn [rbind]. eexists _, _. split; [reflexivity|]. gent_fields.
      split; [rewrite length_wr; assumption|].
      split; [|left; reflexivity].
      apply GentChecksumLo; gent_fields; try reflexivity.
      * rewrite take_wr_ge by (simpl; lia). assumption.
      * rewrite rd_wr_same by (simpl; lia). assumption.
      * apply event_pair_held_wr; [lia | assumption].
    + eexists _, _. split; [reflexivity|]. gent_fields.
      split; [assumption|]. split; [|left; reflexivity].
      apply GentWaitMsb; reflexivity.
  - (* second checksum byte of an ACK or NAK *)
    destruct (c =? u8 (Z.land (rxChecksum st) 255)) eqn:E.
    + rewrite Hi, store_Ok by (unfold SERIAL_RX_BUFFER_SIZE; lia).
      cbn [rbind]. change (u8 (3 + 1) =? 59) with false. cbv iota.
      eexists _, _. split; [reflexivity|]. gent_fields.
      split; [rewrite length_wr; assumption|].
      split; [|left; reflexivity].
      apply GentWaitMsb; reflexivity.
    + eexists _, _. split; [reflexivity|]. gent_fields.
      split; [assumption|]. split; [|left; reflexivity].
      apply GentWaitMsb; reflexivity.
  - (* second checksum byte of an event frame *)
    destruct (c =? u8 (Z.land (rxChecksum st) 255)) eqn:E.
    + apply Z.eqb_eq in E.
      rewrite checksum_lo_byte in E
        by (rewrite Hsum; apply checksum16_range).
      rewrite Hi, store_Ok by (unfold SERIAL_RX_BUFFER_SIZE; lia).
      cbn [rbind]. change (u8 (58 + 1)) with 59.
      change (59 =? 59) with true. cbv iota.
      unfold serialProcessGent.
      set (g1 := set_serialRxLength 59
                   (set_serialRxBuffer (wr (serialRxBuffer g) 58 c) g)).
      destruct (serialTxEventToNimbus_fits g1) as [g2 Hg2];
        [subst g1; gent_fields; unfold EVENT_DATA_SIZE; lia|].
      rewrite Hg2. cbn [rbind].
      destruct (serialTxEventToNimbus_published g1 g2 Hg2) as (m & Hm & Hf).
      { subst g1; gent_fields; lia. }
      { subst g1; gent_fields. rewrite length_wr, Hlen. simpl. lia. }
      apply serialTxEventToNimbus_fields in Hg2.
      destruct Hg2 as (_ & _ & _ & _ & _ & _ & _ & _ & _ & _ & Hb & _).
      eexists _, _. split; [reflexivity|]. gent_fields.
      split; [rewrite Hb; subst g1; gent_fields; rewrite length_wr;
              assumption|].
      split; [apply GentWaitMsb; reflexivity|].
      right. exists m. split; [exact Hm|].
      unfold frame_of. rewrite Hf. subst g1. gent_fields.
      change (Z.to_nat 59) with 59%nat.
      set (buf' := wr (serialRxBuffer g) 58 c).
      assert (Hlen' : length buf' = 512%nat)
        by (subst buf'; rewrite length_wr; assumption).
      assert (Ht : take 57 (take 59 buf') = take 57 (serialRxBuffer g)).
      { rewrite take_take. change (57 `min` 59)%nat with 57%nat.
        subst buf'. apply take_wr_ge; simpl; lia. }
      destruct Hp as (Hp1 & Hp2 & Hp3).
      unfold gent_event_frame.
      rewrite Ht, <- Hsum, !rd_take by (simpl; lia).
      subst buf'. rewrite !rd_wr_other by lia.
      rewrite rd_wr_same by (simpl; lia).
      repeat split; try assumption.
      rewrite length_take, length_wr, Hlen. reflexivity.
    + eexists _, _. split; [reflexivity|]. gent_fields.
      split; [assumption|]. split; [|left; reflexivity].
      apply GentWaitMsb; reflexivity.
Qed.

Lemma all_u8_Forall l : all_u8 l = true -> Forall is_u8 l.
Proof.
  unfold all_u8. rewrite forallb_forall, Forall_forall.
  intros H x Hx. apply list_elem_of_In in Hx. apply H in Hx.
  apply andb_true_iff in Hx as [H1 H2].
  apply Z.leb_le in H1. apply Z.ltb_lt in H2. split; assumption.
Qed.

Lemma gent_feed bytes : forall st g,
  length (serialRxBuffer g) = 512%nat ->
  gent_inv st g -> Forall is_u8 bytes ->
  exists st' g' new,
    feed serialRxGent st g bytes = Ok (st', g') /\
    length (serialRxBuffer g') = 512%nat /\
    gent_inv st' g' /\
    published g' = published g ++ new /\
    Forall (fun m => gent_event_frame (frame_of m)) new.
Proof.
  induction bytes as [|c rest IH]; intros st g Hlen Hinv Hall.
  - exists st, g, []. cbn [feed]. rewrite app_nil_r.
    repeat split; try assumption. constructor.
  - apply Forall_cons in Hall as [Hc Hrest].
    destruct (gent_step st g c Hlen Hinv Hc) as (st1 & g1 & H1 & L1 & I1 & P1).
    destruct (IH st1 g1 L1 I1 Hrest) as (st2 & g2 & new & H2 & L2 & I2 & P2 & F2).
    cbn [feed]. rewrite H1. cbn [rbind fst snd].
    destruct P1 as [P1 | (m & P1 & Fm)].
    + exists st2, g2, new. rewrite <- P1. repeat split; assumption.
    + exists st2, g2, (m :: new). repeat split; try assumption.
      * rewrite P2, P1, <- app_assoc. reflexivity.
      * constructor; assumption.
Qed.

(** C7. Started in its first state, the Gent parser takes every byte
    stream without a fault, and every frame it hands to the encoder is a
    full 59-byte event frame: a known event pair other than ACK and NAK and
    both checksum bytes equal to the 16-bit sum of the 57 bytes before
    them.  The ACK frame 00 06 00 06 goes through the event-pair check
    (state 3 after two bytes), the high checksum byte (state 4 after
    three) and the low one (fourth byte stored, back to state 0) and
    nothing is published. *)
Theorem C7_gent_forwards_only_verified_event_frames
  (st : gent_static) (g : globals) (bytes : list Z) :
  serialRxState g = 0 ->
  length (serialRxBuffer g) = 512%nat ->
  Forall is_u8 bytes ->
  (exists st' g' new,
     feed serialRxGent st g bytes = Ok (st', g') /\
     published g' = published g ++ new /\
     Forall (fun m => gent_event_frame (frame_of m)) new) /\
  gent_run (take 2 gentAckResponse) = Some (3, 2, []) /\
  gent_run (take 3 gentAckResponse) = Some (4, 3, []) /\
  gent_run gentAckResponse = Some (0, 4, []).
Proof.
  intros Hs Hlen Hall. split.
  - destruct (gent_feed bytes st g Hlen (GentWaitMsb st g Hs) Hall)
      as (st' & g' & new & H & _ & _ & P & F).
    exists st', g', new. auto.
  - repeat split; vm_compute; reflexivity.
Qed.

Lemma C7_gent_forwards_only_verified_event_frames_witness :
  exists st' g' new,
    feed serialRxGent gent_static_init (power_on gent_cfg 0) gent_fire_frame
      = Ok (st', g') /\
    published g' = published (power_on gent_cfg 0) ++ new /\
    Forall (fun m => gent_event_frame (frame_of m)) new.
Proof.
  apply (C7_gent_forwards_only_verified_event_frames
           gent_static_init (power_on gent_cfg 0) gent_fire_frame).
  - reflexivity.
  - reflexivity.
  - apply all_u8_Forall. vm_compute. reflexivity.
Defined.

(** The fire frame above is forwarded, and forwarded as it came in. *)
Lemma gent_fire_frame_forwarded :
  match gent_run gent_fire_frame with
  | Some (0, 59, [m]) => frame_of m = gent_fire_frame
  | _ => False
  end.
Proof. vm_compute. reflexivity. Qed.

(** ** The registry *)

Lemma protocol_id_cases (i : Z) :
  0 <= i < PROTOCOL_COUNT ->
  i = 0 \/ i = 1 \/ i = 2 \/ i = 3 \/ i = 4 \/ i = 5 \/ i = 6 \/ i = 7 \/
  i = 8 \/ i = 9 \/ i = 10.
Proof. unfold PROTOCOL_COUNT. lia. Qed.

Ltac each_protocol H :=
  apply protocol_id_cases in H;
  repeat (destruct H as [H | H]); subst.

(** One switch, as a trace: the stop call of the active protocol, if it
    has one, comes first, the start call of the requested one after it. *)
Lemma setProtocolType_calls (s : interface) (X : Z) :
  0 <= currentId s < PROTOCOL_COUNT -> 0 <= X < PROTOCOL_COUNT ->
  exists s1,
    setProtocolType X s = Ok s1 /\
    currentId s1 = X /\
    calls s1 = calls s ++ stop_call (currentId s) ++ start_call X.
Proof.
  destruct s as [h p u c l]. cbn [currentId calls]. intros Hc HX.
  each_protocol Hc; each_protocol HX;
    (eexists; split; [reflexivity|]; split; [reflexivity|];
     cbn; rewrite <- ?app_assoc, ?app_nil_r; reflexivity).
Qed.

Lemma setProtocolType_again (s s1 : interface) (X : Z) :
  0 <= currentId s < PROTOCOL_COUNT -> 0 <= X < PROTOCOL_COUNT ->
  setProtocolType X s = Ok s1 ->
  exists s2, setProtocolType X s1 = Ok s2 /\ observable s2 = observable s1.
Proof.
  destruct s as [h p u c l]. cbn [currentId]. intros Hc HX.
  each_protocol Hc; each_protocol HX;
    (intros [= <-]; eexists; split; reflexivity).
Qed.

Lemma stops_app (l1 l2 : list call) :
  length (List.filter is_stop (l1 ++ l2))
  = (length (List.filter is_stop l1) + length (List.filter is_stop l2))%nat.
Proof. rewrite List.filter_app, length_app. reflexivity. Qed.

Lemma starts_app (l1 l2 : list call) :
  length (List.filter is_start (l1 ++ l2))
  = (length (List.filter is_start l1)
     + length (List.filter is_start l2))%nat.
Proof. rewrite List.filter_app, length_app. reflexivity. Qed.

Lemma stop_call_counts i :
  length (List.filter is_stop (stop_call i)) = length (stop_call i) /\
  length (List.filter is_start (stop_call i)) = 0%nat.
Proof.
  unfold stop_call. destruct (table_entry i) as [e|]; [|split; reflexivity].
  destruct (protocolStopHandler e); split; reflexivity.
Qed.

Lemma start_call_counts i :
  length (List.filter is_start (start_call i)) = length (start_call i) /\
  length (List.filter is_stop (start_call i)) = 0%nat.
Proof.
  unfold start_call. destruct (table_entry i) as [e|]; [|split; reflexivity].
  destruct (protocolStartHandler e); split; reflexivity.
Qed.

(** C8, as the code has it.  Calling [setProtocolType (X)] twice in a row
    leaves the installed byte handler, the active id, the isolated supply
    and the UART as one call leaves them, and the active id is X.  Each
    call invokes the stop handler of the protocol active at that moment if
    one is registered, then the start handler of X if one is registered:
    over the two calls the stop handlers run once for the protocol that
    was active and once for X, each only if registered, and the start
    handler of X runs twice if registered and not at all otherwise. *)
Theorem C8_switching_twice (s : interface) (X : Z) :
  0 <= currentId s < PROTOCOL_COUNT -> 0 <= X < PROTOCOL_COUNT ->
  exists s1 s2,
    setProtocolType X s = Ok s1 /\
    switch_twice X s = Ok s2 /\
    observable s2 = observable s1 /\
    currentId s2 = X /\
    calls s1 = calls s ++ stop_call (currentId s) ++ start_call X /\
    calls s2 = calls s1 ++ stop_call X ++ start_call X /\
    stops s2 = (stops s + length (stop_call (currentId s))
                + length (stop_call X))%nat /\
    starts s2 = (starts s + 2 * length (start_call X))%nat.
Proof.
  intros Hc HX.
  destruct (setProtocolType_calls s X Hc HX) as (s1 & H1 & Id1 & C1).
  destruct (setProtocolType_again s s1 X Hc HX H1) as (s2 & H2 & O2).
  assert (Hc1 : 0 <= currentId s1 < PROTOCOL_COUNT) by (rewrite Id1; exact HX).
  destruct (setProtocolType_calls s1 X Hc1 HX) as (s2' & H2' & Id2 & C2).
  rewrite H2 in H2'. injection H2' as <-.
  exists s1, s2. unfold switch_twice. rewrite H1. cbn [rbind].
  rewrite Id1 in C2.
  repeat split; try assumption.
  - unfold stops. rewrite C2, C1, !stops_app.
    destruct (stop_call_counts (currentId s)) as [-> _].
    destruct (stop_call_counts X) as [-> _].
    destruct (start_call_counts X) as [_ ->]. lia.
  - unfold starts. rewrite C2, C1, !starts_app.
    destruct (stop_call_counts (currentId s)) as [_ ->].
    destruct (stop_call_counts X) as [_ ->].
    destruct (start_call_counts X) as [-> _]. lia.
Qed.

Lemma C8_switching_twice_witness :
  exists s1 s2,
    setProtocolType PROTOCOL_ADVANCED boot = Ok s1 /\
    switch_twice PROTOCOL_ADVANCED boot = Ok s2 /\
    observable s2 = observable s1 /\
    currentId s2 = PROTOCOL_ADVANCED /\
    calls s2 = [Started serialStartAdvanced; Stopped serialStopAdvanced;
                Started serialStartAdvanced].
Proof.
  destruct (C8_switching_twice boot PROTOCOL_ADVANCED)
    as (s1 & s2 & H1 & H2 & HO & HI & HC1 & HC2 & _).
  - vm_compute. split; [discriminate | reflexivity].
  - vm_compute. split; [discriminate | reflexivity].
  - exists s1, s2. repeat split; try assumption.
    rewrite HC2, HC1. reflexivity.
Defined.

(** C8 as stated fails: on a freshly booted device no protocol is active,
    so two calls for the Gent protocol run a stop handler once, not twice;
    and two calls for id 0 run no start handler at all. *)
Lemma C8_handler_count_counterexample :
  match switch_twice PROTOCOL_GENT boot with
  | Ok s2 => stops s2 = 1%nat /\ starts s2 = 2%nat /\ currentId s2 = 1
  | Fault _ => False
  end /\
  match switch_twice PROTOCOL_NONE_CONFIGURED boot with
  | Ok s2 => stops s2 = 0%nat /\ starts s2 = 0%nat /\ currentId s2 = 0
  | Fault _ => False
  end.
Proof. vm_compute. repeat split; reflexivity. Qed.

(** ** The Advanced BMS parser *)

Lemma append_Ok v g :
  0 <= serialRxLength g < SERIAL_RX_BUFFER_SIZE ->
  append v g
  = Ok (set_serialRxLength (u16 (serialRxLength g + 1))
          (set_serialRxBuffer (wr (serialRxBuffer g) (serialRxLength g) v)
             g)).
Proof. intros H. unfold append. rewrite store_Ok by assumption. reflexivity. Qed.

Lemma append_overrun v g :
  SERIAL_RX_BUFFER_SIZE <= serialRxLength g ->
  append v g = Fault BufferOverrun.
Proof.
  intros H. unfold append, store.
  replace (serialRxLength g <? SERIAL_RX_BUFFER_SIZE) with false
    by (symmetry; apply Z.ltb_ge; assumption).
  rewrite andb_false_r. reflexivity.
Qed.

(** *** Byte stuffing *)

Lemma addClashCodes_loop_body body : forall rest out len,
  addClashCodes_loop (length body) (body ++ rest) out len
  = Ok (rest, out ++ flat_map stuff body, stuffed_len body len).
Proof.
  induction body as [|b body IH]; intros rest out len.
  - simpl. rewrite app_nil_r. reflexivity.
  - cbn [length app addClashCodes_loop flat_map]. unfold stuffed_len.
    cbn [fold_left]. fold (stuffed_len body).
    unfold stuff at 1. destruct (CLASH_CODE <=? b).
    + rewrite IH, <- app_assoc. reflexivity.
    + rewrite IH, <- app_assoc. reflexivity.
Qed.

(** The packet goes out with its first and last byte untouched and every
    body byte replaced by its substitution. *)
Lemma advancedAddClashCodes_packet som body eom :
  Z.of_nat (length body) + 2 < 65536 ->
  advancedAddClashCodes (som :: body ++ [eom])
                        (Z.of_nat (length body) + 2)
  = Ok (som :: flat_map stuff body ++ [eom],
        stuffed_len body (Z.of_nat (length body) + 2)).
Proof.
  intros H. unfold advancedAddClashCodes.
  replace (Z.to_nat (u16 (Z.of_nat (length body) + 2 - 2)))
    with (length body).
  2:{ rewrite u16_small by lia. lia. }
  rewrite addClashCodes_loop_body. cbn [rbind fst snd]. reflexivity.
Qed.

Ltac adv_fields :=
  cbn [serialRxState serialRxBuffer serialRxLength published
       totalDiscardedBytes particleEepromData
       set_serialRxBuffer set_serialRxState set_serialRxLength
       set_totalDiscardedBytes fst snd].

Lemma adv_escape_pair (fuel : nat) (st : adv_static) (g : globals) (v : Z) :
  0 <= v <= 5 ->
  serialRxState g = 1 ->
  0 <= serialRxLength g < SERIAL_RX_BUFFER_SIZE ->
  exists g',
    feed (serialRxAdvanced fuel) st g [250; v] = Ok (st, g') /\
    serialRxState g' = 1 /\
    serialRxLength g' = serialRxLength g + 1 /\
    serialRxBuffer g'
      = wr (serialRxBuffer g) (serialRxLength g) (v + 250) /\
    published g' = published g.
Proof.
  intros Hv Hs HL. cbn [feed].
  unfold serialRxAdvanced at 1. rewrite Hs. cbv beta iota.
  change (250 =? 255) with false. change (250 =? 250) with true.
  cbv iota. cbn [rbind fst snd].
  unfold serialRxAdvanced. adv_fields. cbv beta iota.
  replace (5 <? v) with false by (symmetry; apply Z.ltb_ge; lia).
  rewrite append_Ok by (adv_fields; assumption).
  adv_fields. cbn [rbind fst snd].
  eexists. split; [reflexivity|]. adv_fields.
  unfold SERIAL_RX_BUFFER_SIZE in HL.
  rewrite (u16_small (serialRxLength g + 1)) by lia.
  rewrite (u8_small (v + 250)) by lia.
  repeat split; reflexivity.
Qed.

(** C9. For a byte b in 0xFA..0xFF the outbound substitution is the pair
    FA, b - FA, a packet with b in its body goes out with that pair in its
    place, and the parser, given the pair while it collects a packet, puts
    exactly b at the next place of the receive buffer and goes on
    collecting. *)
Theorem C9_clash_code_round_trip
  (b som eom : Z) (fuel : nat) (st : adv_static) (g : globals) :
  250 <= b <= 255 ->
  serialRxState g = 1 ->
  0 <= serialRxLength g < SERIAL_RX_BUFFER_SIZE ->
  length (serialRxBuffer g) = 512%nat ->
  stuff b = [250; b - 250] /\
  advancedAddClashCodes [som; b; eom] 3 = Ok ([som; 250; b - 250; eom], 4) /\
  exists g',
    feed (serialRxAdvanced fuel) st g (stuff b) = Ok (st, g') /\
    serialRxState g' = 1 /\
    serialRxLength g' = serialRxLength g + 1 /\
    serialRxBuffer g' = wr (serialRxBuffer g) (serialRxLength g) b /\
    rd (serialRxBuffer g') (serialRxLength g) = b /\
    published g' = published g.
Proof.
  intros Hb Hs HL Hlen.
  assert (Hstuff : stuff b = [250; b - 250]).
  { unfold stuff, CLASH_CODE.
    replace (250 <=? b) with true by (symmetry; apply Z.leb_le; lia).
    reflexivity. }
  split; [exact Hstuff|]. split.
  - change [som; b; eom] with (som :: [b] ++ [eom]).
    change 3 with (Z.of_nat (length [b]) + 2).
    rewrite advancedAddClashCodes_packet by (simpl; lia).
    cbn [flat_map app]. rewrite Hstuff. unfold stuffed_len. cbn [fold_left].
    unfold CLASH_CODE.
    replace (250 <=? b) with true by (symmetry; apply Z.leb_le; lia).
    reflexivity.
  - rewrite Hstuff.
    destruct (adv_escape_pair fuel st g (b - 250))
      as (g' & H & S' & L' & B' & P'); [lia | assumption | assumption |].
    replace (b - 250 + 250) with b in B' by lia.
    exists g'. repeat split; try assumption.
    rewrite B'. unfold SERIAL_RX_BUFFER_SIZE in HL. apply rd_wr_same; lia.
Qed.

Lemma C9_clash_code_round_trip_witness :
  stuff 255 = [250; 5] /\
  advancedAddClashCodes [254; 255; 255] 3 = Ok ([254; 250; 5; 255], 4) /\
  adv_run advanced_cfg 0 (254 :: stuff 255) = Ok (1, 2, []).
Proof.
  destruct (C9_clash_code_round_trip 255 254 255 0 adv_static_init
              (set_serialRxLength 1 (set_serialRxState 1
                 (power_on advanced_cfg 0))))
    as (H1 & H2 & _).
  - lia.
  - reflexivity.
  - vm_compute. split; [discriminate | reflexivity].
  - reflexivity.
  - split; [exact H1|]. split; [exact H2|]. vm_compute. reflexivity.
Defined.

(** *** The length bound *)

Lemma feed_app {S : Type} (rx : S -> globals -> Z -> result (S * globals))
  (l1 l2 : list Z) : forall st g,
  feed rx st g (l1 ++ l2)
  = (do r <- feed rx st g l1; feed rx (fst r) (snd r) l2).
Proof.
  induction l1 as [|c l1 IH]; intros st g; [reflexivity|].
  cbn [app feed]. destruct (rx st g c) as [[st1 g1]|f]; [|reflexivity].
  cbn [rbind fst snd]. apply IH.
Qed.

(** The escape path never looks at the length: every pair FA 00 puts one
    more byte into the packet, as long as the buffer lasts. *)
Lemma adv_escape_pairs (fuel : nat) (st : adv_static) (n : nat) :
  forall g,
    serialRxState g = 1 ->
    0 <= serialRxLength g ->
    serialRxLength g + Z.of_nat n <= SERIAL_RX_BUFFER_SIZE ->
    exists g',
      feed (serialRxAdvanced fuel) st g (concat (repeat [250; 0] n))
        = Ok (st, g') /\
      serialRxState g' = 1 /\
      serialRxLength g' = serialRxLength g + Z.of_nat n /\
      published g' = published g.
Proof.
  induction n as [|n IH]; intros g Hs H0 HL.
  - exists g. cbn [repeat concat feed]. repeat split; try assumption. lia.
  - cbn [repeat concat]. rewrite feed_app.
    destruct (adv_escape_pair fuel st g 0) as (g1 & H1 & S1 & L1 & _ & P1);
      [lia | assumption | lia |].
    rewrite H1. cbn [rbind fst snd].
    destruct (IH g1) as (g2 & H2 & S2 & L2 & P2); [assumption | lia | lia |].
    exists g2. split; [exact H2|]. split; [exact S2|].
    split; [lia | congruence].
Qed.

(** C1 fails on the code.  The check against ADVANCED_MAX_LENGTH sits on
    the branch for ordinary bytes only: after the start byte, 108 escape
    pairs FA 00 leave a packet of 109 bytes in progress, 511 pairs fill the
    512-byte buffer, and the 512th pair stores past its end; the end byte
    after 108 collected bytes is appended as the 109th as well. *)
Theorem C1_escape_path_passes_the_bound :
  adv_run advanced_cfg 0 (escaped_stream 108) = Ok (1, 109, []) /\
  adv_run advanced_cfg 0 (escaped_stream 511) = Ok (1, 512, []) /\
  adv_run advanced_cfg 0 (escaped_stream 512) = Fault BufferOverrun /\
  adv_run advanced_cfg 0 full_length_stream = Ok (0, 109, []).
Proof. repeat split; vm_compute; reflexivity. Qed.

(** *** Validation *)

Lemma matchIdCode_codes c tbl tbl' :
  matchIdCode c tbl = Some tbl' -> codes tbl' = codes tbl.
Proof.
  revert tbl'. induction tbl as [|e rest IH]; intros tbl'; [discriminate|].
  cbn [matchIdCode]. destruct (c =? code e).
  - intros [= <-]. reflexivity.
  - destruct (matchIdCode c rest) as [rest'|]; [|discriminate].
    intros [= <-]. unfold codes in *. cbn [map]. f_equal. apply IH.
    reflexivity.
Qed.

Lemma matchIdCode_known c tbl :
  In c (codes tbl) -> exists tbl', matchIdCode c tbl = Some tbl'.
Proof.
  induction tbl as [|e rest IH]; [intros []|].
  cbn [codes map matchIdCode]. intros [He | Hin].
  - rewrite He, Z.eqb_refl. eauto.
  - destruct (c =? code e); [eauto|].
    destruct (IH Hin) as [rest' ->]. eauto.
Qed.

Lemma matchIdCode_unknown c tbl :
  ~ In c (codes tbl) -> matchIdCode c tbl = None.
Proof.
  induction tbl as [|e rest IH]; [reflexivity|].
  cbn [codes map matchIdCode]. intros Hn.
  destruct (c =? code e) eqn:E.
  - apply Z.eqb_eq in E. exfalso. apply Hn. left. congruence.
  - rewrite IH; [reflexivity|]. intros Hin. apply Hn. right. exact Hin.
Qed.

(** A message of length zero sends the scan back to its own identifier
    code: the loop of [checkPacketFormat] never ends. *)
Lemma scanMessages_stalls buf maxOffset c :
  In c (codes idCodeTable_init) ->
  rd buf 5 = c -> rd buf 6 = 0 -> 5 <= maxOffset ->
  forall fuel tbl,
    codes tbl = codes idCodeTable_init ->
    scanMessages fuel buf maxOffset c 6 tbl = Fault OutOfFuel.
Proof.
  intros Hc H5 H6 Hmax. induction fuel as [|fuel IH]; intros tbl Htbl.
  - reflexivity.
  - cbn [scanMessages].
    destruct (matchIdCode_known c tbl) as [tbl' Hm];
      [rewrite Htbl; exact Hc|].
    rewrite Hm, H6. change (u8 (6 + (0 - 1))) with 5.
    replace (maxOffset <? 5) with false by (symmetry; apply Z.ltb_ge; lia).
    rewrite H5. change (u8 (5 + 1)) with 6.
    replace (c =? 240) with false.
    + apply IH. rewrite (matchIdCode_codes _ _ _ Hm). exact Htbl.
    + symmetry. apply Z.eqb_neq. intros ->.
      cbn in Hc. lia.
Qed.

Lemma codes_reset tbl : codes (map (set_count 0) tbl) = codes tbl.
Proof.
  unfold codes. rewrite map_map. apply map_ext. intros e. reflexivity.
Qed.

Lemma validateAdvancedBmsPacket_stalls g st c :
  ADVANCED_MIN_LENGTH <= serialRxLength g ->
  validateCRC (serialRxBuffer g) (serialRxLength g) = true ->
  rd (serialRxBuffer g) 1 = 128 ->
  In c (codes idCodeTable_init) ->
  rd (serialRxBuffer g) 5 = c -> rd (serialRxBuffer g) 6 = 0 ->
  5 <= u8 (serialRxLength g - 4) ->
  codes (idCodeTable st) = codes idCodeTable_init ->
  forall fuel, validateAdvancedBmsPacket fuel g st = Fault OutOfFuel.
Proof.
  intros Hlen Hcrc Hid Hc H5 H6 Hmax Htbl fuel.
  unfold validateAdvancedBmsPacket.
  replace (serialRxLength g <? ADVANCED_MIN_LENGTH) with false
    by (symmetry; apply Z.ltb_ge; assumption).
  rewrite Hcrc, Hid. cbn [negb Z.eqb Pos.eqb].
  unfold checkPacketFormat. rewrite H5. change (u8 (5 + 1)) with 6.
  rewrite (scanMessages_stalls _ _ c); try assumption; [reflexivity|].
  rewrite codes_reset. exact Htbl.
Qed.

(** The tables and the update routine reproduce the CRC the source gives
    for its own poll packet. *)
Lemma requestNodeStatus_crc :
  validateCRC requestNodeStatus 12 = true /\
  packet_crc requestNodeStatus 12 = (140, 103).
Proof. split; vm_compute; reflexivity. Qed.

(** C5 fails on the code.  The packet FE 80 00 00 F0 0A FF 00 00 3B 96 FF
    has the right length, CRC and identity byte, but the length byte FF of
    its first message leads to offset 260, past the bound 8: it is not a
    valid packet.  [checkPacketFormat] keeps the offset in eight bits,
    reads the next code at offset 4, finds F0 there and accepts the packet;
    arriving on the wire, it is published as holding a Device Status
    message.  A message of length zero is not rejected either: the scan
    does not end, whatever the fuel. *)
Theorem C5_offset_wraps_past_the_bound :
  let g := completed (received (removelast wrapping_stream)) in
  take 12 (serialRxBuffer g) = wrapping_packet /\
  serialRxLength g = 12 /\
  ~ valid_packet (serialRxBuffer g) (serialRxLength g) /\
  (exists st',
     validateAdvancedBmsPacket 1 g adv_static_init = Ok (true, st') /\
     deviceStatusCount st' = 1) /\
  (exists m,
     adv_run advanced_cfg 1 wrapping_stream = Ok (0, 12, [m]) /\
     frame_of m = wrapping_packet) /\
  (forall fuel,
     adv_run advanced_cfg fuel stalling_stream = Fault OutOfFuel).
Proof.
  cbv zeta. split; [vm_compute; reflexivity|].
  split; [vm_compute; reflexivity|]. split; [|split; [|split]].
  - intros (_ & _ & _ & Hchain).
    inversion Hchain;
      match goal with
      | Hb : _ + _ <= _ |- _ => vm_compute in Hb; apply Hb; reflexivity
      end.
  - eexists. split; vm_compute; reflexivity.
  - eexists. split; vm_compute; reflexivity.
  - intros fuel. unfold adv_run.
    change stalling_stream
      with (removelast stalling_stream ++ [255]).
    rewrite feed_app.
    replace (feed (serialRxAdvanced fuel) adv_static_init
               (power_on advanced_cfg 0) (removelast stalling_stream))
      with (Ok (adv_static_init, received (removelast stalling_stream)))
      by (vm_compute; reflexivity).
    cbn [rbind fst snd feed]. unfold serialRxAdvanced.
    replace (serialRxState (received (removelast stalling_stream))) with 1
      by (vm_compute; reflexivity).
    cbv beta iota. change (255 =? 255) with true. cbv iota.
    rewrite append_Ok by (vm_compute; split; [discriminate | reflexivity]).
    cbn [rbind].
    rewrite (validateAdvancedBmsPacket_stalls _ _ 10); try reflexivity.
    + vm_compute. auto.
    + vm_compute. discriminate.
Qed.

(** *** Forwarding *)

Lemma serialTxEventToNimbus_publishes_one g g' :
  serialTxEventToNimbus g = Ok g' ->
  exists m, published g' = published g ++ [m].
Proof.
  unfold serialTxEventToNimbus.
  destruct (EVENT_DATA_SIZE <? serialRxLength g); [discriminate|].
  intros [= <-]. cbn [published]. eexists. reflexivity.
Qed.

Lemma validateAdvancedBmsPacket_short fuel g st :
  serialRxLength g < ADVANCED_MIN_LENGTH ->
  validateAdvancedBmsPacket fuel g st
  = Ok (false, {| errorStr := error_too_short;
                  idCodeTable := idCodeTable st |}).
Proof.
  intros H. unfold validateAdvancedBmsPacket.
  replace (serialRxLength g <? ADVANCED_MIN_LENGTH) with true
    by (symmetry; apply Z.ltb_lt; assumption).
  reflexivity.
Qed.

(** The four cases of the policy on the wire: a Device Status packet is
    published by a quiet device, a Node Status packet only by a verbose
    one, and so is a frame of ten bytes. *)
Lemma adv_forwarding_examples :
  (exists m, adv_run advanced_cfg 1 device_status_stream = Ok (0, 12, [m])) /\
  adv_run advanced_cfg 1 node_status_stream = Ok (0, 12, []) /\
  (exists m, adv_run verbose_cfg 1 node_status_stream = Ok (0, 12, [m])) /\
  adv_run advanced_cfg 0 short_stream = Ok (0, 10, []) /\
  (exists m, adv_run verbose_cfg 0 short_stream = Ok (0, 10, [m])).
Proof.
  repeat split; try (eexists; vm_compute; reflexivity);
    vm_compute; reflexivity.
Qed.

(** ** The Advanced ASCII parser *)

Ltac ascii_fields :=
  cbn [serialRxState serialRxBuffer serialRxLength published
       set_serialRxBuffer set_serialRxState set_serialRxLength
       lineCount lineCharCount previousChar fst snd].

(** Characters of a first line, up to 42 of them, are collected in place. *)
Lemma ascii_idle_collect (line : list Z) : forall st g,
  serialRxState g = 0 ->
  0 <= serialRxLength g ->
  lineCharCount st = serialRxLength g ->
  serialRxLength g + Z.of_nat (length line) <= ADVANCED_ASCII_LINE_LENGTH ->
  length (serialRxBuffer g) = 512%nat ->
  Forall (fun c => c <> LF) line ->
  exists st' g',
    feed serialRxAdvancedAscii st g line = Ok (st', g') /\
    serialRxState g' = 0 /\
    serialRxLength g' = serialRxLength g + Z.of_nat (length line) /\
    lineCharCount st' = serialRxLength g' /\
    (line <> [] -> previousChar st' = List.last line 0) /\
    (line = [] -> st' = st) /\
    length (serialRxBuffer g') = 512%nat /\
    take (Z.to_nat (serialRxLength g')) (serialRxBuffer g')
      = take (Z.to_nat (serialRxLength g)) (serialRxBuffer g) ++ line /\
    published g' = published g.
Proof.
  induction line as [|c rest IH]; intros st g Hs H0 Hlcc HL Hlen Hall.
  - exists st, g. cbn [feed length]. rewrite app_nil_r, Z.add_0_r.
    repeat split; auto. intros []. reflexivity.
  - apply Forall_cons in Hall as [Hc Hrest].
    unfold ADVANCED_ASCII_LINE_LENGTH in *. cbn [length] in HL.
    cbn [feed]. unfold serialRxAdvancedAscii at 1. rewrite Hs.
    cbv beta iota.
    rewrite append_Ok by (unfold SERIAL_RX_BUFFER_SIZE; lia).
    cbn [rbind]. unfold LF in Hc.
    replace (c =? 10) with false by (symmetry; apply Z.eqb_neq; exact Hc).
    rewrite Hlcc, (u8_small (serialRxLength g + 1)) by lia.
    replace (ADVANCED_ASCII_LINE_LENGTH <? serialRxLength g + 1) with false
      by (symmetry; apply Z.ltb_ge; unfold ADVANCED_ASCII_LINE_LENGTH; lia).
    cbn [rbind fst snd].
    rewrite (u16_small (serialRxLength g + 1)) by lia.
    match goal with
    | |- context [feed _ ?st1 ?g1 rest] =>
        destruct (IH st1 g1) as (st' & g' & H & S' & L' & C' & P' & E' & B' & T' & Pub')
    end; ascii_fields; try assumption; try reflexivity; try lia.
    { rewrite length_wr. assumption. }
    revert L' T' Pub' C' P' E'. ascii_fields. intros L' T' Pub' C' P' E'.
    exists st', g'. split; [exact H|]. split; [exact S'|].
    split; [cbn [length]; lia|]. split; [exact C'|].
    split; [|split; [discriminate|]]; [|split; [exact B'|]].
    + intros _. destruct rest as [|d rest'].
      * rewrite E' by reflexivity. reflexivity.
      * rewrite P' by discriminate. reflexivity.
    + split; [|exact Pub'].
      rewrite T', take_wr_next by lia.
      rewrite <- app_assoc. reflexivity.
Qed.

(** A first line that is not blank, then the blank line: the whole input,
    blank line included, is handed to the encoder. *)
Lemma ascii_single_line (line : list Z) (st : ascii_static) (g : globals) :
  serialRxState g = 0 ->
  serialRxLength g = 0 ->
  lineCharCount st = 0 ->
  length (serialRxBuffer g) = 512%nat ->
  line <> [] ->
  (length line <= 40)%nat ->
  Forall (fun c => c <> LF) line ->
  exists st' g' m,
    feed serialRxAdvancedAscii st g (line ++ [CR; LF; CR; LF])
      = Ok (st', g') /\
    published g' = published g ++ [m] /\
    frame_of m = line ++ [CR; LF; CR; LF] /\
    serialRxState g' = 0 /\
    serialRxLength g' = 0.
Proof.
  intros Hs HL Hlcc Hlen Hne Hn Hall.
  assert (Hn1 : (1 <= length line)%nat)
    by (destruct line; [congruence | simpl; lia]).
  change (line ++ [CR; LF; CR; LF]) with (line ++ [CR] ++ [LF; CR; LF]).
  rewrite app_assoc, feed_app.
  destruct (ascii_idle_collect (line ++ [CR]) st g)
    as (st1 & g1 & H1 & S1 & L1 & C1 & P1 & _ & B1 & T1 & Pub1);
    try assumption; try lia.
  { rewrite HL, length_app. unfold ADVANCED_ASCII_LINE_LENGTH.
    simpl. lia. }
  { apply Forall_app. split; [assumption|].
    constructor; [discriminate | constructor]. }
  rewrite H1. cbn [rbind fst snd].
  rewrite HL, length_app in L1. cbn [length] in L1.
  rewrite HL in T1. cbn [Z.to_nat take app] in T1.
  rewrite last_last in P1.
  specialize (P1 ltac:(intros E; apply app_eq_nil in E as [_ E];
                       discriminate)).
  set (n := Z.of_nat (length line)) in *.
  assert (Hn' : 1 <= n <= 40) by lia.
  replace (0 + Z.of_nat (length line + 1)) with (n + 1) in L1 by lia.
  unfold LF, CR. cbn [feed].
  (* the line feed that ends the first line *)
  unfold serialRxAdvancedAscii at 1. rewrite S1. cbv beta iota.
  rewrite append_Ok by (unfold SERIAL_RX_BUFFER_SIZE; lia).
  cbn [rbind]. change (10 =? 10) with true. cbv iota.
  rewrite C1, L1, (u8_small (n + 1 + 1)), (u16_small (n + 1 + 1)) by lia.
  replace (2 <? n + 1 + 1) with true by (symmetry; apply Z.ltb_lt; lia).
  cbn [rbind fst snd].
  (* the carriage return of the blank line *)
  unfold serialRxAdvancedAscii at 1. ascii_fields. cbv beta iota.
  rewrite append_Ok
    by (ascii_fields; unfold SERIAL_RX_BUFFER_SIZE; lia).
  ascii_fields. cbn [rbind]. change (13 =? 10) with false. cbv iota.
  change (u8 (0 + 1)) with 1.
  change (ADVANCED_ASCII_LINE_LENGTH <? 1) with false. cbv iota.
  rewrite (u16_small (n + 1 + 1 + 1)) by lia. ascii_fields.
  replace (ADVANCED_ASCII_MAX_LENGTH <=? n + 1 + 1 + 1) with false
    by (symmetry; apply Z.leb_gt; unfold ADVANCED_ASCII_MAX_LENGTH; lia).
  cbn [rbind fst snd].
  (* the line feed of the blank line *)
  unfold serialRxAdvancedAscii at 1. ascii_fields. cbv beta iota.
  rewrite append_Ok
    by (ascii_fields; unfold SERIAL_RX_BUFFER_SIZE; lia).
  ascii_fields. cbn [rbind]. change (10 =? 10) with true. cbv iota.
  change (u8 (1 + 1)) with 2. change (2 <? 2) with false.
  change ((2 =? 2) && (13 =? 13)) with true. cbv iota.
  rewrite (u16_small (n + 1 + 1 + 1 + 1)) by lia.
  match goal with
  | |- context [serialTxEventToNimbus ?x] => set (g4 := x)
  end.
  assert (L4 : serialRxLength g4 = n + 4) by (subst g4; ascii_fields; lia).
  assert (B4 : length (serialRxBuffer g4) = 512%nat)
    by (subst g4; ascii_fields; rewrite !length_wr; assumption).
  assert (T4 : take (Z.to_nat (n + 4)) (serialRxBuffer g4)
               = line ++ [13; 10; 13; 10]).
  { subst g4. ascii_fields.
    replace (n + 4) with ((n + 1 + 1 + 1) + 1) by lia.
    rewrite take_wr_next by (rewrite ?length_wr; lia).
    rewrite take_wr_next by (rewrite ?length_wr; lia).
    rewrite take_wr_next by (rewrite ?length_wr; lia).
    rewrite L1 in T1. rewrite T1, <- !app_assoc. reflexivity. }
  destruct (serialTxEventToNimbus_fits g4) as [g5 H5];
    [rewrite L4; unfold EVENT_DATA_SIZE; lia|].
  destruct (serialTxEventToNimbus_published g4 g5 H5) as (m & Hm & Hf);
    [lia | lia |].
  rewrite H5. cbn [rbind fst snd feed].
  eexists _, _, m. split; [reflexivity|]. ascii_fields.
  split; [rewrite Hm; subst g4; ascii_fields; rewrite Pub1; reflexivity|].
  split; [|split; reflexivity].
  unfold frame_of. rewrite Hf, L4, T4, <- app_assoc. reflexivity.
Qed.

(** C4, as the code has it.  Started idle, the parser given one line that
    is not blank (at most 40 characters before its CR LF) and then the
    blank line forwards exactly one message, and the message is everything
    it collected, the CR LF of the blank line included: for the input
    LINE1 CR LF CR LF the nine bytes LINE1 CR LF CR LF. *)
Theorem C4_one_line_then_blank_line
  (line : list Z) (st : ascii_static) (g : globals) :
  serialRxState g = 0 ->
  serialRxLength g = 0 ->
  lineCharCount st = 0 ->
  length (serialRxBuffer g) = 512%nat ->
  line <> [] ->
  (length line <= 40)%nat ->
  Forall (fun c => c <> LF) line ->
  (exists st' g' m,
     feed serialRxAdvancedAscii st g (line ++ [CR; LF; CR; LF])
       = Ok (st', g') /\
     published g' = published g ++ [m] /\
     frame_of m = line ++ [CR; LF; CR; LF] /\
     serialRxState g' = 0) /\
  (exists m,
     ascii_run scenario_C = Ok (0, 0, [m]) /\
     frame_of m = scenario_C /\
     length (frame_of m) = 9%nat).
Proof.
  intros Hs HL Hlcc Hlen Hne Hn Hall. split.
  - destruct (ascii_single_line line st g Hs HL Hlcc Hlen Hne Hn Hall)
      as (st' & g' & m & H & P & F & S' & _).
    exists st', g', m. auto.
  - eexists. split; [vm_compute; reflexivity|].
    split; vm_compute; reflexivity.
Qed.

Lemma C4_one_line_then_blank_line_witness :
  exists st' g' m,
    feed serialRxAdvancedAscii ascii_static_init (power_on ascii_cfg 0)
         (LINE1 ++ [CR; LF; CR; LF]) = Ok (st', g') /\
    published g' = published (power_on ascii_cfg 0) ++ [m] /\
    frame_of m = LINE1 ++ [CR; LF; CR; LF] /\
    serialRxState g' = 0.
Proof.
  apply (C4_one_line_then_blank_line LINE1 ascii_static_init
           (power_on ascii_cfg 0)).
  - reflexivity.
  - reflexivity.
  - reflexivity.
  - reflexivity.
  - discriminate.
  - vm_compute. lia.
  - repeat (constructor; [discriminate|]). constructor.
Defined.

(** C4 as stated fails: the one message forwarded for LINE1 CR LF CR LF is
    not the seven bytes LINE1 CR LF. *)
Lemma C4_forwarded_content_counterexample :
  match ascii_run scenario_C with
  | Ok (_, _, [m]) =>
      frame_of m <> LINE1 ++ [CR; LF] /\ length (frame_of m) <> 7%nat
  | _ => False
  end.
Proof. vm_compute. split; discriminate. Qed.

(** C3 fails on the code.  Nothing between the parsers and the encoder
    looks at the 244 bytes of [eventMessage.Data]: the ASCII parser
    collects a message of six full lines, 254 bytes with its blank line,
    or the 312 bytes of the longest message it is written for, and hands
    it to [serialTxEventToNimbus], whose copy then runs past the record.
    A message of five full lines, 212 bytes, still fits; a verbose
    Advanced BMS parser hands over 246 bytes collected on the escape
    path. *)
Theorem C3_forwarded_frame_exceeds_the_record :
  ascii_run (removelast six_line_message) = Ok (1, 253, []) /\
  ascii_run six_line_message = Fault RecordOverrun /\
  ascii_run (removelast longest_message) = Ok (1, 311, []) /\
  ascii_run longest_message = Fault RecordOverrun /\
  (exists m, ascii_run five_line_message = Ok (0, 0, [m]) /\
             frame_of m = five_line_message) /\
  adv_run verbose_cfg 0 (escaped_stream 244) = Ok (1, 245, []) /\
  adv_run verbose_cfg 0 (escaped_stream 244 ++ [255]) = Fault RecordOverrun.
Proof.
  repeat split; try (vm_compute; reflexivity).
  eexists. split; vm_compute; reflexivity.
Qed.

(** ** How long the scan of [checkPacketFormat] can run *)

Lemma known_codeb_In c : known_codeb c = true <-> In c (codes idCodeTable_init).
Proof.
  unfold known_codeb. rewrite existsb_exists. split.
  - intros (x & Hx & E). apply Z.eqb_eq in E. subst. exact Hx.
  - intros H. exists c. split; [exact H | apply Z.eqb_refl].
Qed.

Lemma matchIdCode_bump c tbl :
  codes tbl = codes idCodeTable_init ->
  matchIdCode c tbl = if known_codeb c then Some (bump c tbl) else None.
Proof.
  intros Htbl. destruct (known_codeb c) eqn:E.
  - apply known_codeb_In in E. rewrite <- Htbl in E.
    destruct (matchIdCode_known c tbl E) as [tbl' H].
    unfold bump. rewrite H. reflexivity.
  - apply matchIdCode_unknown. rewrite Htbl. intros Hin.
    apply known_codeb_In in Hin. congruence.
Qed.

Lemma bump_codes c tbl : codes (bump c tbl) = codes tbl.
Proof.
  unfold bump. destruct (matchIdCode c tbl) eqn:E; [|reflexivity].
  eapply matchIdCode_codes. exact E.
Qed.

Section Scan.

(** The buffer and the [maxOffset] of one call of [checkPacketFormat]. *)
Variable buf : list Z.
Variable m : Z.

(** A turn of the loop is a turn of [scan_turn]. *)
Lemma scanMessages_turn n p tbl :
  codes tbl = codes idCodeTable_init ->
  scanMessages (S n) buf m (rd buf p) (u8 (p + 1)) tbl
  = match scan_turn buf m p with
    | inl b => Ok (b, bump (rd buf p) tbl)
    | inr p' =>
        scanMessages n buf m (rd buf p') (u8 (p' + 1)) (bump (rd buf p) tbl)
    end.
Proof.
  intros Htbl. cbn [scanMessages]. unfold scan_turn.
  rewrite (matchIdCode_bump _ _ Htbl).
  destruct (known_codeb (rd buf p)) eqn:E.
  - destruct (m <? _); [reflexivity|].
    destruct (rd buf _ =? 240); reflexivity.
  - unfold bump. rewrite (matchIdCode_bump _ _ Htbl), E. reflexivity.
Qed.

Lemma scan_turn_range p p' :
  scan_turn buf m p = inr p' -> 0 <= p' < 256.
Proof.
  unfold scan_turn. destruct (known_codeb _); [|discriminate].
  destruct (m <? _); [discriminate|].
  destruct (_ =? 240); [discriminate|].
  intros [= <-]. apply u8_range.
Qed.

(** More fuel does not change a verdict. *)
Lemma scanMessages_more_fuel n : forall c offset tbl r n',
  scanMessages n buf m c offset tbl = Ok r -> (n <= n')%nat ->
  scanMessages n' buf m c offset tbl = Ok r.
Proof.
  induction n as [|n IH]; intros c offset tbl r n' H Hle; [discriminate|].
  destruct n' as [|n']; [lia|].
  cbn [scanMessages] in *.
  destruct (matchIdCode c tbl); [|exact H].
  destruct (m <? _); [exact H|].
  destruct (_ =? 240); [exact H|].
  apply IH with (1 := H). lia.
Qed.

(** The loop returns exactly when some turn returns. *)
Lemma scanMessages_halts n : forall p tbl b t,
  codes tbl = codes idCodeTable_init ->
  scanMessages n buf m (rd buf p) (u8 (p + 1)) tbl = Ok (b, t) ->
  exists k, (k < n)%nat /\ scan_halts buf m k p b.
Proof.
  induction n as [|n IH]; intros p tbl b t Htbl H; [discriminate|].
  rewrite scanMessages_turn in H by assumption.
  destruct (scan_turn buf m p) as [b'|p'] eqn:E.
  - injection H as <- _. exists 0%nat. split; [lia|].
    exists p. split; [reflexivity | exact E].
  - apply IH in H; [|rewrite bump_codes; assumption].
    destruct H as (k & Hk & q & Hq & Hh).
    exists (S k). split; [lia|]. exists q. split; [|exact Hh].
    cbn [scan_pos]. rewrite E. exact Hq.
Qed.

Lemma scan_halts_scanMessages k : forall p tbl b,
  codes tbl = codes idCodeTable_init ->
  scan_halts buf m k p b ->
  exists t, scanMessages (S k) buf m (rd buf p) (u8 (p + 1)) tbl = Ok (b, t).
Proof.
  induction k as [|k IH]; intros p tbl b Htbl (q & Hq & Hh).
  - injection Hq as <-. rewrite scanMessages_turn, Hh by assumption. eauto.
  - cbn [scan_pos] in Hq. rewrite scanMessages_turn by assumption.
    destruct (scan_turn buf m p) as [b'|p'] eqn:E; [discriminate|].
    apply IH; [rewrite bump_codes; assumption|].
    exists q. split; assumption.
Qed.

Lemma scan_pos_add i : forall j p,
  scan_pos buf m (i + j) p
  = match scan_pos buf m i p with
    | Some r => scan_pos buf m j r
    | None => None
    end.
Proof.
  induction i as [|i IH]; intros j p; [reflexivity|].
  cbn [Nat.add scan_pos].
  destruct (scan_turn buf m p) as [b|p']; [reflexivity | apply IH].
Qed.

(** Once a turn has returned there are no later turns. *)
Lemma scan_halts_last k p b k' :
  scan_halts buf m k p b -> (k < k')%nat -> scan_pos buf m k' p = None.
Proof.
  intros (q & Hq & Hh) Hlt.
  replace k' with (k + S (k' - k - 1))%nat by lia.
  rewrite scan_pos_add, Hq. cbn [scan_pos]. rewrite Hh. reflexivity.
Qed.

(** So no position is seen twice before the loop returns. *)
Lemma scan_halts_no_repeat k p b i j r :
  scan_halts buf m k p b ->
  (i < j <= k)%nat ->
  scan_pos buf m i p = Some r -> scan_pos buf m j p <> Some r.
Proof.
  intros Hh Hij Hi Hj.
  pose proof Hh as (q & Hq & Hq').
  assert (Hfrom_i : scan_halts buf m (k - i) r b).
  { exists q. split; [|exact Hq'].
    replace k with (i + (k - i))%nat in Hq by lia.
    rewrite scan_pos_add, Hi in Hq. exact Hq. }
  assert (Hfrom_j : scan_pos buf m (k - j) r = Some q).
  { replace k with (j + (k - j))%nat in Hq by lia.
    rewrite scan_pos_add, Hj in Hq. exact Hq. }
  assert (Hnone : scan_pos buf m (k - i) r = None).
  { apply scan_halts_last with (k := (k - j)%nat) (b := b); [|lia].
    exists q. split; assumption. }
  destruct Hfrom_i as (q' & Hq'' & _). congruence.
Qed.

Lemma scan_pos_range k : forall p r,
  0 <= p < 256 -> scan_pos buf m k p = Some r -> 0 <= r < 256.
Proof.
  induction k as [|k IH]; intros p r Hp H.
  - injection H as <-. exact Hp.
  - cbn [scan_pos] in H.
    destruct (scan_turn buf m p) as [b|p'] eqn:E; [discriminate|].
    apply IH with (2 := H). eapply scan_turn_range. exact E.
Qed.

Lemma scan_path_lookup k : forall p i r,
  scan_path buf m k p !! i = Some r ->
  scan_pos buf m i p = Some r /\ (i <= k)%nat.
Proof.
  induction k as [|k IH]; intros p i r H.
  - destruct i as [|i]; [|discriminate].
    injection H as <-. split; [reflexivity | lia].
  - destruct i as [|i].
    + injection H as <-. split; [reflexivity | lia].
    + cbn [scan_path] in H. change ((?x :: ?l) !! S i) with (l !! i) in H.
      cbn [scan_pos].
      destruct (scan_turn buf m p) as [b|p'] eqn:E; [discriminate|].
      apply IH in H as [H1 H2]. split; [exact H1 | lia].
Qed.

Lemma scan_path_length k : forall p q,
  scan_pos buf m k p = Some q -> length (scan_path buf m k p) = S k.
Proof.
  induction k as [|k IH]; intros p q H; [reflexivity|].
  cbn [scan_pos] in H. cbn [scan_path length].
  destruct (scan_turn buf m p) as [b|p'] eqn:E; [discriminate|].
  f_equal. eapply IH. exact H.
Qed.

(** A scan that returns has seen at most 256 positions. *)
Lemma scan_halts_bound k p b :
  0 <= p < 256 -> scan_halts buf m k p b -> (k < 256)%nat.
Proof.
  intros Hp Hh. pose proof Hh as (q & Hq & _).
  assert (Hnd : NoDup (scan_path buf m k p)).
  { apply NoDup_alt. intros i j x Hi Hj.
    apply scan_path_lookup in Hi as [Hi Hik].
    apply scan_path_lookup in Hj as [Hj Hjk].
    destruct (Nat.lt_trichotomy i j) as [Hlt | [Heq | Hgt]];
      [exfalso | exact Heq | exfalso].
    - eapply (scan_halts_no_repeat k p b i j x); eauto.
    - eapply (scan_halts_no_repeat k p b j i x); eauto. }
  assert (Hin : forall x, x ∈ scan_path buf m k p -> x ∈ seqZ 0 256).
  { intros x Hx. apply list_elem_of_lookup_1 in Hx as [i Hi].
    apply scan_path_lookup in Hi as [Hi _].
    apply elem_of_seqZ. apply (scan_pos_range i p x Hp) in Hi. lia. }
  pose proof (submseteq_length _ _ (NoDup_submseteq _ _ Hnd Hin)) as Hlen.
  rewrite (scan_path_length k p q Hq), length_seqZ in Hlen.
  simpl in Hlen. lia.
Qed.

(** 256 units of fuel show every verdict the scan can reach. *)
Lemma scanMessages_256 n p tbl r :
  0 <= p < 256 ->
  codes tbl = codes idCodeTable_init ->
  scanMessages n buf m (rd buf p) (u8 (p + 1)) tbl = Ok r ->
  scanMessages 256 buf m (rd buf p) (u8 (p + 1)) tbl = Ok r.
Proof.
  intros Hp Htbl H. destruct r as [b t].
  destruct (scanMessages_halts n p tbl b t Htbl H) as (k & Hk & Hh).
  pose proof (scan_halts_bound k p b Hp Hh) as Hb.
  destruct (scan_halts_scanMessages k p tbl b Htbl Hh) as [t' Ht'].
  pose proof (scanMessages_more_fuel _ _ _ _ _ n Ht' ltac:(lia)) as Hn.
  rewrite H in Hn. injection Hn as <-.
  apply scanMessages_more_fuel with (1 := Ht'). lia.
Qed.

Lemma scanMessages_fault n : forall c offset tbl f,
  scanMessages n buf m c offset tbl = Fault f -> f = OutOfFuel.
Proof.
  induction n as [|n IH]; intros c offset tbl f H.
  - injection H as <-. reflexivity.
  - cbn [scanMessages] in H.
    destruct (matchIdCode c tbl); [|discriminate].
    destruct (m <? _); [discriminate|].
    destruct (_ =? 240); [discriminate|].
    eapply IH. exact H.
Qed.

(** The table the loop returns: one look-up for every position seen. *)
Lemma scanMessages_table k : forall p tbl b,
  codes tbl = codes idCodeTable_init ->
  scan_halts buf m k p b ->
  scanMessages (S k) buf m (rd buf p) (u8 (p + 1)) tbl
  = Ok (b, fold_left (fun t q => bump (rd buf q) t) (scan_path buf m k p)
             tbl).
Proof.
  induction k as [|k IH]; intros p tbl b Htbl (q & Hq & Hh).
  - injection Hq as <-. rewrite scanMessages_turn, Hh by assumption.
    reflexivity.
  - cbn [scan_pos] in Hq. rewrite scanMessages_turn by assumption.
    cbn [scan_path].
    destruct (scan_turn buf m p) as [b'|p'] eqn:E; [discriminate|].
    cbn [fold_left]. apply IH; [rewrite bump_codes; assumption|].
    exists q. split; assumption.
Qed.

Lemma scan_path_lookup_pos k : forall p i r,
  (i <= k)%nat -> scan_pos buf m i p = Some r ->
  scan_path buf m k p !! i = Some r.
Proof.
  induction k as [|k IH]; intros p i r Hik H.
  - assert (i = 0%nat) by lia. subst i. injection H as <-. reflexivity.
  - destruct i as [|i]; [injection H as <-; reflexivity|].
    cbn [scan_pos] in H. cbn [scan_path].
    change ((?x :: ?l) !! S i) with (l !! i).
    destruct (scan_turn buf m p) as [b|p'] eqn:E; [discriminate|].
    apply IH; [lia | exact H].
Qed.

Lemma scan_turn_known p :
  scan_turn buf m p <> inl false -> known_codeb (rd buf p) = true.
Proof.
  unfold scan_turn. destruct (known_codeb _); [reflexivity|].
  intros H. exfalso. apply H. reflexivity.
Qed.

(** A scan that returns [true] has seen known codes only. *)
Lemma scan_path_known k p x :
  scan_halts buf m k p true ->
  x ∈ scan_path buf m k p -> known_codeb (rd buf x) = true.
Proof.
  intros (q & Hq & Hh) Hx. apply list_elem_of_lookup_1 in Hx as [i Hi].
  apply scan_path_lookup in Hi as [Hi Hik].
  replace k with (i + (k - i))%nat in Hq by lia.
  rewrite scan_pos_add, Hi in Hq.
  destruct (k - i)%nat as [|d].
  - injection Hq as ->. apply (scan_turn_known). rewrite Hh.
    discriminate.
  - cbn [scan_pos] in Hq. apply (scan_turn_known).
    destruct (scan_turn buf m x); [discriminate|]. discriminate.
Qed.

(** The position of the closing code F0 is one more, so such a scan has
    seen at most 255 positions. *)
Lemma scan_halts_true_bound k p :
  0 <= p < 256 -> scan_halts buf m k p true -> (k < 255)%nat.
Proof.
  intros Hp Hh. pose proof Hh as (q & Hq & Hq').
  set (f := u8 (u8 (q + 1) + (rd buf (u8 (q + 1)) - 1))).
  assert (Hf : rd buf f = 240).
  { revert Hq'. unfold scan_turn. fold f.
    destruct (known_codeb _); [|discriminate].
    destruct (m <? f); [discriminate|].
    destruct (rd buf f =? 240) eqn:E; [|discriminate].
    intros _. apply Z.eqb_eq. exact E. }
  assert (Hnd : NoDup (f :: scan_path buf m k p)).
  { constructor.
    - intros Hin. apply (scan_path_known k p f Hh) in Hin.
      rewrite Hf in Hin. discriminate.
    - apply NoDup_alt. intros i j x Hi Hj.
      apply scan_path_lookup in Hi as [Hi Hik].
      apply scan_path_lookup in Hj as [Hj Hjk].
      destruct (Nat.lt_trichotomy i j) as [Hlt | [Heq | Hgt]];
        [exfalso | exact Heq | exfalso].
      + eapply (scan_halts_no_repeat k p true i j x); eauto.
      + eapply (scan_halts_no_repeat k p true j i x); eauto. }
  assert (Hin : forall x, x ∈ f :: scan_path buf m k p -> x ∈ seqZ 0 256).
  { intros x Hx. apply elem_of_seqZ. apply elem_of_cons in Hx as [-> | Hx].
    - pose proof (u8_range (u8 (q + 1) + (rd buf (u8 (q + 1)) - 1))).
      fold f in H. lia.
    - apply list_elem_of_lookup_1 in Hx as [i Hi].
      apply scan_path_lookup in Hi as [Hi _].
      apply (scan_pos_range i p x Hp) in Hi. lia. }
  pose proof (submseteq_length _ _ (NoDup_submseteq _ _ Hnd Hin)) as Hlen.
  cbn [length] in Hlen.
  rewrite (scan_path_length k p q Hq), length_seqZ in Hlen.
  simpl in Hlen. lia.
Qed.

End Scan.

(** Validation returns within 256 turns of its loop or not at all. *)
Lemma validateAdvancedBmsPacket_256 fuel g st r :
  codes (idCodeTable st) = codes idCodeTable_init ->
  validateAdvancedBmsPacket fuel g st = Ok r ->
  validateAdvancedBmsPacket 256 g st = Ok r.
Proof.
  intros Htbl. unfold validateAdvancedBmsPacket.
  destruct (serialRxLength g <? ADVANCED_MIN_LENGTH); [auto|].
  destruct (negb (validateCRC _ _)); [auto|].
  destruct (negb (_ =? 128)); [auto|].
  unfold checkPacketFormat.
  intros H. apply rbind_Ok in H as (r1 & H1 & H2).
  apply scanMessages_256 in H1;
    [| lia | rewrite codes_reset; exact Htbl].
  rewrite H1. exact H2.
Qed.

Lemma validateAdvancedBmsPacket_decided g st :
  codes (idCodeTable st) = codes idCodeTable_init ->
  (exists r, validateAdvancedBmsPacket 256 g st = Ok r) \/
  (forall fuel, validateAdvancedBmsPacket fuel g st = Fault OutOfFuel).
Proof.
  intros Htbl.
  destruct (validateAdvancedBmsPacket 256 g st) as [r|f] eqn:E;
    [left; eauto|].
  right. intros fuel.
  destruct (validateAdvancedBmsPacket fuel g st) as [r|f'] eqn:E'.
  - apply validateAdvancedBmsPacket_256 in E'; [congruence | exact Htbl].
  - f_equal. revert E'. unfold validateAdvancedBmsPacket.
    destruct (serialRxLength g <? ADVANCED_MIN_LENGTH); [discriminate|].
    destruct (negb (validateCRC _ _)); [discriminate|].
    destruct (negb (_ =? 128)); [discriminate|].
    unfold checkPacketFormat.
    destruct (scanMessages _ _ _ _ _ _) as [r1|f1] eqn:E1.
    + cbn [rbind]. destruct (fst r1); discriminate.
    + cbn [rbind]. intros [= <-]. eapply scanMessages_fault. exact E1.
Qed.

(** ** What the Device Status count counts *)

Lemma idCodeCount_bump c tbl :
  codes tbl = codes idCodeTable_init ->
  idCodeCount 1 (bump c tbl)
  = if c =? 10 then u8 (idCodeCount 1 tbl + 1) else idCodeCount 1 tbl.
Proof.
  intros Htbl.
  destruct tbl as [|e0 [|e1 tbl]]; try discriminate.
  injection Htbl as H0 H1 _.
  unfold bump, idCodeCount. cbn [matchIdCode]. rewrite H0, H1.
  destruct (c =? 1) eqn:E1.
  - apply Z.eqb_eq in E1. subst c. reflexivity.
  - destruct (c =? 10) eqn:E10; [reflexivity|].
    destruct (matchIdCode c tbl); reflexivity.
Qed.

Lemma idCodeCount_path buf path : forall tbl,
  codes tbl = codes idCodeTable_init ->
  0 <= idCodeCount 1 tbl < 256 ->
  let tbl' := fold_left (fun t q => bump (rd buf q) t) path tbl in
  0 <= idCodeCount 1 tbl' < 256 /\
  idCodeCount 1 tbl'
  = u8 (idCodeCount 1 tbl + Z.of_nat (device_status_among buf path)).
Proof.
  induction path as [|q path IH]; intros tbl Htbl Hr; cbv zeta.
  - cbn [fold_left device_status_among List.filter length].
    split; [exact Hr|]. rewrite Z.add_0_r, u8_small; [reflexivity|exact Hr].
  - cbn [fold_left].
    assert (Hr' : 0 <= idCodeCount 1 (bump (rd buf q) tbl) < 256).
    { rewrite idCodeCount_bump by assumption.
      destruct (rd buf q =? 10); [apply u8_range | exact Hr]. }
    destruct (IH (bump (rd buf q) tbl)) as [H1 H2];
      [rewrite bump_codes; assumption | exact Hr' |].
    split; [exact H1|]. rewrite H2, idCodeCount_bump by assumption.
    unfold device_status_among. cbn [List.filter].
    destruct (rd buf q =? 10).
    + cbn [length]. rewrite u8_add_l. f_equal. lia.
    + reflexivity.
Qed.

Lemma device_status_among_pos buf path :
  (0 < device_status_among buf path)%nat <->
  exists q, q ∈ path /\ rd buf q = 10.
Proof.
  unfold device_status_among. induction path as [|x path IH].
  - cbn. split; [lia|]. intros (q & Hq & _). inversion Hq.
  - cbn [List.filter]. destruct (rd buf x =? 10) eqn:E.
    + cbn [length]. split; [|lia]. intros _. exists x.
      split; [left | apply Z.eqb_eq; exact E].
    + rewrite IH. split.
      * intros (q & Hq & H10). exists q. split; [right; exact Hq | exact H10].
      * intros (q & Hq & H10). apply elem_of_cons in Hq as [-> | Hq].
        -- apply Z.eqb_neq in E. contradiction.
        -- exists q. split; assumption.
Qed.

Lemma device_status_among_le buf path :
  (device_status_among buf path <= length path)%nat.
Proof. unfold device_status_among. apply List.filter_length_le. Qed.

(** For a packet judged valid, the count the forwarding decision looks at
    is positive exactly when the scan came across a Device Status code. *)
Lemma deviceStatusCount_seen fuel g st st1 :
  codes (idCodeTable st) = codes idCodeTable_init ->
  validateAdvancedBmsPacket fuel g st = Ok (true, st1) ->
  0 < deviceStatusCount st1 <-> device_status_seen g.
Proof.
  intros Htbl. unfold validateAdvancedBmsPacket.
  destruct (serialRxLength g <? ADVANCED_MIN_LENGTH); [discriminate|].
  destruct (negb (validateCRC _ _)); [discriminate|].
  destruct (negb (_ =? 128)); [discriminate|].
  unfold checkPacketFormat.
  set (buf := serialRxBuffer g). set (m := u8 (serialRxLength g - 4)).
  set (tbl0 := map (set_count 0) (idCodeTable st)).
  assert (Htbl0 : codes tbl0 = codes idCodeTable_init)
    by (subst tbl0; rewrite codes_reset; exact Htbl).
  assert (Hzero : idCodeCount 1 tbl0 = 0).
  { subst tbl0. destruct (idCodeTable st) as [|e0 [|e1 t]]; reflexivity. }
  intros H. apply rbind_Ok in H as ([b t] & H1 & H2).
  cbn [fst snd] in H2. destruct b; [|discriminate].
  injection H2 as <-.
  destruct (scanMessages_halts buf m fuel 5 tbl0 true t Htbl0 H1)
    as (k & Hk & Hh).
  pose proof (scanMessages_table buf m k 5 tbl0 true Htbl0 Hh) as Ht.
  pose proof (scanMessages_more_fuel _ _ _ _ _ _ _ fuel Ht ltac:(lia)) as Hn.
  assert (Et : t = fold_left (fun t q => bump (rd buf q) t)
                          (scan_path buf m k 5) tbl0) by congruence.
  subst t. clear Hn.
  unfold deviceStatusCount. cbn [idCodeTable].
  destruct (idCodeCount_path buf (scan_path buf m k 5) tbl0 Htbl0)
    as [_ Hc]; [rewrite Hzero; lia|].
  cbv zeta in Hc. rewrite Hc, Hzero, Z.add_0_l.
  pose proof (scan_halts_true_bound buf m k 5 ltac:(lia) Hh) as Hb.
  pose proof (device_status_among_le buf (scan_path buf m k 5)) as Hle.
  destruct Hh as (q & Hq & Hq').
  rewrite (scan_path_length buf m k 5 q Hq) in Hle.
  rewrite u8_small by lia.
  rewrite <- Nat2Z.inj_0, <- Nat2Z.inj_lt, device_status_among_pos.
  unfold device_status_seen. fold buf m. split.
  - intros (x & Hx & H10). apply list_elem_of_lookup_1 in Hx as [i Hi].
    apply scan_path_lookup in Hi as [Hi _]. exists i, x. split; assumption.
  - intros (i & x & Hi & H10). exists x. split; [|exact H10].
    apply list_elem_of_lookup_2 with (i := i).
    apply scan_path_lookup_pos; [|exact Hi].
    destruct (Nat.le_gt_cases i k) as [Hle'|Hgt]; [exact Hle'|].
    rewrite (scan_halts_last buf m k 5 true i) in Hi; [discriminate| |lia].
    exists q. split; assumption.
Qed.

(** ** The forwarding policy *)

(** The end byte in state 1: the packet is completed, validated and then
    forwarded or not; a validation that does not return keeps the handler
    from returning. *)
Lemma serialRxAdvanced_end_byte fuel st g :
  serialRxState g = 1 ->
  0 <= serialRxLength g < EVENT_DATA_SIZE ->
  exists g2,
    serialTxEventToNimbus (completed g) = Ok g2 /\
    (exists m, published g2 = published g ++ [m]) /\
    totalDiscardedBytes g2 = totalDiscardedBytes g /\
    serialRxLength (completed g) = serialRxLength g + 1 /\
    serialRxAdvanced fuel st g 255
    = match validateAdvancedBmsPacket fuel (completed g) st with
      | Ok (true, st1) =>
          if verbose (particleEepromData g) || (0 <? deviceStatusCount st1)
          then Ok (st1, set_serialRxState 0 g2)
          else Ok (st1, set_serialRxState 0 (completed g))
      | Ok (false, st1) =>
          if verbose (particleEepromData g)
          then Ok (st1, set_serialRxState 0 g2)
          else Ok (st1, set_serialRxState 0
                          (set_totalDiscardedBytes
                             (u32 (totalDiscardedBytes g
                                   + (serialRxLength g + 1)))
                             (completed g)))
      | Fault f => Fault f
      end.
Proof.
  intros Hs HL. unfold EVENT_DATA_SIZE in HL.
  assert (Hlen1 : serialRxLength (completed g) = serialRxLength g + 1).
  { unfold completed. adv_fields. apply u16_small. lia. }
  destruct (serialTxEventToNimbus_fits (completed g)) as [g2 Hg2].
  { rewrite Hlen1. unfold EVENT_DATA_SIZE. lia. }
  destruct (serialTxEventToNimbus_publishes_one _ _ Hg2) as [m Hm].
  pose proof (serialTxEventToNimbus_fields _ _ Hg2) as
    (_ & _ & _ & _ & _ & _ & _ & _ & _ & _ & _ & _ & Hd & _).
  exists g2. split; [exact Hg2|]. split; [exists m; exact Hm|].
  split; [exact Hd|]. split; [exact Hlen1|].
  unfold serialRxAdvanced. rewrite Hs. cbv beta iota.
  change (255 =? 255) with true. cbv iota.
  rewrite append_Ok by (unfold SERIAL_RX_BUFFER_SIZE; lia).
  fold (completed g). cbn [rbind].
  destruct (validateAdvancedBmsPacket fuel (completed g) st)
    as [[[|] st1]|f]; cbn [rbind fst snd];
    change (particleEepromData (completed g)) with (particleEepromData g);
    change (totalDiscardedBytes (completed g)) with (totalDiscardedBytes g).
  - destruct (verbose (particleEepromData g) || (0 <? deviceStatusCount st1));
      [rewrite Hg2|]; reflexivity.
  - destruct (verbose (particleEepromData g)); [rewrite Hg2; reflexivity|].
    cbn [rbind]. rewrite Hlen1. reflexivity.
  - reflexivity.
Qed.

(** The handler acts on the verdict.  When the end byte arrives for a
    packet in progress (short enough for the buffer and for an event
    record) the parser completes the packet and validates it.  If the
    packet is judged valid it is published when verbose mode is on or its
    scan came across a Device Status code, and dropped, uncounted,
    otherwise.  If it is judged
    invalid it is published when verbose mode is on, and otherwise dropped
    with its length, frame bytes included, added to the discarded bytes.
    Either way the parser is back in its first state.  A packet of fewer
    than 12 bytes is judged invalid, with the error text for a packet too
    short.  The verdict, if there is one, is reached within 256 turns of
    the scan loop; a packet without a verdict keeps the handler from
    returning. *)
Lemma serialRxAdvanced_acts_on_the_verdict
  (fuel : nat) (st : adv_static) (g : globals) :
  serialRxState g = 1 ->
  0 <= serialRxLength g < EVENT_DATA_SIZE ->
  codes (idCodeTable st) = codes idCodeTable_init ->
  (forall st1,
     validateAdvancedBmsPacket fuel (completed g) st = Ok (true, st1) ->
     exists g',
       serialRxAdvanced fuel st g 255 = Ok (st1, g') /\
       serialRxState g' = 0 /\
       totalDiscardedBytes g' = totalDiscardedBytes g /\
       (verbose (particleEepromData g) = true
        \/ device_status_seen (completed g) ->
        exists m, published g' = published g ++ [m]) /\
       (verbose (particleEepromData g) = false ->
        ~ device_status_seen (completed g) ->
        published g' = published g)) /\
  (forall st1,
     validateAdvancedBmsPacket fuel (completed g) st = Ok (false, st1) ->
     exists g',
       serialRxAdvanced fuel st g 255 = Ok (st1, g') /\
       serialRxState g' = 0 /\
       (verbose (particleEepromData g) = true ->
        (exists m, published g' = published g ++ [m]) /\
        totalDiscardedBytes g' = totalDiscardedBytes g) /\
       (verbose (particleEepromData g) = false ->
        published g' = published g /\
        totalDiscardedBytes g'
        = u32 (totalDiscardedBytes g + (serialRxLength g + 1)))) /\
  (serialRxLength g + 1 < ADVANCED_MIN_LENGTH ->
   validateAdvancedBmsPacket fuel (completed g) st
   = Ok (false, {| errorStr := error_too_short;
                   idCodeTable := idCodeTable st |})) /\
  ((exists r, validateAdvancedBmsPacket 256 (completed g) st = Ok r) \/
   (forall n, serialRxAdvanced n st g 255 = Fault OutOfFuel)).
Proof.
  intros Hs HL Htbl.
  split; [|split; [|split]].
  - intros st1 Hv.
    destruct (serialRxAdvanced_end_byte fuel st g Hs HL)
      as (g2 & _ & Hm & Hd & _ & Hstep).
    rewrite Hv in Hstep.
    pose proof (deviceStatusCount_seen fuel (completed g) st st1 Htbl Hv)
      as Hseen.
    destruct (verbose (particleEepromData g)) eqn:Ev; cbn [orb] in Hstep.
    + exists (set_serialRxState 0 g2). split; [exact Hstep|]. adv_fields.
      split; [reflexivity|]. split; [exact Hd|].
      split; [intros _; exact Hm | discriminate].
    + destruct (0 <? deviceStatusCount st1) eqn:Ec.
      * exists (set_serialRxState 0 g2). split; [exact Hstep|]. adv_fields.
        split; [reflexivity|]. split; [exact Hd|].
        split; [intros _; exact Hm|].
        intros _ Hn. exfalso. apply Hn, Hseen. apply Z.ltb_lt. exact Ec.
      * exists (set_serialRxState 0 (completed g)).
        split; [exact Hstep|]. adv_fields.
        split; [reflexivity|]. split; [reflexivity|].
        split; [|reflexivity].
        intros [H|H]; [discriminate|].
        apply Hseen in H. apply Z.ltb_ge in Ec. lia.
  - intros st1 Hv.
    destruct (serialRxAdvanced_end_byte fuel st g Hs HL)
      as (g2 & _ & Hm & Hd & _ & Hstep).
    rewrite Hv in Hstep.
    destruct (verbose (particleEepromData g)) eqn:Ev.
    + exists (set_serialRxState 0 g2). split; [exact Hstep|]. adv_fields.
      split; [reflexivity|]. split; [auto | discriminate].
    + eexists. split; [exact Hstep|]. adv_fields.
      split; [reflexivity|]. split; [discriminate|].
      intros _. split; reflexivity.
  - intros Hshort. apply validateAdvancedBmsPacket_short.
    destruct (serialRxAdvanced_end_byte fuel st g Hs HL)
      as (g2 & _ & _ & _ & Hlen1 & _).
    rewrite Hlen1. exact Hshort.
  - destruct (validateAdvancedBmsPacket_decided (completed g) st Htbl)
      as [Hr | Hnever]; [left; exact Hr|].
    right. intros n.
    destruct (serialRxAdvanced_end_byte n st g Hs HL)
      as (g2 & _ & _ & _ & _ & Hstep).
    rewrite Hstep, Hnever. reflexivity.
Qed.

Lemma serialRxAdvanced_drops_a_short_frame :
  exists st1 g',
    serialRxAdvanced 0 adv_static_init (received (removelast short_stream))
                     255 = Ok (st1, g') /\
    errorStr st1 = error_too_short /\
    serialRxState g' = 0 /\
    published g' = [] /\
    totalDiscardedBytes g' = 10.
Proof.
  destruct (serialRxAdvanced_acts_on_the_verdict 0 adv_static_init
              (received (removelast short_stream)))
    as (_ & Hinvalid & Hshort & _).
  - reflexivity.
  - vm_compute. split; [discriminate | reflexivity].
  - reflexivity.
  - specialize (Hshort ltac:(vm_compute; reflexivity)).
    destruct (Hinvalid _ Hshort) as (g' & Hstep & Hs0 & _ & Hquiet).
    destruct (Hquiet eq_refl) as [Hp Hd].
    eexists _, g'. split; [exact Hstep|].
    split; [reflexivity|]. split; [exact Hs0|].
    split; [rewrite Hp | rewrite Hd]; vm_compute; reflexivity.
Defined.

(** A message of length zero leads back to its own identifier code: no
    chain starts there. *)
Lemma message_chain_zero_length buf bound c :
  rd buf (c + 1) = 0 -> rd buf c <> 240 -> ~ message_chain buf bound c.
Proof.
  intros H0 Hne Hch.
  induction Hch as [c _ _ Hend | c _ _ _ IH];
    rewrite H0, Z.add_0_r in *; auto.
Qed.

(** C6 fails on the code.  What the handler forwards follows the verdict
    of [validateAdvancedBmsPacket], and the verdict is not validity.  The
    packet FE 80 00 00 F0 0A FF 00 00 3B 96 FF is not a valid packet; a
    quiet device that receives it from the wire, the FF of its body sent
    as FA 05, publishes it as one record and counts none of its 12 bytes
    as discarded, where the policy has it dropped and counted.  The packet
    FE 80 00 00 01 0A 00 00 F0 76 37 FF, whose first message has length
    zero, is not valid either; the handler does not return from its end
    byte, whatever the fuel, so that it is neither forwarded nor counted.
    The frame of ten bytes is treated as the policy says: judged too
    short, dropped, and its ten bytes counted. *)
Theorem C6_quiet_device_forwards_an_invalid_packet :
  let g0 := power_on advanced_cfg 0 in
  verbose (particleEepromData g0) = false /\
  ~ valid_packet wrapping_packet 12 /\
  (forall fuel,
     exists st' g' m,
       feed (serialRxAdvanced (S fuel)) adv_static_init g0 wrapping_stream
         = Ok (st', g') /\
       serialRxState g' = 0 /\
       serialRxLength g' = 12 /\
       take 12 (serialRxBuffer g') = wrapping_packet /\
       published g' = [m] /\
       frame_of m = wrapping_packet /\
       totalDiscardedBytes g' = 0) /\
  ~ valid_packet stalling_stream 12 /\
  (forall fuel,
     feed (serialRxAdvanced fuel) adv_static_init g0 stalling_stream
       = Fault OutOfFuel) /\
  (forall fuel,
     exists st' g',
       feed (serialRxAdvanced fuel) adv_static_init g0 short_stream
         = Ok (st', g') /\
       errorStr st' = error_too_short /\
       serialRxState g' = 0 /\
       published g' = [] /\
       totalDiscardedBytes g' = 10).
Proof.
  cbv zeta. split; [reflexivity|]. split; [|split; [|split; [|split]]].
  5:{ intros fuel. eexists _, _. split; [vm_compute; reflexivity|].
      repeat split. }
  - intros (_ & _ & _ & Hchain).
    inversion Hchain;
      match goal with
      | Hb : _ + _ <= _ |- _ => vm_compute in Hb; apply Hb; reflexivity
      end.
  - intros fuel. eexists _, _, _.
    split; [vm_compute; reflexivity|].
    split; [reflexivity|]. split; [reflexivity|].
    split; [vm_compute; reflexivity|].
    split; [vm_compute; reflexivity|].
    split; vm_compute; reflexivity.
  - intros (_ & _ & _ & Hchain). revert Hchain.
    apply message_chain_zero_length;
      [reflexivity | vm_compute; discriminate].
  - intros fuel.
    change stalling_stream
      with (removelast stalling_stream ++ [255]).
    rewrite feed_app.
    replace (feed (serialRxAdvanced fuel) adv_static_init
               (power_on advanced_cfg 0) (removelast stalling_stream))
      with (Ok (adv_static_init, received (removelast stalling_stream)))
      by (vm_compute; reflexivity).
    cbn [rbind fst snd feed]. unfold serialRxAdvanced.
    replace (serialRxState (received (removelast stalling_stream))) with 1
      by (vm_compute; reflexivity).
    cbv beta iota. change (255 =? 255) with true. cbv iota.
    rewrite append_Ok by (vm_compute; split; [discriminate | reflexivity]).
    cbn [rbind].
    rewrite (validateAdvancedBmsPacket_stalls _ _ 10); try reflexivity.
    + vm_compute. auto.
    + vm_compute. discriminate.
Qed.

(** ** Valid packets are accepted *)

Lemma known_code_not_F0 c : known_code c -> c <> 240.
Proof. unfold known_code. cbn. intros H ->. intuition discriminate. Qed.

Lemma known_code_codes c : known_code c <-> In c (codes idCodeTable_init).
Proof. reflexivity. Qed.

(** A chain in the sense of the specification that stays below offset 256
    is followed link by link by the loop of [checkPacketFormat]. *)
Lemma message_chain_scanned buf bound c :
  message_chain buf bound c ->
  (forall i, 0 <= rd buf i) ->
  0 <= c -> bound < 256 ->
  forall tbl, codes tbl = codes idCodeTable_init ->
  exists fuel t,
    scanMessages fuel buf bound (rd buf c) (u8 (c + 1)) tbl = Ok (true, t).
Proof.
  intros Hchain Hbytes. induction Hchain as [c Hk Hb Hend | c Hk Hb Hrest IH];
    intros Hc Hbound tbl Htbl.
  - pose proof (Hbytes (c + 1)) as HL.
    assert (HL1 : 1 <= rd buf (c + 1)).
    { destruct (Z.eq_dec (rd buf (c + 1)) 0) as [E|E]; [|lia].
      rewrite E, Z.add_0_r in Hend.
      apply known_code_not_F0 in Hk. contradiction. }
    exists 1%nat. rewrite scanMessages_turn by assumption.
    unfold scan_turn.
    rewrite (proj2 (known_codeb_In _)) by exact Hk.
    rewrite (u8_small (c + 1)) by lia.
    replace (c + 1 + (rd buf (c + 1) - 1)) with (c + rd buf (c + 1)) by lia.
    rewrite (u8_small (c + rd buf (c + 1))) by lia.
    replace (bound <? c + rd buf (c + 1)) with false
      by (symmetry; apply Z.ltb_ge; exact Hb).
    rewrite Hend. cbn [Z.eqb Pos.eqb]. eauto.
  - pose proof (Hbytes (c + 1)) as HL.
    destruct (Z.eq_dec (rd buf (c + 1)) 0) as [E|E].
    { rewrite E, Z.add_0_r in IH. apply IH; assumption. }
    destruct (IH ltac:(lia) Hbound (bump (rd buf c) tbl))
      as (fuel & t & Hscan); [rewrite bump_codes; exact Htbl|].
    exists (S fuel), t. rewrite scanMessages_turn by assumption.
    unfold scan_turn.
    rewrite (proj2 (known_codeb_In _)) by exact Hk.
    rewrite (u8_small (c + 1)) by lia.
    replace (c + 1 + (rd buf (c + 1) - 1)) with (c + rd buf (c + 1)) by lia.
    rewrite (u8_small (c + rd buf (c + 1))) by lia.
    replace (bound <? c + rd buf (c + 1)) with false
      by (symmetry; apply Z.ltb_ge; exact Hb).
    assert (Hne : rd buf (c + rd buf (c + 1)) <> 240).
    { apply known_code_not_F0. inversion Hrest; assumption. }
    replace (rd buf (c + rd buf (c + 1)) =? 240) with false
      by (symmetry; apply Z.eqb_neq; exact Hne).
    exact Hscan.
Qed.

(** The conditions of the specification are sufficient: a packet of at
    most 259 bytes that meets them is judged valid. *)
Lemma valid_packet_accepted g st :
  valid_packet (serialRxBuffer g) (serialRxLength g) ->
  (forall i, 0 <= rd (serialRxBuffer g) i) ->
  serialRxLength g <= 259 ->
  codes (idCodeTable st) = codes idCodeTable_init ->
  exists st1, validateAdvancedBmsPacket 256 g st = Ok (true, st1).
Proof.
  intros (Hlen & Hcrc & Hid & Hchain) Hbytes Hmax Htbl.
  unfold validateAdvancedBmsPacket.
  replace (serialRxLength g <? ADVANCED_MIN_LENGTH) with false
    by (symmetry; apply Z.ltb_ge; exact Hlen).
  assert (Hv : validateCRC (serialRxBuffer g) (serialRxLength g) = true).
  { unfold validateCRC, advancedCrcUpdate.
    rewrite (u16_small (serialRxLength g - 4)) by lia.
    fold (packet_crc (serialRxBuffer g) (serialRxLength g)).
    rewrite Hcrc. cbn [fst snd]. rewrite !Z.eqb_refl. reflexivity. }
  rewrite Hv, Hid. cbn [negb Z.eqb Pos.eqb].
  unfold checkPacketFormat.
  rewrite (u8_small (serialRxLength g - 4)) by lia.
  destruct (message_chain_scanned _ _ _ Hchain Hbytes ltac:(lia) ltac:(lia)
              (map (set_count 0) (idCodeTable st)))
    as (fuel & t & Hscan); [rewrite codes_reset; exact Htbl|].
  apply scanMessages_256 in Hscan;
    [| lia | rewrite codes_reset; exact Htbl].
  rewrite Hscan. cbn [rbind fst snd]. eauto.
Qed.

(** ** The transfer id over whole runs *)

Lemma u8_u32 z : u8 (u32 z) = u8 z.
Proof.
  unfold u8, u32. apply Z.mod_mod_divide. exists 16777216. reflexivity.
Qed.

Lemma tx_inv_tx_side g g' : tx_side g' = tx_side g -> tx_inv g -> tx_inv g'.
Proof.
  unfold tx_side, tx_inv. intros [= -> -> -> ->]. auto.
Qed.

Lemma store_tx_side idx v g g' : store idx v g = Ok g' -> tx_side g' = tx_side g.
Proof.
  unfold store. destruct (_ && _); [|discriminate]. intros [= <-]. reflexivity.
Qed.

Lemma append_tx_side v g g' : append v g = Ok g' -> tx_side g' = tx_side g.
Proof.
  unfold append. intros H. apply rbind_Ok in H as (g1 & H1 & H2).
  injection H2 as <-. apply store_tx_side in H1. exact H1.
Qed.

Lemma tx_inv_forward g g' :
  serialTxEventToNimbus g = Ok g' -> tx_inv g -> tx_inv g'.
Proof.
  intros H [Hc _]. pose proof (serialTxEventToNimbus_publishes_one _ _ H) as [m Hm].
  apply serialTxEventToNimbus_fields in H.
  destruct H as (_ & _ & _ & _ & _ & _ & HId & HC & HN & _).
  unfold tx_inv. rewrite HId, HC, HN, Hc, u8_u32, u8_add_l.
  split; [|intros _; reflexivity].
  rewrite <- (u8_add_l (u32 _)), u8_u32, u8_add_l. reflexivity.
Qed.

Lemma tx_inv_store idx v g g' : store idx v g = Ok g' -> tx_inv g -> tx_inv g'.
Proof. intros H. apply tx_inv_tx_side. eapply store_tx_side. exact H. Qed.

Lemma tx_inv_append v g g' : append v g = Ok g' -> tx_inv g -> tx_inv g'.
Proof. intros H. apply tx_inv_tx_side. eapply append_tx_side. exact H. Qed.

Lemma tx_inv_set_serialRxState v g : tx_inv g -> tx_inv (set_serialRxState v g).
Proof. apply tx_inv_tx_side. reflexivity. Qed.

Lemma tx_inv_set_serialRxLength v g :
  tx_inv g -> tx_inv (set_serialRxLength v g).
Proof. apply tx_inv_tx_side. reflexivity. Qed.

Lemma tx_inv_set_totalDiscardedBytes v g :
  tx_inv g -> tx_inv (set_totalDiscardedBytes v g).
Proof. apply tx_inv_tx_side. reflexivity. Qed.

Create HintDb tx.
#[local] Hint Resolve tx_inv_store tx_inv_append tx_inv_forward
  tx_inv_set_serialRxState tx_inv_set_serialRxLength
  tx_inv_set_totalDiscardedBytes : tx.

(** Every branch of a handler, one at a time. *)
Ltac rx_cases H :=
  repeat first
    [ progress cbn [rbind fst snd] in H
    | match type of H with
      | Ok _ = Ok _ => injection H as <- <-
      | Fault _ = Ok _ => discriminate H
      | context [match ?x with _ => _ end] => destruct x eqn:?
      | rbind ?c _ = Ok _ => destruct c eqn:?
      end ].

Lemma serialRxGent_tx_inv st g c st' g' :
  serialRxGent st g c = Ok (st', g') -> tx_inv g -> tx_inv g'.
Proof.
  intros H Hinv. unfold serialRxGent, serialProcessGent in H.
  rx_cases H; eauto 8 with tx.
Qed.

Lemma serialRxAdvanced_tx_inv fuel st g c st' g' :
  serialRxAdvanced fuel st g c = Ok (st', g') -> tx_inv g -> tx_inv g'.
Proof.
  intros H Hinv. unfold serialRxAdvanced, advancedPacketReceptionError in H.
  rx_cases H; eauto 8 with tx.
Qed.

Lemma serialRxAdvancedAscii_tx_inv st g c st' g' :
  serialRxAdvancedAscii st g c = Ok (st', g') -> tx_inv g -> tx_inv g'.
Proof.
  intros H Hinv. unfold serialRxAdvancedAscii in H.
  rx_cases H; eauto 8 with tx.
Qed.

Lemma feed_tx_inv {S : Type}
  (rx : S -> globals -> Z -> result (S * globals)) :
  (forall st g c st' g', rx st g c = Ok (st', g') -> tx_inv g -> tx_inv g') ->
  forall bytes st g st' g',
    feed rx st g bytes = Ok (st', g') -> tx_inv g -> tx_inv g'.
Proof.
  intros Hrx. induction bytes as [|c rest IH]; intros st g st' g' H Hinv.
  - injection H as <- <-. exact Hinv.
  - cbn [feed] in H. apply rbind_Ok in H as ([st1 g1] & H1 & H2).
    cbn [fst snd] in H2. eapply IH; [exact H2|]. eapply Hrx; eauto.
Qed.

Lemma tx_inv_power_on cfg now : tx_inv (power_on cfg now).
Proof.
  split; [reflexivity|]. intros H. exfalso. apply H. reflexivity.
Qed.

(** C10. The transfer id starts at 1 and lives in an 8-bit counter that
    only the encoder writes and that runs one ahead of the count of
    forwarded events: the id written into a TransferRecord is the number
    of its event modulo 256, at most 255 although the field is 32 bits
    wide; the record of the next forwarded event, whatever the receive
    side did in between, carries that id plus one modulo 256; and this
    relation between counter and events survives every byte stream through
    each of the three parsers. *)
Theorem C10_rolling_transfer_id (g g1 h g2 : globals) :
  tx_inv g ->
  serialTxEventToNimbus g = Ok g1 ->
  tx_side h = tx_side g1 ->
  serialTxEventToNimbus h = Ok g2 ->
  (forall cfg now,
     uniqueTransferId (power_on cfg now) = 1 /\ tx_inv (power_on cfg now)) /\
  tr_uniqueTransferId (nimbusTransferMessage g1) = totalRxEvents g1 mod 256 /\
  tr_uniqueTransferId (nimbusTransferMessage g2)
    = (tr_uniqueTransferId (nimbusTransferMessage g1) + 1) mod 256 /\
  0 <= tr_uniqueTransferId (nimbusTransferMessage g1) <= 255 /\
  0 <= tr_uniqueTransferId (nimbusTransferMessage g2) <= 255 /\
  tx_inv g2 /\
  (forall st bytes st' g',
     feed serialRxGent st g2 bytes = Ok (st', g') -> tx_inv g') /\
  (forall fuel st bytes st' g',
     feed (serialRxAdvanced fuel) st g2 bytes = Ok (st', g') -> tx_inv g') /\
  (forall st bytes st' g',
     feed serialRxAdvancedAscii st g2 bytes = Ok (st', g') -> tx_inv g').
Proof.
  intros Hinv H1 Hh H2.
  pose proof (tx_inv_forward _ _ H1 Hinv) as Hinv1.
  pose proof (tx_inv_tx_side _ _ Hh Hinv1) as Hinvh.
  pose proof (tx_inv_forward _ _ H2 Hinvh) as Hinv2.
  pose proof (serialTxEventToNimbus_publishes_one _ _ H1) as [m1 Hm1].
  pose proof (serialTxEventToNimbus_publishes_one _ _ H2) as [m2 Hm2].
  destruct Hinv1 as [Hc1 Hp1]. pose proof Hinv2 as [Hc2 Hp2].
  assert (Hid1 : tr_uniqueTransferId (nimbusTransferMessage g1)
                 = u8 (totalRxEvents g1)).
  { apply Hp1. rewrite Hm1. intros E. apply app_eq_nil in E as [_ E].
    discriminate. }
  assert (Hid2 : tr_uniqueTransferId (nimbusTransferMessage g2)
                 = u8 (totalRxEvents g2)).
  { apply Hp2. rewrite Hm2. intros E. apply app_eq_nil in E as [_ E].
    discriminate. }
  assert (Hn2 : totalRxEvents g2 = u32 (totalRxEvents g1 + 1)).
  { apply serialTxEventToNimbus_fields in H2.
    destruct H2 as (_ & _ & _ & _ & _ & _ & _ & _ & HN & _).
    rewrite HN. unfold tx_side in Hh. injection Hh as _ -> _ _.
    reflexivity. }
  split; [intros cfg now; split; [reflexivity | apply tx_inv_power_on]|].
  split; [exact Hid1|]. split.
  { rewrite Hid2, Hid1, Hn2, u8_u32. fold (u8 (u8 (totalRxEvents g1) + 1)).
    rewrite u8_add_l. reflexivity. }
  pose proof (u8_range (totalRxEvents g1)) as R1.
  pose proof (u8_range (totalRxEvents g2)) as R2.
  split; [rewrite Hid1; lia|]. split; [rewrite Hid2; lia|].
  split; [exact Hinv2|].
  split; [|split].
  - intros st bytes st' g' H.
    exact (feed_tx_inv _ serialRxGent_tx_inv _ _ _ _ _ H Hinv2).
  - intros fuel st bytes st' g' H.
    exact (feed_tx_inv _ (serialRxAdvanced_tx_inv fuel) _ _ _ _ _ H Hinv2).
  - intros st bytes st' g' H.
    exact (feed_tx_inv _ serialRxAdvancedAscii_tx_inv _ _ _ _ _ H Hinv2).
Qed.

Lemma C10_rolling_transfer_id_witness :
  tr_uniqueTransferId (nimbusTransferMessage forwarded_once) = 1 /\
  tr_uniqueTransferId (nimbusTransferMessage forwarded_twice) = 2.
Proof.
  pose proof (C10_rolling_transfer_id
                holding_50 forwarded_once forwarded_once forwarded_twice) as W.
  destruct W as (_ & W1 & W2 & _).
  - apply tx_inv_set_serialRxLength, tx_inv_power_on.
  - vm_compute. reflexivity.
  - reflexivity.
  - vm_compute. reflexivity.
  - split; [rewrite W1 | rewrite W2, W1]; vm_compute; reflexivity.
Defined.

(** * Further properties of the engine *)

(** ** The encoder, byte by byte *)

(** X1. A frame of at most 227 bytes is published as 16 bytes of transfer
    header (type 0x83, length L + 24, the transfer id and a time stamp,
    both little-endian, and a zero fraction), 12 bytes of event header
    (the protocol id, length L + 8, a time stamp and a zero fraction) and
    then the L bytes of the frame, nothing after them.  The clock is read
    twice: the event header carries the first reading, the transfer header
    the second. *)
Theorem X1_publication_layout (g : globals) :
  0 <= serialRxLength g <= 227 ->
  (Z.to_nat (serialRxLength g) <= length (serialRxBuffer g))%nat ->
  exists g',
    serialTxEventToNimbus g = Ok g' /\
    Time_calls g' = S (S (Time_calls g)) /\
    published g'
    = published g ++
      [ [131; serialRxLength g + 24; 0; 0]
          ++ le32 (uniqueTransferId g)
          ++ le32 (Time_now g (S (Time_calls g))) ++ le32 0
          ++ [protocolId (particleEepromData g); serialRxLength g + 8; 0; 0]
          ++ le32 (Time_now g (Time_calls g)) ++ le32 0
          ++ take (Z.to_nat (serialRxLength g)) (serialRxBuffer g) ].
Proof.
  intros HL Hlen. unfold serialTxEventToNimbus.
  destruct (EVENT_DATA_SIZE <? serialRxLength g) eqn:E.
  { apply Z.ltb_lt in E. unfold EVENT_DATA_SIZE in E. lia. }
  eexists. split; [reflexivity|]. split; [reflexivity|].
  cbn [published]. do 2 f_equal.
  set (L := serialRxLength g) in *.
  rewrite (u8_small (L + 8)), (u8_small (L + 8 + 4)),
    (u8_small (L + 8 + 4 + 12)), (u8_small (L + 8 + 4 + 12 + 4)) by lia.
  unfold Message, Event, memcpy, le32.
  replace (Z.to_nat (L + 8 + 4 + 12 + 4)) with (28 + Z.to_nat L)%nat by lia.
  replace (Z.to_nat (L + 8 + 4)) with (12 + Z.to_nat L)%nat by lia.
  replace (L + 8 + 4 + 12) with (L + 24) by lia.
  rewrite (u8_small (L + 24)) by lia.
  cbn [tr_Type tr_Length tr_uniqueTransferId tr_TimeStamp tr_SecondFracPart
       tr_Data ev_Type ev_Length ev_TimeStamp ev_SecondFracPart ev_Data
       app take drop Nat.add].
  rewrite take_app_le.
  2:{ rewrite length_take, length_app, length_take. lia. }
  rewrite take_take, Nat.min_id.
  rewrite take_app_le by (rewrite length_take; lia).
  rewrite take_take, Nat.min_id. reflexivity.
Qed.

Lemma X1_publication_layout_witness :
  exists g',
    serialTxEventToNimbus holding_50_as_the_second_turns = Ok g' /\
    Time_calls g' = 2%nat /\
    published g'
    = [ [131; 74; 0; 0] ++ le32 1 ++ le32 1700000001 ++ le32 0
          ++ [5; 58; 0; 0] ++ le32 1700000000 ++ le32 0 ++ repeat 0 50 ].
Proof.
  destruct (X1_publication_layout holding_50_as_the_second_turns)
    as (g' & H1 & H2 & H3).
  - cbn. lia.
  - vm_compute. lia.
  - exists g'. split; [exact H1|]. split; [exact H2|].
    rewrite H3. reflexivity.
Defined.

(** X2. The lengths are kept in single bytes.  For a frame of 228 to 244
    bytes the count of bytes handed on wraps: what is published is a
    record of L - 228 bytes, no longer than the transfer header, and not
    one byte of the frame. *)
Theorem X2_long_frame_publishes_no_payload (g : globals) :
  228 <= serialRxLength g <= EVENT_DATA_SIZE ->
  exists g' m,
    serialTxEventToNimbus g = Ok g' /\
    published g' = published g ++ [m] /\
    length m = Z.to_nat (serialRxLength g - 228) /\
    frame_of m = [].
Proof.
  intros HL. unfold EVENT_DATA_SIZE in HL. unfold serialTxEventToNimbus.
  destruct (EVENT_DATA_SIZE <? serialRxLength g) eqn:E.
  { apply Z.ltb_lt in E. unfold EVENT_DATA_SIZE in E. lia. }
  do 2 eexists. split; [reflexivity|]. cbn [published].
  split; [reflexivity|].
  set (L := serialRxLength g) in *.
  rewrite !u8_idem, !u8_add_l.
  assert (Hw : u8 (u8 (L + 8 + 4) + 12 + 4) = L - 228).
  { rewrite <- Z.add_assoc, u8_add_l. unfold u8.
    replace (L + 8 + 4 + (12 + 4)) with (L - 228 + 1 * 256) by lia.
    rewrite Z.mod_add by lia. apply Z.mod_small. lia. }
  rewrite Hw.
  assert (Hn : (Z.to_nat (L - 228) <= 16)%nat) by lia.
  unfold Message, le32.
  cbn [tr_Type tr_Length tr_uniqueTransferId tr_TimeStamp tr_SecondFracPart
       app].
  split.
  - rewrite length_take. cbn [length]. lia.
  - unfold frame_of. apply drop_ge. rewrite length_take. cbn [length]. lia.
Qed.

Lemma X2_long_frame_publishes_no_payload_witness :
  exists g' m,
    serialTxEventToNimbus (set_serialRxLength 230 holding_50) = Ok g' /\
    published g' = [m] /\ length m = 2%nat /\ frame_of m = [].
Proof.
  destruct (X2_long_frame_publishes_no_payload
              (set_serialRxLength 230 holding_50)) as (g' & m & H1 & H2 & H3).
  - cbn. unfold EVENT_DATA_SIZE. lia.
  - exists g', m. split; [exact H1|]. split; [exact H2|]. exact H3.
Defined.

(** ** Counting the events *)

Lemma feed_invariant {S : Type} (P : globals -> Prop)
  (rx : S -> globals -> Z -> result (S * globals)) :
  (forall st g c st' g', rx st g c = Ok (st', g') -> P g -> P g') ->
  forall bytes st g st' g',
    feed rx st g bytes = Ok (st', g') -> P g -> P g'.
Proof.
  intros Hrx. induction bytes as [|c rest IH]; intros st g st' g' H Hinv.
  - injection H as <- <-. exact Hinv.
  - cbn [feed] in H. apply rbind_Ok in H as ([st1 g1] & H1 & H2).
    cbn [fst snd] in H2. eapply IH; [exact H2|]. eapply Hrx; eauto.
Qed.

Lemma events_counted_tx_side g g' :
  tx_side g' = tx_side g -> events_counted g -> events_counted g'.
Proof.
  unfold tx_side, events_counted. intros [= _ -> _ ->]. auto.
Qed.

Lemma events_counted_forward g g' :
  serialTxEventToNimbus g = Ok g' -> events_counted g -> events_counted g'.
Proof.
  intros H Hc. pose proof (serialTxEventToNimbus_publishes_one _ _ H) as [m Hm].
  apply serialTxEventToNimbus_fields in H.
  destruct H as (_ & _ & _ & _ & _ & _ & _ & _ & HN & _).
  unfold events_counted in *. rewrite HN, Hm, Hc, length_app. cbn [length].
  unfold u32. rewrite Nat2Z.inj_add, Zplus_mod_idemp_l. reflexivity.
Qed.

Lemma events_counted_store idx v g g' :
  store idx v g = Ok g' -> events_counted g -> events_counted g'.
Proof. intros H. apply events_counted_tx_side. eapply store_tx_side, H. Qed.

Lemma events_counted_append v g g' :
  append v g = Ok g' -> events_counted g -> events_counted g'.
Proof. intros H. apply events_counted_tx_side. eapply append_tx_side, H. Qed.

Lemma events_counted_set_serialRxState v g :
  events_counted g -> events_counted (set_serialRxState v g).
Proof. apply events_counted_tx_side. reflexivity. Qed.

Lemma events_counted_set_serialRxLength v g :
  events_counted g -> events_counted (set_serialRxLength v g).
Proof. apply events_counted_tx_side. reflexivity. Qed.

Lemma events_counted_set_totalDiscardedBytes v g :
  events_counted g -> events_counted (set_totalDiscardedBytes v g).
Proof. apply events_counted_tx_side. reflexivity. Qed.

Create HintDb cnt.
#[local] Hint Resolve events_counted_store events_counted_append
  events_counted_forward events_counted_set_serialRxState
  events_counted_set_serialRxLength
  events_counted_set_totalDiscardedBytes : cnt.

Lemma serialRxGent_events_counted st g c st' g' :
  serialRxGent st g c = Ok (st', g') -> events_counted g -> events_counted g'.
Proof.
  intros H Hinv. unfold serialRxGent, serialProcessGent in H.
  rx_cases H; eauto 8 with cnt.
Qed.

Lemma serialRxAdvanced_events_counted fuel st g c st' g' :
  serialRxAdvanced fuel st g c = Ok (st', g') ->
  events_counted g -> events_counted g'.
Proof.
  intros H Hinv. unfold serialRxAdvanced, advancedPacketReceptionError in H.
  rx_cases H; eauto 8 with cnt.
Qed.

Lemma serialRxAdvancedAscii_events_counted st g c st' g' :
  serialRxAdvancedAscii st g c = Ok (st', g') ->
  events_counted g -> events_counted g'.
Proof.
  intros H Hinv. unfold serialRxAdvancedAscii in H.
  rx_cases H; eauto 8 with cnt.
Qed.

(** X3. [totalRxEvents] counts the publications: at power-on both are
    zero, and after any byte stream through any of the three parsers the
    counter is the number of records published, modulo 2^32. *)
Theorem X3_events_counted (g : globals) :
  events_counted g ->
  (forall st bytes st' g',
     feed serialRxGent st g bytes = Ok (st', g') -> events_counted g') /\
  (forall fuel st bytes st' g',
     feed (serialRxAdvanced fuel) st g bytes = Ok (st', g') ->
     events_counted g') /\
  (forall st bytes st' g',
     feed serialRxAdvancedAscii st g bytes = Ok (st', g') ->
     events_counted g').
Proof.
  intros Hg. repeat split; intros.
  - eapply (feed_invariant events_counted); eauto.
    apply serialRxGent_events_counted.
  - eapply (feed_invariant events_counted); eauto.
    apply serialRxAdvanced_events_counted.
  - eapply (feed_invariant events_counted); eauto.
    apply serialRxAdvancedAscii_events_counted.
Qed.

Lemma X3_events_counted_witness :
  events_counted (power_on gent_cfg 0) /\
  match feed serialRxGent gent_static_init (power_on gent_cfg 0)
             gent_fire_frame with
  | Ok r => events_counted (snd r) /\ length (published (snd r)) = 1%nat
  | Fault _ => False
  end.
Proof.
  assert (H0 : events_counted (power_on gent_cfg 0)) by reflexivity.
  split; [exact H0|].
  destruct (feed serialRxGent gent_static_init (power_on gent_cfg 0)
                 gent_fire_frame) as [[st' g']|f] eqn:E.
  - split; [exact (proj1 (X3_events_counted _ H0) _ _ _ _ E)|].
    vm_compute in E. injection E as _ <-. reflexivity.
  - vm_compute in E. discriminate E.
Defined.

(** ** Gent event frames, from the first byte to the publication *)

Lemma gentEventPair_msb b0 b1 : gentEventPair b0 b1 = true -> 0 <= b0 <= 18.
Proof.
  intros H. destruct b0 as [|p|p]; [lia| |discriminate H].
  do 5 (destruct p as [p|p|]; try discriminate H; try lia).
Qed.

Lemma lookup_rd (a : list Z) (k : nat) :
  (k < length a)%nat -> a !! k = Some (rd a (Z.of_nat k)).
Proof.
  intros H. apply lookup_lt_is_Some_2 in H as [x Hx]. rewrite Hx. f_equal.
  unfold rd. rewrite Nat2Z.id. symmetry. apply nth_lookup_Some. exact Hx.
Qed.

Lemma take_S_rd (a : list Z) (k : nat) :
  (k < length a)%nat -> take (S k) a = take k a ++ [rd a (Z.of_nat k)].
Proof. intros H. apply take_S_r, lookup_rd, H. Qed.

Lemma take_S_wr (a : list Z) (k : nat) (v : Z) :
  (k < length a)%nat -> take (S k) (wr a (Z.of_nat k) v) = take k a ++ [v].
Proof.
  intros H. unfold wr. rewrite Nat2Z.id.
  rewrite (take_S_r _ _ v) by (apply list_lookup_insert_eq; exact H).
  rewrite take_insert_ge by lia. reflexivity.
Qed.

Lemma rd_of_take (a b : list Z) (k : nat) (i : Z) :
  take k a = take k b -> 0 <= i -> (Z.to_nat i < k)%nat -> rd a i = rd b i.
Proof.
  intros H Hi Hk. rewrite <- (rd_take a k i), <- (rd_take b k i) by assumption.
  rewrite H. reflexivity.
Qed.

(** One more byte of the frame, up to the first checksum byte. *)
Lemma gent_holds_next (f : list Z) (k : nat) (st : gent_static)
  (g : globals) :
  gent_event_frame f -> (k < 58)%nat -> gent_holds f k st g ->
  exists st' g',
    serialRxGent st g (rd f (Z.of_nat k)) = Ok (st', g') /\
    gent_holds f (S k) st' g' /\
    published g' = published g.
Proof.
  intros (Hlen & Hpair & Hack & Hnak & Hhi & Hlo) Hk
         (Hs & Hi & He & Hsum & Hbuf & Hb).
  set (c := rd f (Z.of_nat k)).
  assert (Hf : take (S k) f = take k f ++ [c])
    by (apply take_S_rd; lia).
  assert (Hw : take (S k) (wr (serialRxBuffer g) (Z.of_nat k) c)
               = take (S k) f)
    by (rewrite take_S_wr, Hbuf, Hf by lia; reflexivity).
  assert (Hi8 : u8 (Z.of_nat k + 1) = Z.of_nat (S k))
    by (rewrite u8_small; lia).
  unfold serialRxGent. rewrite Hs.
  destruct k as [|[|k]].
  - (* the event MSB *)
    cbn [gent_phase]. apply gentEventPair_msb in Hpair.
    change (rd f 0) with c in Hpair.
    replace (18 <? c) with false by (symmetry; apply Z.ltb_ge; lia).
    change (Z.of_nat 0) with 0 in *.
    rewrite store_Ok by (unfold SERIAL_RX_BUFFER_SIZE; lia). cbn [rbind].
    eexists _, _. split; [reflexivity|]. split; [|reflexivity].
    unfold gent_holds. gent_fields.
    repeat split; try reflexivity; try lia; try exact Hw;
      try (rewrite length_wr; exact Hb).
    + intros _. change (Nat.min 1 57) with 1%nat. rewrite Hf.
      cbn [take app]. symmetry. apply checksum16_single.
  - (* the event LSB *)
    cbn [gent_phase]. rewrite Hi by lia. change (Z.of_nat 1) with 1 in *.
    rewrite store_Ok by (unfold SERIAL_RX_BUFFER_SIZE; lia). cbn [rbind].
    assert (Hv : rxGentValidateEventPair
                   (set_serialRxBuffer (wr (serialRxBuffer g) 1 c) g)
                 = true).
    { unfold rxGentValidateEventPair. gent_fields.
      rewrite (rd_of_take _ f 2 0 Hw), (rd_of_take _ f 2 1 Hw) by lia.
      exact Hpair. }
    rewrite Hv.
    replace ((c =? ASCII_ACK) || (c =? ASCII_NAK)) with false.
    2:{ symmetry. apply orb_false_iff. split; apply Z.eqb_neq; assumption. }
    eexists _, _. split; [reflexivity|]. split; [|reflexivity].
    unfold gent_holds. gent_fields.
    repeat split; try reflexivity; try lia; try exact Hw;
      try (rewrite length_wr; exact Hb).
    + intros _. rewrite Hsum by lia. change (Nat.min 2 57) with 2%nat.
      change (Nat.min 1 57) with 1%nat. rewrite Hf.
      symmetry. apply checksum16_snoc.
  - (* the body, and the first checksum byte *)
    set (n := S (S k)) in *.
    assert (Hn : (2 <= n)%nat) by (subst n; lia).
    rewrite Hi, He by lia.
    assert (Hph : forall j, (2 <= j)%nat ->
              gent_phase j = if (j <=? 56)%nat then 2
                             else if (j =? 57)%nat then 3 else 4).
    { intros [|[|j]] Hj; [lia | lia | reflexivity]. }
    rewrite (Hph n Hn). rewrite Hi8.
    destruct (n <=? 56)%nat eqn:E56.
    + apply Nat.leb_le in E56.
      assert (Hadd : u16 (rxChecksum st + c)
                     = checksum16 (take (Nat.min (S n) 57) f)).
      { rewrite Hsum by lia.
        replace (Nat.min (S n) 57) with (S n) by lia.
        replace (Nat.min n 57) with n by lia.
        rewrite Hf. symmetry. apply checksum16_snoc. }
      destruct (Z.of_nat n <? 56) eqn:E.
      * apply Z.ltb_lt in E.
        rewrite store_Ok by (unfold SERIAL_RX_BUFFER_SIZE; lia). cbn [rbind].
        eexists _, _. split; [reflexivity|]. split; [|reflexivity].
        unfold gent_holds. gent_fields.
        repeat split; try reflexivity; try lia; try exact Hw;
      try (rewrite length_wr; exact Hb).
        -- rewrite Hs, !Hph by lia.
           replace (n <=? 56)%nat with true
             by (symmetry; apply Nat.leb_le; lia).
           replace (S n <=? 56)%nat with true
             by (symmetry; apply Nat.leb_le; lia).
           reflexivity.
      * apply Z.ltb_ge in E. assert (n = 56%nat) by lia.
        rewrite store_Ok by (unfold SERIAL_RX_BUFFER_SIZE; lia). cbn [rbind].
        eexists _, _. split; [reflexivity|]. split; [|reflexivity].
        unfold gent_holds. gent_fields.
        repeat split; try reflexivity; try lia; try exact Hw;
      try (rewrite length_wr; exact Hb).
        -- subst n. rewrite H. reflexivity.
    + apply Nat.leb_gt in E56. assert (H57 : n = 57%nat) by lia.
      assert (Hc : c = checksum16 (take 57 f) `div` 256)
        by (subst c; rewrite H57; exact Hhi).
      rewrite H57 in *. cbn [Nat.eqb]. cbv beta iota.
      change (Nat.min 57 57) with 57%nat in Hsum.
      change (Z.of_nat 57) with 57 in *.
      rewrite Hsum by lia.
      rewrite checksum_hi_byte by apply checksum16_range.
      replace (c =? checksum16 (take 57 f) `div` 256) with true
        by (symmetry; apply Z.eqb_eq; exact Hc).
      rewrite store_Ok by (unfold SERIAL_RX_BUFFER_SIZE; lia). cbn [rbind].
      eexists _, _. split; [reflexivity|]. split; [|reflexivity].
      unfold gent_holds. gent_fields.
      repeat split; try reflexivity; try lia; try exact Hw;
      try (rewrite length_wr; exact Hb).
Qed.

Lemma gent_holds_prefix (f : list Z) (st : gent_static) (g : globals) :
  gent_event_frame f ->
  serialRxState g = 0 -> length (serialRxBuffer g) = 512%nat ->
  forall k, (k <= 58)%nat ->
  exists st' g',
    feed serialRxGent st g (take k f) = Ok (st', g') /\
    gent_holds f k st' g' /\
    published g' = published g.
Proof.
  intros Hf Hs Hb. induction k as [|k IH]; intros Hk.
  - exists st, g. split; [reflexivity|]. split; [|reflexivity].
    unfold gent_holds. repeat split; try assumption; lia.
  - destruct IH as (st1 & g1 & H1 & Hh & Hp); [lia|].
    destruct (gent_holds_next f k st1 g1 Hf) as (st2 & g2 & H2 & Hh2 & Hp2);
      [lia | exact Hh |].
    exists st2, g2. split; [|split; [exact Hh2 | congruence]].
    rewrite take_S_rd by (destruct Hf as [-> _]; lia).
    rewrite feed_app, H1. cbn [rbind fst snd feed]. rewrite H2. reflexivity.
Qed.

(** Bytes above 0x12 never open a frame. *)
Lemma gent_skips (junk : list Z) (st : gent_static) (g : globals) :
  serialRxState g = 0 -> Forall (fun c => 18 < c) junk ->
  feed serialRxGent st g junk = Ok (st, g).
Proof.
  intros Hs H. induction H as [|c junk Hc _ IH]; [reflexivity|].
  cbn [feed]. unfold serialRxGent at 1. rewrite Hs.
  replace (18 <? c) with true by (symmetry; apply Z.ltb_lt; exact Hc).
  cbn [rbind fst snd]. exact IH.
Qed.

(** X4. Completeness of the Gent parser: a 59-byte event frame with the
    right checksum, arriving while the parser waits for a frame and
    preceded by any number of bytes above 0x12, is published once, byte
    for byte, and leaves the parser waiting for the next frame. *)
Theorem X4_gent_event_frame_is_forwarded
  (junk f : list Z) (st : gent_static) (g : globals) :
  gent_event_frame f ->
  Forall (fun c => 18 < c) junk ->
  serialRxState g = 0 ->
  length (serialRxBuffer g) = 512%nat ->
  exists st' g' m,
    feed serialRxGent st g (junk ++ f) = Ok (st', g') /\
    published g' = published g ++ [m] /\
    frame_of m = f /\
    serialRxState g' = 0 /\
    serialRxLength g' = 59.
Proof.
  intros Hf Hj Hs Hb.
  destruct (gent_holds_prefix f st g Hf Hs Hb 58) as (st1 & g1 & H1 & Hh & Hp);
    [lia|].
  pose proof Hf as (Hlen & _ & _ & _ & _ & Hlo).
  destruct Hh as (Hs1 & Hi & He & Hsum & Hbuf & Hb1).
  change (gent_phase 58) with 4 in Hs1.
  change (Nat.min 58 57) with 57%nat in Hsum.
  set (g2 := set_serialRxLength 59
               (set_serialRxBuffer (wr (serialRxBuffer g1) 58 (rd f 58)) g1)).
  assert (Hbuf2 : take 59 (serialRxBuffer g2) = f).
  { subst g2. gent_fields.
    rewrite (take_S_wr _ 58) by lia. rewrite Hbuf.
    replace (take 58 f ++ [rd f 58]) with (take 59 f)
      by (apply (take_S_rd f 58); lia).
    apply take_ge. lia. }
  destruct (serialTxEventToNimbus_fits g2) as [g3 H3];
    [unfold EVENT_DATA_SIZE; subst g2; gent_fields; lia|].
  destruct (serialTxEventToNimbus_published g2 g3 H3) as (m & Hm & Hd).
  { subst g2. gent_fields. lia. }
  { subst g2. gent_fields. rewrite length_wr. lia. }
  pose proof (serialTxEventToNimbus_fields _ _ H3)
    as (_ & _ & _ & _ & _ & _ & _ & _ & _ & _ & _ & HL3 & _).
  exists {| gent_i := 59; rxExpectedLen := rxExpectedLen st1;
            rxChecksum := rxChecksum st1 |}, (set_serialRxState 0 g3), m.
  split.
  - rewrite feed_app, (gent_skips junk st g Hs Hj). cbn [rbind fst snd].
    rewrite <- (take_ge f 59) at 1 by lia.
    rewrite (take_S_rd f 58) by lia.
    rewrite feed_app, H1. cbn [rbind fst snd feed].
    unfold serialRxGent. rewrite Hs1, Hi, Hsum by lia.
    rewrite checksum_lo_byte by apply checksum16_range.
    change (Z.of_nat 58) with 58.
    replace (rd f 58 =? checksum16 (take 57 f) `mod` 256) with true
      by (symmetry; apply Z.eqb_eq; exact Hlo).
    rewrite store_Ok by (unfold SERIAL_RX_BUFFER_SIZE; lia).
    cbn [rbind]. change (u8 (58 + 1) =? 59) with true. cbv beta iota.
    unfold serialProcessGent. change (u8 (58 + 1)) with 59.
    fold g2. rewrite H3. reflexivity.
  - gent_fields. split; [rewrite Hm; subst g2; gent_fields; congruence|].
    split; [unfold frame_of; rewrite Hd; subst g2; gent_fields; exact Hbuf2|].
    split; [reflexivity|]. rewrite HL3. reflexivity.
Qed.

Lemma X4_gent_event_frame_is_forwarded_witness :
  exists st' g' m,
    feed serialRxGent gent_static_init (power_on gent_cfg 0)
         ([255; 19] ++ gent_fire_frame) = Ok (st', g') /\
    published g' = published (power_on gent_cfg 0) ++ [m] /\
    frame_of m = gent_fire_frame /\
    serialRxState g' = 0 /\
    serialRxLength g' = 59.
Proof.
  apply (X4_gent_event_frame_is_forwarded [255; 19] gent_fire_frame).
  - unfold gent_event_frame. vm_compute.
    repeat split; try reflexivity; discriminate.
  - repeat constructor.
  - reflexivity.
  - reflexivity.
Defined.

(** X5. A frame whose checksum does not match is dropped on the spot: a
    wrong high byte, or a wrong low byte after the right high byte, sends
    the parser back to waiting and nothing is published. *)
Theorem X5_gent_checksum_mismatch_drops
  (f : list Z) (c : Z) (st : gent_static) (g : globals) :
  gent_event_frame f ->
  serialRxState g = 0 ->
  length (serialRxBuffer g) = 512%nat ->
  (c <> rd f 57 ->
   exists st' g',
     feed serialRxGent st g (take 57 f ++ [c]) = Ok (st', g') /\
     serialRxState g' = 0 /\ published g' = published g) /\
  (c <> rd f 58 ->
   exists st' g',
     feed serialRxGent st g (take 58 f ++ [c]) = Ok (st', g') /\
     serialRxState g' = 0 /\ published g' = published g).
Proof.
  intros Hf Hs Hb. pose proof Hf as (Hlen & _ & _ & _ & Hhi & Hlo). split.
  - intros Hc.
    destruct (gent_holds_prefix f st g Hf Hs Hb 57)
      as (st1 & g1 & H1 & Hh & Hp); [lia|].
    destruct Hh as (Hs1 & Hi & He & Hsum & Hbuf & Hb1).
    change (gent_phase 57) with 3 in Hs1.
    change (Nat.min 57 57) with 57%nat in Hsum.
    exists st1, (set_serialRxState 0 g1).
    split; [|split; [reflexivity | exact Hp]].
    rewrite feed_app, H1. cbn [rbind fst snd feed].
    unfold serialRxGent. rewrite Hs1, Hsum by lia.
    rewrite checksum_hi_byte by apply checksum16_range.
    replace (c =? checksum16 (take 57 f) `div` 256) with false
      by (symmetry; apply Z.eqb_neq; congruence).
    reflexivity.
  - intros Hc.
    destruct (gent_holds_prefix f st g Hf Hs Hb 58)
      as (st1 & g1 & H1 & Hh & Hp); [lia|].
    destruct Hh as (Hs1 & Hi & He & Hsum & Hbuf & Hb1).
    change (gent_phase 58) with 4 in Hs1.
    change (Nat.min 58 57) with 57%nat in Hsum.
    exists st1, (set_serialRxState 0 g1).
    split; [|split; [reflexivity | exact Hp]].
    rewrite feed_app, H1. cbn [rbind fst snd feed].
    unfold serialRxGent. rewrite Hs1, Hsum by lia.
    rewrite checksum_lo_byte by apply checksum16_range.
    replace (c =? checksum16 (take 57 f) `mod` 256) with false
      by (symmetry; apply Z.eqb_neq; congruence).
    reflexivity.
Qed.

Lemma X5_gent_checksum_mismatch_drops_witness :
  (exists st' g',
     feed serialRxGent gent_static_init (power_on gent_cfg 0)
          (take 57 gent_fire_frame ++ [1]) = Ok (st', g') /\
     serialRxState g' = 0 /\
     published g' = published (power_on gent_cfg 0)) /\
  (exists st' g',
     feed serialRxGent gent_static_init (power_on gent_cfg 0)
          (take 58 gent_fire_frame ++ [11]) = Ok (st', g') /\
     serialRxState g' = 0 /\
     published g' = published (power_on gent_cfg 0)).
Proof.
  assert (Hf : gent_event_frame gent_fire_frame).
  { unfold gent_event_frame. vm_compute.
    repeat split; try reflexivity; discriminate. }
  pose proof (X5_gent_checksum_mismatch_drops gent_fire_frame 1
                gent_static_init (power_on gent_cfg 0) Hf eq_refl eq_refl)
    as [H1 _].
  pose proof (X5_gent_checksum_mismatch_drops gent_fire_frame 11
                gent_static_init (power_on gent_cfg 0) Hf eq_refl eq_refl)
    as [_ H2].
  split.
  - apply H1. vm_compute. discriminate.
  - apply H2. vm_compute. discriminate.
Defined.

(** ** Where the Gent parser writes *)

Lemma tail_is_store T idx v g g' :
  store idx v g = Ok g' -> 0 <= idx <= 58 -> tail_is T g -> tail_is T g'.
Proof.
  unfold store, tail_is. destruct (_ && _); [|discriminate].
  intros [= <-] Hi <-. cbn [serialRxBuffer set_serialRxBuffer]. unfold wr.
  apply drop_insert_lt. lia.
Qed.

Lemma tail_is_forward T g g' :
  serialTxEventToNimbus g = Ok g' -> tail_is T g -> tail_is T g'.
Proof.
  intros H. apply serialTxEventToNimbus_fields in H.
  destruct H as (_ & _ & _ & _ & _ & _ & _ & _ & _ & _ & Hb & _).
  unfold tail_is. rewrite Hb. auto.
Qed.

Lemma tail_is_set_serialRxState T v g :
  tail_is T g -> tail_is T (set_serialRxState v g).
Proof. auto. Qed.

Lemma tail_is_set_serialRxLength T v g :
  tail_is T g -> tail_is T (set_serialRxLength v g).
Proof. auto. Qed.

Create HintDb tail.
#[local] Hint Resolve tail_is_store tail_is_forward tail_is_set_serialRxState
  tail_is_set_serialRxLength : tail.
#[local] Hint Extern 1 (_ <= _ <= _) => lia : tail.

Lemma serialRxGent_tail T st g c st' g' :
  gent_inv st g ->
  serialRxGent st g c = Ok (st', g') -> tail_is T g -> tail_is T g'.
Proof.
  intros Hinv H HT. unfold serialRxGent, serialProcessGent in H.
  destruct Hinv as [Hs | Hs Hi Hsum | Hs Hi He Hsum Hp | Hs Hi
                   | Hs Hi Hsum Hp | Hs Hi | Hs Hi Hsum Hhi Hp];
    rewrite Hs in H; cbv beta iota in H;
    rx_cases H; eauto 8 with tail.
Qed.

(** X6. The Gent parser keeps inside its frame: whatever bytes arrive,
    it never faults and never writes [serialRxBuffer] behind index 58. *)
Theorem X6_gent_writes_within_the_frame
  (bytes : list Z) (st : gent_static) (g : globals) :
  serialRxState g = 0 ->
  length (serialRxBuffer g) = 512%nat ->
  Forall is_u8 bytes ->
  exists st' g',
    feed serialRxGent st g bytes = Ok (st', g') /\
    drop 59 (serialRxBuffer g') = drop 59 (serialRxBuffer g) /\
    length (serialRxBuffer g') = 512%nat.
Proof.
  intros Hs Hb Hall.
  assert (Hinv : gent_inv st g) by (apply GentWaitMsb; exact Hs).
  assert (HT : tail_is (drop 59 (serialRxBuffer g)) g) by reflexivity.
  revert HT. generalize (drop 59 (serialRxBuffer g)) as T. intros T.
  clear Hs. revert st g Hb Hinv.
  induction Hall as [|c rest Hc _ IH]; intros st g Hb Hinv HT.
  - exists st, g. auto.
  - destruct (gent_step st g c Hb Hinv Hc) as (st1 & g1 & H1 & Hb1 & Hi1 & _).
    destruct (IH st1 g1 Hb1 Hi1) as (st2 & g2 & H2 & HT2 & Hb2).
    { exact (serialRxGent_tail T st g c st1 g1 Hinv H1 HT). }
    exists st2, g2. cbn [feed]. rewrite H1. cbn [rbind fst snd].
    auto.
Qed.

Lemma X6_gent_writes_within_the_frame_witness :
  exists st' g',
    feed serialRxGent gent_static_init (power_on gent_cfg 0)
         (gent_fire_frame ++ gent_fire_frame) = Ok (st', g') /\
    drop 59 (serialRxBuffer g')
      = drop 59 (serialRxBuffer (power_on gent_cfg 0)) /\
    length (serialRxBuffer g') = 512%nat.
Proof.
  apply (X6_gent_writes_within_the_frame (gent_fire_frame ++ gent_fire_frame)).
  - reflexivity.
  - reflexivity.
  - apply all_u8_Forall. vm_compute. reflexivity.
Defined.

(** The checksum bytes of an ACK or NAK, one state at a time. *)
Lemma gent_wait_msb st g c :
  serialRxState g = 0 ->
  exists st' g',
    serialRxGent st g c = Ok (st', g') /\
    published g' = published g /\
    (serialRxState g' = 0 \/ serialRxState g' = 1).
Proof.
  intros Hs. unfold serialRxGent. rewrite Hs.
  destruct (18 <? c).
  - exists st, g. auto.
  - unfold store. gent_fields.
    change ((0 <=? 0) && (0 <? SERIAL_RX_BUFFER_SIZE)) with true.
    cbn [rbind]. eexists _, _. split; [reflexivity|]. gent_fields. auto.
Qed.

Lemma gent_ack_hi st g c :
  serialRxState g = 3 -> gent_i st = 2 ->
  exists st' g',
    serialRxGent st g c = Ok (st', g') /\
    published g' = published g /\
    (serialRxState g' = 0 \/ serialRxState g' = 4 /\ gent_i st' = 3).
Proof.
  intros Hs Hi. unfold serialRxGent. rewrite Hs, Hi.
  destruct (c =? _).
  - unfold store. gent_fields.
    change ((0 <=? 2) && (2 <? SERIAL_RX_BUFFER_SIZE)) with true.
    cbn [rbind]. eexists _, _. split; [reflexivity|]. gent_fields.
    split; [reflexivity|]. right. split; reflexivity.
  - eexists _, _. split; [reflexivity|]. gent_fields. auto.
Qed.

Lemma gent_ack_lo st g c :
  serialRxState g = 4 -> gent_i st = 3 ->
  exists st' g',
    serialRxGent st g c = Ok (st', g') /\
    published g' = published g /\
    serialRxState g' = 0.
Proof.
  intros Hs Hi. unfold serialRxGent. rewrite Hs, Hi.
  destruct (c =? _).
  - unfold store. gent_fields.
    change ((0 <=? 3) && (3 <? SERIAL_RX_BUFFER_SIZE)) with true.
    cbn [rbind]. change (u8 (3 + 1) =? 59) with false. cbv beta iota.
    eexists _, _. split; [reflexivity|]. gent_fields. auto.
  - eexists _, _. split; [reflexivity|]. gent_fields. auto.
Qed.

Lemma gent_ack_pair b0 b1 st g :
  gentEventPair b0 b1 = true ->
  b1 = ASCII_ACK \/ b1 = ASCII_NAK ->
  serialRxState g = 0 ->
  length (serialRxBuffer g) = 512%nat ->
  exists st2 g2,
    feed serialRxGent st g [b0; b1] = Ok (st2, g2) /\
    serialRxState g2 = 3 /\ gent_i st2 = 2 /\
    published g2 = published g.
Proof.
  intros Hp Hb1 Hs Hb. pose proof (gentEventPair_msb _ _ Hp) as Hr.
  assert (Ha : (b1 =? ASCII_ACK) || (b1 =? ASCII_NAK) = true).
  { apply orb_true_iff. destruct Hb1 as [-> | ->]; auto. }
  set (g1 := set_serialRxBuffer (wr (serialRxBuffer g) 0 b0)
               (set_serialRxState 1 g)).
  set (st1 := {| gent_i := 1; rxExpectedLen := rxExpectedLen st;
                 rxChecksum := u16 b0 |}).
  assert (H1 : serialRxGent st g b0 = Ok (st1, g1)).
  { unfold serialRxGent. rewrite Hs.
    replace (18 <? b0) with false by (symmetry; apply Z.ltb_ge; lia).
    unfold store. gent_fields.
    change ((0 <=? 0) && (0 <? SERIAL_RX_BUFFER_SIZE)) with true.
    reflexivity. }
  set (g2 := set_serialRxBuffer (wr (serialRxBuffer g1) 1 b1) g1).
  assert (Hv : rxGentValidateEventPair g2 = true).
  { unfold rxGentValidateEventPair. subst g2 g1. gent_fields.
    rewrite rd_wr_same by (rewrite ?length_wr; lia).
    rewrite rd_wr_other, rd_wr_same by lia. exact Hp. }
  assert (H2 : serialRxGent st1 g1 b1
               = Ok ({| gent_i := 2; rxExpectedLen := rxExpectedLen st;
                        rxChecksum := u16 (u16 b0 + b1) |},
                     set_serialRxState 3 g2)).
  { unfold serialRxGent.
    change (serialRxState g1) with 1. cbv beta iota.
    change (gent_i st1) with 1.
    unfold store.
    change ((0 <=? 1) && (1 <? SERIAL_RX_BUFFER_SIZE)) with true.
    cbv beta iota. cbn [rbind]. fold g2. rewrite Hv, Ha. reflexivity. }
  eexists _, _. cbn [feed]. rewrite H1. cbn [rbind fst snd]. rewrite H2.
  cbn [rbind fst snd]. split; [reflexivity|]. repeat split.
Qed.

(** X7. An event pair that ends in 0x06 or 0x15 is taken for an ACK or a
    NAK whatever its first byte: the parser expects the two checksum bytes
    at once, so the two bytes that follow publish nothing and the parser
    ends waiting for a frame or for the second byte of one. *)
Theorem X7_gent_ack_like_pair_is_never_an_event
  (b0 b1 c2 c3 : Z) (st : gent_static) (g : globals) :
  gentEventPair b0 b1 = true ->
  b1 = ASCII_ACK \/ b1 = ASCII_NAK ->
  serialRxState g = 0 ->
  length (serialRxBuffer g) = 512%nat ->
  exists st2 g2 st' g',
    feed serialRxGent st g [b0; b1] = Ok (st2, g2) /\
    serialRxState g2 = 3 /\
    feed serialRxGent st2 g2 [c2; c3] = Ok (st', g') /\
    published g' = published g /\
    (serialRxState g' = 0 \/ serialRxState g' = 1).
Proof.
  intros Hp Hb1 Hs Hb.
  destruct (gent_ack_pair b0 b1 st g Hp Hb1 Hs Hb)
    as (st2 & g2 & H2 & Hs2 & Hi2 & Hp2).
  destruct (gent_ack_hi st2 g2 c2 Hs2 Hi2)
    as (st3 & g3 & H3 & Hp3 & [Hs3 | [Hs3 Hi3]]).
  - destruct (gent_wait_msb st3 g3 c3 Hs3) as (st4 & g4 & H4 & Hp4 & Hs4).
    exists st2, g2, st4, g4. split; [exact H2|]. split; [exact Hs2|].
    split; [cbn [feed]; rewrite H3; cbn [rbind fst snd]; rewrite H4;
            reflexivity|].
    split; [congruence | exact Hs4].
  - destruct (gent_ack_lo st3 g3 c3 Hs3 Hi3) as (st4 & g4 & H4 & Hp4 & Hs4).
    exists st2, g2, st4, g4. split; [exact H2|]. split; [exact Hs2|].
    split; [cbn [feed]; rewrite H3; cbn [rbind fst snd]; rewrite H4;
            reflexivity|].
    split; [congruence | left; exact Hs4].
Qed.

Lemma X7_gent_ack_like_pair_is_never_an_event_witness :
  exists st2 g2 st' g',
    feed serialRxGent gent_static_init (power_on gent_cfg 0) [4; 6]
      = Ok (st2, g2) /\
    serialRxState g2 = 3 /\
    feed serialRxGent st2 g2 [0; 10] = Ok (st', g') /\
    published g' = published (power_on gent_cfg 0) /\
    (serialRxState g' = 0 \/ serialRxState g' = 1).
Proof.
  apply (X7_gent_ack_like_pair_is_never_an_event 4 6 0 10).
  - reflexivity.
  - left. reflexivity.
  - reflexivity.
  - reflexivity.
Defined.

(** ** The CRC of the Advanced protocol *)

Lemma lxor_u8 a b : is_u8 a -> is_u8 b -> is_u8 (Z.lxor a b).
Proof.
  unfold is_u8. intros [Ha1 Ha2] [Hb1 Hb2].
  assert (H0 : 0 <= Z.lxor a b) by (apply Z.lxor_nonneg; lia).
  split; [exact H0|].
  destruct (Z.eq_dec (Z.lxor a b) 0) as [-> | Hn]; [lia|].
  change 256 with (2 ^ 8). apply Z.log2_lt_pow2; [lia|].
  pose proof (Z.log2_lxor a b Ha1 Hb1) as Hl.
  assert (Z.log2 a < 8).
  { destruct (Z.eq_dec a 0) as [-> | ?]; [cbn; lia|].
    apply Z.log2_lt_pow2; [lia|]. exact Ha2. }
  assert (Z.log2 b < 8).
  { destruct (Z.eq_dec b 0) as [-> | ?]; [cbn; lia|].
    apply Z.log2_lt_pow2; [lia|]. exact Hb2. }
  lia.
Qed.

Lemma rd_Forall (P : Z -> Prop) (a : list Z) (i : Z) :
  Forall P a -> 0 <= i -> (Z.to_nat i < length a)%nat -> P (rd a i).
Proof.
  intros H Hi Hl. rewrite Forall_forall in H. apply H.
  apply list_elem_of_In. unfold rd. apply nth_In. exact Hl.
Qed.

Lemma crc_tables_u8 :
  Forall is_u8 crc_table_low /\ Forall is_u8 crc_table_high.
Proof.
  split; apply all_u8_Forall; vm_compute; reflexivity.
Qed.

Lemma crc_table_low_NoDup : NoDup crc_table_low.
Proof. apply (bool_decide_unpack _). vm_compute. exact I. Qed.

(** No two indices of [crc_table_low] hold the same value. *)
Lemma crc_table_low_inj i j :
  is_u8 i -> is_u8 j -> rd crc_table_low i = rd crc_table_low j -> i = j.
Proof.
  unfold is_u8. intros Hi Hj H.
  assert (Hl : length crc_table_low = 256%nat) by reflexivity.
  assert (Hn : Z.to_nat i = Z.to_nat j).
  { apply (NoDup_lookup crc_table_low _ _ (rd crc_table_low i)).
    - apply crc_table_low_NoDup.
    - rewrite <- (Z2Nat.id i) at 2 by lia. apply lookup_rd. lia.
    - rewrite H. rewrite <- (Z2Nat.id j) at 2 by lia. apply lookup_rd. lia. }
  lia.
Qed.

Lemma crc_step_u8 crc b : crc_u8 crc -> is_u8 b -> crc_u8 (crc_step crc b).
Proof.
  intros [Hh Hl] Hb. pose proof crc_tables_u8 as [TL TH].
  pose proof (lxor_u8 _ _ Hh Hb) as Hx. unfold crc_step, crc_u8.
  cbn [fst snd]. split.
  - apply lxor_u8; [exact Hl|].
    apply rd_Forall; [exact TH | apply Hx |].
    change (length crc_table_high) with 256%nat. unfold is_u8 in Hx. lia.
  - apply rd_Forall; [exact TL | apply Hx |].
    change (length crc_table_low) with 256%nat. unfold is_u8 in Hx. lia.
Qed.

Lemma crc_fold_u8 l : forall crc,
  crc_u8 crc -> Forall is_u8 l -> crc_u8 (fold_left crc_step l crc).
Proof.
  induction l as [|b l IH]; intros crc Hc Hl; [exact Hc|].
  cbn [fold_left]. apply Forall_cons in Hl as [Hb Hl].
  apply IH; [apply crc_step_u8; assumption | exact Hl].
Qed.

Lemma lxor_cancel_l a b c : Z.lxor a b = Z.lxor a c -> b = c.
Proof.
  intros H. rewrite <- (Z.lxor_0_l b), <- (Z.lxor_0_l c).
  rewrite <- (Z.lxor_nilpotent a), !Z.lxor_assoc, H. reflexivity.
Qed.

Lemma lxor_cancel_r a b c : Z.lxor b a = Z.lxor c a -> b = c.
Proof. rewrite !(Z.lxor_comm _ a). apply lxor_cancel_l. Qed.

(** From one state, two different bytes lead to two different states. *)
Lemma crc_step_inj_byte crc b b' :
  crc_u8 crc -> is_u8 b -> is_u8 b' ->
  crc_step crc b = crc_step crc b' -> b = b'.
Proof.
  intros [Hh Hl] Hb Hb'. unfold crc_step. intros [= _ H].
  apply crc_table_low_inj in H; try (apply lxor_u8; assumption).
  eapply lxor_cancel_l, H.
Qed.

(** One byte leads two different states to two different states. *)
Lemma crc_step_inj_state c1 c2 b :
  crc_u8 c1 -> crc_u8 c2 -> is_u8 b ->
  crc_step c1 b = crc_step c2 b -> c1 = c2.
Proof.
  destruct c1 as [h1 l1], c2 as [h2 l2]. unfold crc_u8, crc_step.
  cbn [fst snd]. intros [Hh1 Hl1] [Hh2 Hl2] Hb [= H1 H2].
  apply crc_table_low_inj in H2; try (apply lxor_u8; assumption).
  rewrite H2 in H1. apply lxor_cancel_r in H1, H2. congruence.
Qed.

Lemma crc_fold_inj l : forall c1 c2,
  crc_u8 c1 -> crc_u8 c2 -> Forall is_u8 l ->
  fold_left crc_step l c1 = fold_left crc_step l c2 -> c1 = c2.
Proof.
  induction l as [|b l IH]; intros c1 c2 H1 H2 Hl H; [exact H|].
  cbn [fold_left] in H. apply Forall_cons in Hl as [Hb Hl].
  apply IH in H; try assumption; try (apply crc_step_u8; assumption).
  eapply crc_step_inj_state; eauto.
Qed.

(** The CRC run on over its own two bytes comes out as zero. *)
Lemma crc_residue crc :
  fold_left crc_step [fst crc; snd crc] crc = (0, 0).
Proof.
  destruct crc as [h l]. cbn [fold_left fst snd]. unfold crc_step.
  cbn [fst snd]. rewrite Z.lxor_nilpotent.
  change (rd crc_table_high 0) with 0. change (rd crc_table_low 0) with 0.
  rewrite Z.lxor_0_r, Z.lxor_nilpotent. reflexivity.
Qed.

(** X8. The CRC is a residue check: the routine run over a body and then
    over the two CRC bytes of that body, high byte first, ends with both
    bytes zero, whatever the body and the starting value. *)
Theorem X8_crc_over_body_and_crc_is_zero (body : list Z) (hi lo : Z) :
  let crc := advancedCrcUpdate body (Z.of_nat (length body)) hi lo in
  advancedCrcUpdate (body ++ [fst crc; snd crc])
                    (Z.of_nat (length body) + 2) hi lo
  = (0, 0).
Proof.
  intros crc. subst crc. unfold advancedCrcUpdate.
  rewrite Nat2Z.id, firstn_all.
  replace (Z.to_nat (Z.of_nat (length body) + 2))
    with (length (body ++ [fst (fold_left crc_step body (hi, lo));
                           snd (fold_left crc_step body (hi, lo))])).
  2:{ rewrite length_app. cbn [length]. lia. }
  rewrite firstn_all, fold_left_app. apply crc_residue.
Qed.

(** X9. A packet put together with the CRC of its body passes
    [validateCRC]: start byte, body, the two CRC bytes computed from
    FF FF, end byte. *)
Theorem X9_packet_with_its_crc_validates (som eom : Z) (body : list Z) :
  Z.of_nat (length body) + 4 < 65536 ->
  let crc := advancedCrcUpdate body (Z.of_nat (length body)) 255 255 in
  validateCRC ([som] ++ body ++ [fst crc; snd crc; eom])
              (Z.of_nat (length body) + 4) = true.
Proof.
  intros Hlen crc. unfold validateCRC.
  replace (Z.of_nat (length body) + 4 - 4) with (Z.of_nat (length body))
    by lia.
  rewrite u16_small by lia. cbn [app drop]. rewrite drop_0.
  assert (Hc : advancedCrcUpdate (body ++ [fst crc; snd crc; eom])
                 (Z.of_nat (length body)) 255 255 = crc).
  { subst crc. unfold advancedCrcUpdate. rewrite Nat2Z.id.
    rewrite take_app_length, firstn_all. reflexivity. }
  rewrite Hc. unfold rd.
  replace (Z.to_nat (Z.of_nat (length body) + 4 - 3))
    with (S (length body + 0)) by lia.
  replace (Z.to_nat (Z.of_nat (length body) + 4 - 2))
    with (S (length body + 1)) by lia.
  cbn [nth]. rewrite !app_nth2_plus. cbn [nth].
  rewrite !Z.eqb_refl. reflexivity.
Qed.

Lemma X9_packet_with_its_crc_validates_witness :
  validateCRC ([254] ++ [128; 0; 0; 1; 42; 3; 1; 240] ++ [140; 103; 255])
              12 = true.
Proof.
  apply (X9_packet_with_its_crc_validates 254 255
           [128; 0; 0; 1; 42; 3; 1; 240]).
  reflexivity.
Defined.

(** Two bodies that differ in one byte have different CRCs. *)
Lemma crc_one_byte (body : list Z) (k : nat) (b : Z) (crc : Z * Z) :
  Forall is_u8 body -> is_u8 b -> crc_u8 crc ->
  (k < length body)%nat -> b <> rd body (Z.of_nat k) ->
  fold_left crc_step (<[k := b]> body) crc <> fold_left crc_step body crc.
Proof.
  intros Hb Hu Hc Hk Hne.
  pose proof (lookup_rd body k Hk) as Hx.
  set (x := rd body (Z.of_nat k)) in *.
  rewrite (insert_take_drop body k b Hk).
  rewrite <- (take_drop_middle body k x Hx) at 3.
  rewrite !fold_left_app. cbn [fold_left]. intros H.
  assert (Hs : crc_u8 (fold_left crc_step (take k body) crc))
    by (apply crc_fold_u8; [exact Hc | apply Forall_take; exact Hb]).
  assert (Hxu : is_u8 x).
  { rewrite Forall_forall in Hb. apply Hb.
    apply list_elem_of_lookup_2 in Hx. exact Hx. }
  apply crc_fold_inj in H.
  - apply crc_step_inj_byte in H; auto.
  - apply crc_step_u8; assumption.
  - apply crc_step_u8; assumption.
  - apply Forall_drop. exact Hb.
Qed.

(** X10. The CRC catches every single wrong byte: if a packet passes
    [validateCRC] and one byte of its body, between the start byte and the
    CRC, is replaced by a different value, the packet no longer passes. *)
Theorem X10_crc_detects_one_wrong_byte (buf : list Z) (len i b : Z) :
  Forall is_u8 buf -> is_u8 b ->
  4 <= len < 65536 -> (Z.to_nat len <= length buf)%nat ->
  1 <= i <= len - 4 ->
  b <> rd buf i ->
  validateCRC buf len = true ->
  validateCRC (wr buf i b) len = false.
Proof.
  intros Hbuf Hb Hlen Hl Hi Hne Hv. unfold validateCRC in *.
  rewrite u16_small in * by lia. unfold advancedCrcUpdate in *.
  rewrite !rd_wr_other by lia.
  set (n := Z.to_nat (len - 4)) in *.
  set (k := Z.to_nat (i - 1)).
  set (body := take n (drop 1 buf)) in *.
  assert (Hbody : take n (drop 1 (wr buf i b)) = <[k := b]> body).
  { unfold wr. rewrite drop_insert_ge by lia.
    replace (Z.to_nat i - 1)%nat with k by lia.
    rewrite take_insert_lt by lia. reflexivity. }
  rewrite Hbody.
  assert (Hn : length body = n).
  { subst body. rewrite length_take, length_drop. lia. }
  assert (Hx : rd body (Z.of_nat k) = rd buf i).
  { subst body. rewrite rd_take by lia. unfold rd.
    rewrite <- (take_drop 1 buf) at 2.
    rewrite app_nth2 by (rewrite length_take; lia).
    rewrite length_take. f_equal. lia. }
  assert (Hd : fold_left crc_step (<[k := b]> body) (255, 255)
               <> fold_left crc_step body (255, 255)).
  { apply crc_one_byte.
    - subst body. apply Forall_take, Forall_drop. exact Hbuf.
    - exact Hb.
    - split; cbn; unfold is_u8; lia.
    - lia.
    - rewrite Hx. exact Hne. }
  apply andb_true_iff in Hv as [H1 H2].
  apply Z.eqb_eq in H1, H2.
  apply andb_false_iff.
  destruct (rd buf (len - 3) =? (fold_left crc_step (<[k:=b]> body)
                                   (255, 255)).1) eqn:E1; [|auto].
  right. apply Z.eqb_neq. intros E2. apply Z.eqb_eq in E1. apply Hd.
  apply injective_projections; congruence.
Qed.

Lemma X10_crc_detects_one_wrong_byte_witness :
  validateCRC (wr requestNodeStatus 7 2) 12 = false.
Proof.
  apply (X10_crc_detects_one_wrong_byte requestNodeStatus 12 7 2).
  - apply all_u8_Forall. vm_compute. reflexivity.
  - unfold is_u8. lia.
  - lia.
  - vm_compute. lia.
  - lia.
  - vm_compute. discriminate.
  - vm_compute. reflexivity.
Defined.

(** ** Byte stuffing over whole packets *)

Lemma stuff_clean b : is_u8 b -> Forall (fun c => 0 <= c <= 250) (stuff b).
Proof.
  unfold is_u8, stuff, CLASH_CODE. intros Hb.
  destruct (250 <=? b) eqn:E.
  - apply Z.leb_le in E. repeat constructor; lia.
  - apply Z.leb_gt in E. repeat constructor; lia.
Qed.

Lemma stuffed_len_length body : forall len,
  0 <= len ->
  len + Z.of_nat (length body) < 65536 ->
  stuffed_len body len
  = len + Z.of_nat (length (flat_map stuff body)) - Z.of_nat (length body).
Proof.
  induction body as [|b body IH]; intros len H0 Hlen.
  - cbn. lia.
  - change (stuffed_len (b :: body) len)
      with (stuffed_len body
              (if CLASH_CODE <=? b then u16 (len + 1) else len)).
    change (flat_map stuff (b :: body)) with (stuff b ++ flat_map stuff body).
    rewrite length_app. cbn [length] in *.
    assert (Hs : length (stuff b) = if CLASH_CODE <=? b then 2%nat else 1%nat)
      by (unfold stuff; destruct (CLASH_CODE <=? b); reflexivity).
    rewrite Hs. destruct (CLASH_CODE <=? b).
    + rewrite u16_small by lia. rewrite IH by lia. cbn [length]. lia.
    + rewrite IH by lia. cbn [length]. lia.
Qed.

(** X11. What [advancedAddClashCodes] sends: the first and the last byte
    as they are, every body byte replaced by its substitution, so that no
    byte above 0xFA is left between them, and a length that is the number
    of bytes written. *)
Theorem X11_stuffed_packet (som eom : Z) (body : list Z) :
  Forall is_u8 body ->
  2 * Z.of_nat (length body) + 2 < 65536 ->
  exists out len,
    advancedAddClashCodes (som :: body ++ [eom])
                          (Z.of_nat (length body) + 2) = Ok (out, len) /\
    out = som :: flat_map stuff body ++ [eom] /\
    len = Z.of_nat (length out) /\
    Forall (fun c => 0 <= c <= 250) (flat_map stuff body).
Proof.
  intros Hb Hlen. eexists _, _.
  split; [apply advancedAddClashCodes_packet; lia|].
  split; [reflexivity|]. split.
  - rewrite stuffed_len_length by lia.
    cbn [length]. rewrite length_app. cbn [length]. lia.
  - induction Hb as [|b body Hu _ IH]; [constructor|].
    cbn [flat_map]. apply Forall_app. split; [apply stuff_clean, Hu|].
    apply IH. cbn [length] in Hlen. lia.
Qed.

Lemma X11_stuffed_packet_witness :
  exists out len,
    advancedAddClashCodes (254 :: [128; 255; 3; 250] ++ [255])
                          (Z.of_nat (length [128; 255; 3; 250]) + 2)
      = Ok (out, len) /\
    out = 254 :: flat_map stuff [128; 255; 3; 250] ++ [255] /\
    len = Z.of_nat (length out) /\
    Forall (fun c => 0 <= c <= 250) (flat_map stuff [128; 255; 3; 250]).
Proof.
  apply (X11_stuffed_packet 254 255 [128; 255; 3; 250]).
  - apply all_u8_Forall. reflexivity.
  - cbn. lia.
Defined.

(** An ordinary byte inside a packet. *)
Lemma adv_plain_byte (fuel : nat) (st : adv_static) (g : globals) (b : Z) :
  0 <= b < 250 ->
  serialRxState g = 1 ->
  0 <= serialRxLength g < ADVANCED_MAX_LENGTH ->
  serialRxAdvanced fuel st g b
  = Ok (st, set_serialRxLength (serialRxLength g + 1)
              (set_serialRxBuffer (wr (serialRxBuffer g) (serialRxLength g) b)
                 g)).
Proof.
  intros Hb Hs HL. unfold ADVANCED_MAX_LENGTH in HL.
  unfold serialRxAdvanced. rewrite Hs. cbv beta iota.
  replace (b =? 255) with false by (symmetry; apply Z.eqb_neq; lia).
  replace (b =? 250) with false by (symmetry; apply Z.eqb_neq; lia).
  replace (250 <? b) with false by (symmetry; apply Z.ltb_ge; lia).
  cbn [andb].
  replace (ADVANCED_MAX_LENGTH <=? serialRxLength g) with false
    by (symmetry; apply Z.leb_gt; unfold ADVANCED_MAX_LENGTH; lia).
  rewrite append_Ok by (unfold SERIAL_RX_BUFFER_SIZE; lia).
  cbn [rbind]. rewrite u16_small by lia. reflexivity.
Qed.

(** A stuffed body, byte after byte, while the packet stays within 108
    bytes. *)
Lemma adv_body_received (fuel : nat) (st : adv_static) (body : list Z) :
  forall g,
    Forall is_u8 body ->
    serialRxState g = 1 ->
    0 <= serialRxLength g ->
    serialRxLength g + Z.of_nat (length body) <= ADVANCED_MAX_LENGTH ->
    length (serialRxBuffer g) = 512%nat ->
    exists g',
      feed (serialRxAdvanced fuel) st g (flat_map stuff body) = Ok (st, g') /\
      serialRxState g' = 1 /\
      serialRxLength g' = serialRxLength g + Z.of_nat (length body) /\
      take (Z.to_nat (serialRxLength g')) (serialRxBuffer g')
        = take (Z.to_nat (serialRxLength g)) (serialRxBuffer g) ++ body /\
      length (serialRxBuffer g') = 512%nat /\
      published g' = published g.
Proof.
  induction body as [|b body IH]; intros g Hb Hs H0 HL Hlen.
  - exists g. cbn [flat_map feed length]. rewrite Z.add_0_r, app_nil_r.
    repeat split; auto.
  - apply Forall_cons in Hb as [Hu Hb]. unfold is_u8 in Hu.
    cbn [length] in HL |- *. unfold ADVANCED_MAX_LENGTH in *.
    cbn [flat_map]. rewrite feed_app.
    assert (Hone : exists g1,
      feed (serialRxAdvanced fuel) st g (stuff b) = Ok (st, g1) /\
      serialRxState g1 = 1 /\
      serialRxLength g1 = serialRxLength g + 1 /\
      serialRxBuffer g1 = wr (serialRxBuffer g) (serialRxLength g) b /\
      published g1 = published g).
    { unfold stuff, CLASH_CODE. destruct (250 <=? b) eqn:E.
      - apply Z.leb_le in E.
        destruct (adv_escape_pair fuel st g (b - 250))
          as (g1 & H1 & Hs1 & HL1 & Hb1 & Hp1);
          [lia | exact Hs | unfold SERIAL_RX_BUFFER_SIZE; lia |].
        exists g1. replace (b - 250 + 250) with b in Hb1 by lia. auto.
      - apply Z.leb_gt in E. cbn [feed].
        rewrite adv_plain_byte
          by (try assumption; unfold ADVANCED_MAX_LENGTH; lia).
        cbn [rbind fst snd]. eexists. split; [reflexivity|]. adv_fields.
        auto. }
    destruct Hone as (g1 & H1 & Hs1 & HL1 & Hb1 & Hp1).
    rewrite H1. cbn [rbind fst snd].
    destruct (IH g1 Hb Hs1) as (g2 & H2 & Hs2 & HL2 & Hb2 & Hlen2 & Hp2);
      [lia | lia | rewrite Hb1, length_wr; exact Hlen |].
    exists g2. split; [exact H2|]. split; [exact Hs2|].
    split; [lia|]. split; [|split; [exact Hlen2 | congruence]].
    rewrite Hb2, HL1, Hb1. rewrite take_wr_next by lia.
    rewrite <- app_assoc. reflexivity.
Qed.

(** X12. Stuffing and unstuffing are inverse over whole packets: the
    start byte and the stuffed form of a body of at most 107 bytes, given
    to a waiting parser, leave exactly the start byte and the body in the
    receive buffer, with the parser still inside the packet and nothing
    published. *)
Theorem X12_stuffed_body_is_received
  (fuel : nat) (st : adv_static) (g : globals) (body : list Z) :
  Forall is_u8 body ->
  (length body <= 107)%nat ->
  serialRxState g = 0 ->
  length (serialRxBuffer g) = 512%nat ->
  exists g',
    feed (serialRxAdvanced fuel) st g (254 :: flat_map stuff body)
      = Ok (st, g') /\
    serialRxState g' = 1 /\
    serialRxLength g' = Z.of_nat (length body) + 1 /\
    take (Z.to_nat (serialRxLength g')) (serialRxBuffer g') = 254 :: body /\
    published g' = published g.
Proof.
  intros Hb Hn Hs Hlen. cbn [feed]. unfold serialRxAdvanced at 1.
  rewrite Hs. cbv beta iota. change (254 =? 254) with true. cbv iota.
  rewrite append_Ok by (adv_fields; unfold SERIAL_RX_BUFFER_SIZE; lia).
  adv_fields. cbn [rbind fst snd]. change (u16 (0 + 1)) with 1.
  set (g1 := set_serialRxLength 1 _).
  destruct (adv_body_received fuel st body g1 Hb)
    as (g2 & H2 & Hs2 & HL2 & Hb2 & _ & Hp2).
  - reflexivity.
  - cbn. lia.
  - unfold ADVANCED_MAX_LENGTH. subst g1. adv_fields. lia.
  - subst g1. adv_fields. rewrite length_wr. exact Hlen.
  - exists g2. split; [exact H2|]. split; [exact Hs2|].
    split; [rewrite HL2; subst g1; adv_fields; lia|].
    split; [|exact Hp2]. rewrite Hb2. subst g1. adv_fields.
    change (Z.to_nat 1) with (Z.to_nat (0 + 1)).
    rewrite take_wr_next by lia. reflexivity.
Qed.

Lemma X12_stuffed_body_is_received_witness :
  exists g',
    feed (serialRxAdvanced 0) adv_static_init (power_on advanced_cfg 0)
         (254 :: flat_map stuff [128; 255; 3; 250])
      = Ok (adv_static_init, g') /\
    serialRxState g' = 1 /\
    serialRxLength g' = Z.of_nat (length [128; 255; 3; 250]) + 1 /\
    take (Z.to_nat (serialRxLength g')) (serialRxBuffer g')
      = 254 :: [128; 255; 3; 250] /\
    published g' = published (power_on advanced_cfg 0).
Proof.
  apply (X12_stuffed_body_is_received 0 adv_static_init
           (power_on advanced_cfg 0) [128; 255; 3; 250]).
  - apply all_u8_Forall. reflexivity.
  - cbn. lia.
  - reflexivity.
  - reflexivity.
Defined.

(** ** The bound on the ordinary path *)

Lemma validateAdvancedBmsPacket_fault fuel g st f :
  validateAdvancedBmsPacket fuel g st = Fault f -> f = OutOfFuel.
Proof.
  unfold validateAdvancedBmsPacket, checkPacketFormat.
  destruct (_ <? _); [discriminate|].
  destruct (negb _); [discriminate|].
  destruct (negb _); [discriminate|].
  destruct (scanMessages _ _ _ _ _ _) as [[v t]|f'] eqn:E; cbn [rbind].
  - destruct (fst (v, t)); discriminate.
  - intros [= <-]. eapply scanMessages_fault, E.
Qed.

Lemma forward_within g :
  0 <= serialRxLength g <= 109 ->
  exists g', serialTxEventToNimbus g = Ok g' /\
             serialRxLength g' = serialRxLength g.
Proof.
  intros H. destruct (serialTxEventToNimbus_fits g) as [g' Hg'];
    [unfold EVENT_DATA_SIZE; lia|].
  exists g'. split; [exact Hg'|].
  apply serialTxEventToNimbus_fields in Hg'. tauto.
Qed.

Lemma adv_within_idle g :
  0 <= serialRxLength g <= 109 -> adv_within (set_serialRxState 0 g).
Proof. intros H. split; [exact H | left; reflexivity]. Qed.

Lemma advancedPacketReceptionError_within g :
  0 <= serialRxLength g <= 109 ->
  exists g', advancedPacketReceptionError g = Ok g' /\
             serialRxLength g' = serialRxLength g.
Proof.
  intros H. unfold advancedPacketReceptionError.
  destruct (verbose _); [apply forward_within, H | eauto].
Qed.

Lemma serialRxAdvanced_within fuel st g c :
  adv_within g -> c <> 250 ->
  match serialRxAdvanced fuel st g c with
  | Ok r => adv_within (snd r)
  | Fault f => f = OutOfFuel
  end.
Proof.
  intros [HL [Hs | [Hs HL1]]] Hc; unfold ADVANCED_MAX_LENGTH in *;
    unfold serialRxAdvanced; rewrite Hs; cbv beta iota.
  - destruct (c =? 254).
    + rewrite append_Ok by (adv_fields; unfold SERIAL_RX_BUFFER_SIZE; lia).
      cbn [rbind snd]. split; adv_fields.
      * change (u16 (0 + 1)) with 1. lia.
      * right. change (u16 (0 + 1)) with 1.
        unfold ADVANCED_MAX_LENGTH. split; [reflexivity | lia].
    + cbn [snd]. split; [exact HL | left; exact Hs].
  - assert (Herr : forall g0 : globals,
              serialRxLength g0 = serialRxLength g ->
              match (do g1 <- advancedPacketReceptionError g0;
                     Ok (st, set_serialRxState 0
                               (set_totalDiscardedBytes
                                  (u32 (totalDiscardedBytes g1
                                        + serialRxLength g1)) g1)))
              with
              | Ok r => adv_within (snd r)
              | Fault f => f = OutOfFuel
              end).
    { intros g0 H0.
      destruct (advancedPacketReceptionError_within g0) as (g1 & H1 & HL2);
        [lia|].
      rewrite H1. cbn [rbind snd]. apply adv_within_idle. adv_fields. lia. }
    destruct (c =? 255).
    { rewrite append_Ok by (unfold SERIAL_RX_BUFFER_SIZE; lia).
      cbn [rbind]. rewrite u16_small by lia.
      set (g2 := set_serialRxLength _ _).
      assert (H2 : 0 <= serialRxLength g2 <= 109)
        by (subst g2; adv_fields; lia).
      destruct (validateAdvancedBmsPacket fuel g2 st) as [[v st1]|f] eqn:V;
        cbn [rbind fst snd].
      2:{ eapply validateAdvancedBmsPacket_fault, V. }
      destruct (forward_within g2 H2) as (g3 & H3 & HL3).
      destruct v, (verbose (particleEepromData g2)),
        (0 <? deviceStatusCount st1); cbn [orb]; rewrite ?H3;
        cbn [rbind snd]; apply adv_within_idle; adv_fields; lia. }
    replace (c =? 250) with false by (symmetry; apply Z.eqb_neq; exact Hc).
    destruct ((250 <? c) && (c <=? 254)); [apply Herr; reflexivity|].
    destruct (ADVANCED_MAX_LENGTH <=? serialRxLength g) eqn:E;
      [apply Herr; reflexivity|].
    apply Z.leb_gt in E. unfold ADVANCED_MAX_LENGTH in E.
    rewrite append_Ok by (unfold SERIAL_RX_BUFFER_SIZE; lia).
    cbn [rbind snd]. rewrite u16_small by lia. split; adv_fields; [lia|].
    right. unfold ADVANCED_MAX_LENGTH. split; [exact Hs | lia].
Qed.

(** X13. On the ordinary path the length check holds.  As long as no
    escape byte 0xFA arrives, a packet in progress never grows beyond 108
    bytes, 109 with its end byte: no stream of such bytes overruns the
    receive buffer or the event record, and the only way a run can fail
    to return is the loop of the format check. *)
Theorem X13_plain_bytes_keep_the_bound
  (fuel : nat) (bytes : list Z) (st : adv_static) (g : globals) :
  Forall (fun c => c <> 250) bytes ->
  adv_within g ->
  match feed (serialRxAdvanced fuel) st g bytes with
  | Ok r => adv_within (snd r)
  | Fault f => f = OutOfFuel
  end.
Proof.
  intros Hb. revert st g.
  induction Hb as [|c rest Hc _ IH]; intros st g Hg; [exact Hg|].
  cbn [feed]. pose proof (serialRxAdvanced_within fuel st g c Hg Hc) as H.
  destruct (serialRxAdvanced fuel st g c) as [[st1 g1]|f];
    cbn [rbind fst snd] in *; [apply IH; exact H | exact H].
Qed.

Lemma X13_plain_bytes_keep_the_bound_witness :
  match feed (serialRxAdvanced 1) adv_static_init (power_on advanced_cfg 0)
             (full_length_stream ++ [0; 254] ++ repeat 7 200) with
  | Ok r => adv_within (snd r)
  | Fault f => f = OutOfFuel
  end.
Proof.
  apply (X13_plain_bytes_keep_the_bound 1
           (full_length_stream ++ [0; 254] ++ repeat 7 200)).
  - apply (bool_decide_unpack _). vm_compute. exact I.
  - split; [cbn; lia | left; reflexivity].
Defined.

Lemma scanMessages_codes fuel buf m : forall c offset tbl b t,
  scanMessages fuel buf m c offset tbl = Ok (b, t) -> codes t = codes tbl.
Proof.
  induction fuel as [|fuel IH]; intros c offset tbl b t H; [discriminate|].
  cbn [scanMessages] in H.
  destruct (matchIdCode c tbl) as [tbl'|] eqn:M.
  - apply matchIdCode_codes in M.
    destruct (m <? _); [injection H as _ <-; exact M|].
    destruct (_ =? 240); [injection H as _ <-; exact M|].
    apply IH in H. congruence.
  - injection H as _ <-. reflexivity.
Qed.

(** Validation changes counts, never codes. *)
Lemma validateAdvancedBmsPacket_codes fuel g st v st1 :
  validateAdvancedBmsPacket fuel g st = Ok (v, st1) ->
  codes (idCodeTable st1) = codes (idCodeTable st).
Proof.
  unfold validateAdvancedBmsPacket.
  destruct (serialRxLength g <? ADVANCED_MIN_LENGTH);
    [intros [= _ <-]; reflexivity|].
  destruct (negb (validateCRC _ _)); [intros [= _ <-]; reflexivity|].
  destruct (negb (_ =? 128)); [intros [= _ <-]; reflexivity|].
  intros H. apply rbind_Ok in H as ([b t] & E & H2). cbn [fst snd] in H2.
  unfold checkPacketFormat in E. apply scanMessages_codes in E.
  destruct b; injection H2 as _ <-; cbn [idCodeTable];
    rewrite E, codes_reset; reflexivity.
Qed.

(** X14. Every packet that is valid in the words of the protocol is
    accepted: at least 12 bytes and at most 259, the CRC of bytes 1 to
    len - 4 in the two bytes before the end byte, identity 0x80, and from
    offset 5 a chain of messages with known codes, each length leading to
    the next code within the packet, up to the code 0xF0. *)
Theorem X14_valid_packets_are_accepted (g : globals) (st : adv_static) :
  valid_packet (serialRxBuffer g) (serialRxLength g) ->
  Forall is_u8 (serialRxBuffer g) ->
  serialRxLength g <= 259 ->
  codes (idCodeTable st) = codes idCodeTable_init ->
  exists st1,
    validateAdvancedBmsPacket 256 g st = Ok (true, st1) /\
    codes (idCodeTable st1) = codes idCodeTable_init.
Proof.
  intros Hv Hb HL Hc.
  destruct (valid_packet_accepted g st Hv) as [st1 H1]; try assumption.
  - intros i. unfold rd.
    destruct (nth_in_or_default (Z.to_nat i) (serialRxBuffer g) 0) as [Hi | ->];
      [|lia].
    rewrite Forall_forall in Hb. apply list_elem_of_In in Hi.
    apply Hb in Hi. unfold is_u8 in Hi. lia.
  - exists st1. split; [exact H1|].
    rewrite (validateAdvancedBmsPacket_codes _ _ _ _ _ H1). exact Hc.
Qed.

Lemma X14_valid_packets_are_accepted_witness :
  exists st1,
    validateAdvancedBmsPacket 256
      (completed (received (removelast device_status_stream)))
      adv_static_init = Ok (true, st1) /\
    codes (idCodeTable st1) = codes idCodeTable_init.
Proof.
  apply X14_valid_packets_are_accepted.
  - unfold valid_packet. split; [vm_compute; discriminate|].
    split; [vm_compute; reflexivity|]. split; [vm_compute; reflexivity|].
    apply chain_last.
    + unfold known_code. vm_compute. right. left. reflexivity.
    + vm_compute. discriminate.
    + vm_compute. reflexivity.
  - apply all_u8_Forall. vm_compute. reflexivity.
  - vm_compute. discriminate.
  - reflexivity.
Defined.

(** ** The ASCII parser and its bounds *)

Lemma ascii_forward_within g :
  0 <= serialRxLength g ->
  match serialTxEventToNimbus g with
  | Ok g' => serialRxLength g' = serialRxLength g
  | Fault f => f = RecordOverrun
  end.
Proof.
  intros H. destruct (serialTxEventToNimbus g) as [g'|f] eqn:E.
  - apply serialTxEventToNimbus_fields in E. tauto.
  - unfold serialTxEventToNimbus in E.
    destruct (EVENT_DATA_SIZE <? serialRxLength g); congruence.
Qed.

Lemma serialRxAdvancedAscii_within st g c :
  ascii_within st g ->
  match serialRxAdvancedAscii st g c with
  | Ok r => ascii_within (fst r) (snd r)
  | Fault f => f = RecordOverrun
  end.
Proof.
  unfold ascii_within, ADVANCED_ASCII_LINE_LENGTH, ADVANCED_ASCII_MAX_LENGTH.
  intros [(Hs & Hc & HL) | [(Hs & Hc & H0 & HL) | (Hs & HL)]];
    unfold serialRxAdvancedAscii; rewrite Hs; cbv beta iota.
  - (* idle *)
    rewrite append_Ok by (unfold SERIAL_RX_BUFFER_SIZE; lia).
    cbn [rbind]. rewrite u8_small, u16_small by lia.
    destruct (c =? 10).
    + destruct (2 <? lineCharCount st + 1) eqn:E; cbn [fst snd].
      * right. left. ascii_fields. cbn [Z.eqb]. lia.
      * left. ascii_fields. lia.
    + destruct (ADVANCED_ASCII_LINE_LENGTH <? lineCharCount st + 1) eqn:E;
        cbn [fst snd]; left; ascii_fields; [lia|].
      apply Z.ltb_ge in E. unfold ADVANCED_ASCII_LINE_LENGTH in E. lia.
  - (* collecting *)
    assert (HL' : serialRxLength g <= 312)
      by (destruct (lineCharCount st =? 0); lia).
    rewrite append_Ok by (unfold SERIAL_RX_BUFFER_SIZE; lia).
    cbn [rbind]. rewrite u8_small, u16_small by lia.
    destruct (c =? 10).
    + destruct (2 <? lineCharCount st + 1) eqn:E.
      * apply Z.ltb_lt in E.
        replace (lineCharCount st =? 0) with false in HL
          by (symmetry; apply Z.eqb_neq; lia).
        destruct (ADVANCED_ASCII_MAX_LINES <? _); cbn [fst snd].
        -- right. right. ascii_fields. lia.
        -- right. left. ascii_fields. cbn [Z.eqb]. lia.
      * apply Z.ltb_ge in E.
        destruct ((lineCharCount st + 1 =? 2) && (previousChar st =? 13))
          eqn:E2.
        -- apply andb_true_iff in E2 as [E2 _]. apply Z.eqb_eq in E2.
           replace (lineCharCount st =? 0) with false in HL
             by (symmetry; apply Z.eqb_neq; lia).
           match goal with
           | |- context [serialTxEventToNimbus ?x] =>
               pose proof (ascii_forward_within x) as Hf;
               destruct (serialTxEventToNimbus x) as [g1|f]
           end; cbn [rbind fst snd].
           ++ left. ascii_fields. lia.
           ++ apply Hf. ascii_fields. lia.
        -- cbn [fst snd]. right. right. ascii_fields. lia.
    + destruct (ADVANCED_ASCII_LINE_LENGTH <? lineCharCount st + 1) eqn:E;
        cbn [fst snd]; [right; right; ascii_fields; lia|].
      apply Z.ltb_ge in E. unfold ADVANCED_ASCII_LINE_LENGTH in E.
      ascii_fields.
      destruct (ADVANCED_ASCII_MAX_LENGTH <=? serialRxLength g + 1) eqn:E2;
        cbn [fst snd]; [right; right; ascii_fields; lia|].
      apply Z.leb_gt in E2. unfold ADVANCED_ASCII_MAX_LENGTH in E2.
      right. left. ascii_fields.
      replace (lineCharCount st + 1 =? 0) with false
        by (symmetry; apply Z.eqb_neq; lia).
      lia.
  - (* error recovery *)
    destruct (c =? 10); [|cbn [fst snd]; right; right; ascii_fields; lia].
    destruct (2 <? _); [cbn [fst snd]; right; right; ascii_fields; lia|].
    destruct (_ && _); cbn [fst snd].
    + left. ascii_fields. lia.
    + right. right. ascii_fields. lia.
Qed.

(** X15. The ASCII parser keeps its own bounds: started idle, whatever
    bytes arrive, it never stores outside the receive buffer, and between
    two bytes the message in progress has at most 313 bytes.  The only
    fault a run can end in is the overrun of the 244-byte event record. *)
Theorem X15_ascii_parser_stays_in_the_buffer
  (bytes : list Z) (st : ascii_static) (g : globals) :
  ascii_within st g ->
  match feed serialRxAdvancedAscii st g bytes with
  | Ok r => ascii_within (fst r) (snd r) /\
            0 <= serialRxLength (snd r) <= 313
  | Fault f => f = RecordOverrun
  end.
Proof.
  revert st g. induction bytes as [|c rest IH]; intros st g Hg.
  - cbn [feed fst snd]. split; [exact Hg|].
    unfold ascii_within, ADVANCED_ASCII_LINE_LENGTH,
      ADVANCED_ASCII_MAX_LENGTH in Hg.
    destruct Hg as [(_ & Hc & HL) | [(_ & Hc & H0 & HL) | (_ & HL)]];
      [lia | destruct (_ =? 0); lia | lia].
  - cbn [feed]. pose proof (serialRxAdvancedAscii_within st g c Hg) as H.
    destruct (serialRxAdvancedAscii st g c) as [[st1 g1]|f];
      cbn [rbind fst snd] in *; [apply IH; exact H | exact H].
Qed.

Lemma X15_ascii_parser_stays_in_the_buffer_witness :
  match feed serialRxAdvancedAscii ascii_static_init (power_on ascii_cfg 0)
             (removelast longest_message ++ repeat 65 300) with
  | Ok r => ascii_within (fst r) (snd r) /\
            0 <= serialRxLength (snd r) <= 313
  | Fault f => f = RecordOverrun
  end.
Proof.
  apply (X15_ascii_parser_stays_in_the_buffer
           (removelast longest_message ++ repeat 65 300)).
  left. unfold ADVANCED_ASCII_LINE_LENGTH. cbn. lia.
Defined.

(** ** Whole messages through the ASCII parser *)

(** A character that is not LF, inside a line of a message in progress. *)
Lemma ascii_char st g c :
  serialRxState g = 1 -> c <> LF ->
  0 <= lineCharCount st < ADVANCED_ASCII_LINE_LENGTH ->
  0 <= serialRxLength g -> serialRxLength g + 1 < ADVANCED_ASCII_MAX_LENGTH ->
  serialRxAdvancedAscii st g c
  = Ok ({| lineCount := lineCount st;
           lineCharCount := lineCharCount st + 1; previousChar := c |},
        set_serialRxLength (serialRxLength g + 1)
          (set_serialRxBuffer (wr (serialRxBuffer g) (serialRxLength g) c)
             g)).
Proof.
  unfold LF, ADVANCED_ASCII_LINE_LENGTH, ADVANCED_ASCII_MAX_LENGTH.
  intros Hs Hc Hl H0 HL. unfold serialRxAdvancedAscii. rewrite Hs.
  cbv beta iota.
  rewrite append_Ok by (unfold SERIAL_RX_BUFFER_SIZE; lia).
  cbn [rbind]. rewrite u8_small, u16_small by lia.
  replace (c =? 10) with false by (symmetry; apply Z.eqb_neq; exact Hc).
  replace (ADVANCED_ASCII_LINE_LENGTH <? lineCharCount st + 1) with false
    by (symmetry; apply Z.ltb_ge; unfold ADVANCED_ASCII_LINE_LENGTH; lia).
  ascii_fields.
  replace (ADVANCED_ASCII_MAX_LENGTH <=? serialRxLength g + 1) with false
    by (symmetry; apply Z.leb_gt; unfold ADVANCED_ASCII_MAX_LENGTH; lia).
  reflexivity.
Qed.

(** The LF that ends a line of the message, not the ninth. *)
Lemma ascii_line_end st g :
  serialRxState g = 1 ->
  2 <= lineCharCount st <= ADVANCED_ASCII_LINE_LENGTH ->
  0 <= lineCount st < ADVANCED_ASCII_MAX_LINES ->
  0 <= serialRxLength g < ADVANCED_ASCII_MAX_LENGTH ->
  serialRxAdvancedAscii st g LF
  = Ok ({| lineCount := lineCount st + 1;
           lineCharCount := 0; previousChar := LF |},
        set_serialRxLength (serialRxLength g + 1)
          (set_serialRxBuffer (wr (serialRxBuffer g) (serialRxLength g) LF)
             g)).
Proof.
  unfold LF, ADVANCED_ASCII_LINE_LENGTH, ADVANCED_ASCII_MAX_LENGTH,
    ADVANCED_ASCII_MAX_LINES.
  intros Hs Hl Hc HL. unfold serialRxAdvancedAscii. rewrite Hs.
  cbv beta iota.
  rewrite append_Ok by (unfold SERIAL_RX_BUFFER_SIZE; lia).
  cbn [rbind]. rewrite !u8_small, u16_small by lia.
  change (10 =? 10) with true. cbv iota.
  replace (2 <? lineCharCount st + 1) with true
    by (symmetry; apply Z.ltb_lt; lia).
  replace (ADVANCED_ASCII_MAX_LINES <? lineCount st + 1) with false
    by (symmetry; apply Z.ltb_ge; unfold ADVANCED_ASCII_MAX_LINES; lia).
  reflexivity.
Qed.

(** Characters of a line, collected in place. *)
Lemma ascii_collect (chars : list Z) : forall st g,
  serialRxState g = 1 ->
  0 <= lineCharCount st ->
  lineCharCount st + Z.of_nat (length chars) <= ADVANCED_ASCII_LINE_LENGTH ->
  0 <= serialRxLength g ->
  serialRxLength g + Z.of_nat (length chars) < ADVANCED_ASCII_MAX_LENGTH ->
  length (serialRxBuffer g) = 512%nat ->
  Forall (fun c => c <> LF) chars ->
  exists st' g',
    feed serialRxAdvancedAscii st g chars = Ok (st', g') /\
    serialRxState g' = 1 /\
    lineCount st' = lineCount st /\
    lineCharCount st' = lineCharCount st + Z.of_nat (length chars) /\
    serialRxLength g' = serialRxLength g + Z.of_nat (length chars) /\
    length (serialRxBuffer g') = 512%nat /\
    take (Z.to_nat (serialRxLength g')) (serialRxBuffer g')
      = take (Z.to_nat (serialRxLength g)) (serialRxBuffer g) ++ chars /\
    published g' = published g.
Proof.
  unfold ADVANCED_ASCII_LINE_LENGTH, ADVANCED_ASCII_MAX_LENGTH.
  induction chars as [|c rest IH]; intros st g Hs Hc0 Hc H0 HL Hb Hall.
  - exists st, g. cbn [feed length].
    rewrite !Z.add_0_r, app_nil_r. repeat split; auto.
  - apply Forall_cons in Hall as [Hn Hall]. cbn [length] in Hc, HL.
    cbn [feed]. rewrite ascii_char
      by (try assumption;
          unfold ADVANCED_ASCII_LINE_LENGTH, ADVANCED_ASCII_MAX_LENGTH; lia).
    cbn [rbind fst snd].
    match goal with
    | |- context [feed _ ?st1 ?g1 rest] =>
        destruct (IH st1 g1)
          as (st' & g' & H & S' & N' & C' & L' & B' & T' & Pub')
    end; ascii_fields; try assumption; try reflexivity; try lia.
    { rewrite length_wr. exact Hb. }
    revert N' C' L' T' Pub'. ascii_fields. intros N' C' L' T' Pub'.
    exists st', g'. split; [exact H|]. split; [exact S'|].
    split; [exact N'|]. cbn [length].
    split; [lia|]. split; [lia|]. split; [exact B'|]. split; [|exact Pub'].
    rewrite T', take_wr_next by lia. rewrite <- app_assoc. reflexivity.
Qed.

(** One more line of a message in progress. *)
Lemma ascii_next_line (l : list Z) (st : ascii_static) (g : globals) :
  text_ok l ->
  serialRxState g = 1 ->
  lineCharCount st = 0 ->
  0 <= lineCount st < ADVANCED_ASCII_MAX_LINES ->
  0 <= serialRxLength g ->
  serialRxLength g + Z.of_nat (length (text_line l))
    < ADVANCED_ASCII_MAX_LENGTH ->
  length (serialRxBuffer g) = 512%nat ->
  exists st' g',
    feed serialRxAdvancedAscii st g (text_line l) = Ok (st', g') /\
    serialRxState g' = 1 /\
    lineCount st' = lineCount st + 1 /\
    lineCharCount st' = 0 /\
    serialRxLength g' = serialRxLength g + Z.of_nat (length (text_line l)) /\
    length (serialRxBuffer g') = 512%nat /\
    take (Z.to_nat (serialRxLength g')) (serialRxBuffer g')
      = take (Z.to_nat (serialRxLength g)) (serialRxBuffer g)
        ++ text_line l /\
    published g' = published g.
Proof.
  intros (Hne & Hn & Hall) Hs Hc Hlc H0 HL Hb.
  unfold text_line in *. rewrite length_app in HL. cbn [length] in HL.
  unfold ADVANCED_ASCII_MAX_LENGTH, ADVANCED_ASCII_MAX_LINES in *.
  assert (Hn1 : (1 <= length l)%nat)
    by (destruct l; [congruence | simpl; lia]).
  change (l ++ [CR; LF]) with (l ++ [CR] ++ [LF]).
  rewrite app_assoc, feed_app.
  destruct (ascii_collect (l ++ [CR]) st g)
    as (st1 & g1 & H1 & S1 & N1 & C1 & L1 & B1 & T1 & Pub1);
    try assumption; try lia.
  { rewrite Hc, length_app. unfold ADVANCED_ASCII_LINE_LENGTH.
    cbn [length]. lia. }
  { rewrite length_app. unfold ADVANCED_ASCII_MAX_LENGTH.
    cbn [length]. lia. }
  { apply Forall_app. split; [assumption|].
    constructor; [discriminate | constructor]. }
  rewrite H1. cbn [rbind fst snd feed].
  rewrite length_app in C1, L1. cbn [length] in C1, L1.
  rewrite ascii_line_end;
    unfold ADVANCED_ASCII_LINE_LENGTH, ADVANCED_ASCII_MAX_LENGTH,
      ADVANCED_ASCII_MAX_LINES; try assumption; try lia.
  cbn [rbind fst snd]. eexists _, _. split; [reflexivity|]. ascii_fields.
  split; [exact S1|]. split; [lia|]. split; [reflexivity|].
  rewrite !length_app. cbn [length].
  split; [lia|]. split; [rewrite length_wr; exact B1|].
  split; [|exact Pub1].
  rewrite take_wr_next by lia. rewrite T1, <- !app_assoc. reflexivity.
Qed.

(** Line after line. *)
Lemma ascii_lines (lines : list (list Z)) : forall st g,
  Forall text_ok lines ->
  serialRxState g = 1 ->
  lineCharCount st = 0 ->
  0 <= lineCount st ->
  lineCount st + Z.of_nat (length lines) <= ADVANCED_ASCII_MAX_LINES ->
  0 <= serialRxLength g ->
  serialRxLength g + Z.of_nat (length (concat (map text_line lines)))
    < ADVANCED_ASCII_MAX_LENGTH ->
  length (serialRxBuffer g) = 512%nat ->
  exists st' g',
    feed serialRxAdvancedAscii st g (concat (map text_line lines))
      = Ok (st', g') /\
    serialRxState g' = 1 /\
    lineCount st' = lineCount st + Z.of_nat (length lines) /\
    lineCharCount st' = 0 /\
    serialRxLength g'
      = serialRxLength g
        + Z.of_nat (length (concat (map text_line lines))) /\
    length (serialRxBuffer g') = 512%nat /\
    take (Z.to_nat (serialRxLength g')) (serialRxBuffer g')
      = take (Z.to_nat (serialRxLength g)) (serialRxBuffer g)
        ++ concat (map text_line lines) /\
    published g' = published g.
Proof.
  induction lines as [|l lines IH]; intros st g Hok Hs Hc Hlc0 Hlc H0 HL Hb.
  - exists st, g. cbn [map concat feed length].
    rewrite !Z.add_0_r, app_nil_r. repeat split; auto.
  - apply Forall_cons in Hok as [Hl Hok].
    cbn [map concat length] in *. rewrite length_app in HL.
    rewrite feed_app.
    destruct (ascii_next_line l st g Hl Hs Hc)
      as (st1 & g1 & H1 & S1 & N1 & C1 & L1 & B1 & T1 & Pub1);
      try assumption; try lia.
    rewrite H1. cbn [rbind fst snd].
    destruct (IH st1 g1 Hok S1 C1)
      as (st2 & g2 & H2 & S2 & N2 & C2 & L2 & B2 & T2 & Pub2);
      try assumption; try lia.
    exists st2, g2. split; [exact H2|]. split; [exact S2|].
    split; [lia|]. split; [exact C2|]. rewrite length_app.
    split; [lia|]. split; [exact B2|]. split; [|congruence].
    rewrite T2, T1, <- app_assoc. reflexivity.
Qed.

(** The first line of a message, taken in the idle state. *)
Lemma ascii_first_line (l : list Z) (st : ascii_static) (g : globals) :
  text_ok l ->
  serialRxState g = 0 ->
  serialRxLength g = 0 ->
  lineCharCount st = 0 ->
  length (serialRxBuffer g) = 512%nat ->
  exists st' g',
    feed serialRxAdvancedAscii st g (text_line l) = Ok (st', g') /\
    serialRxState g' = 1 /\
    lineCount st' = 1 /\
    lineCharCount st' = 0 /\
    serialRxLength g' = Z.of_nat (length (text_line l)) /\
    length (serialRxBuffer g') = 512%nat /\
    take (Z.to_nat (serialRxLength g')) (serialRxBuffer g') = text_line l /\
    published g' = published g.
Proof.
  intros (Hne & Hn & Hall) Hs HL Hc Hb. unfold text_line.
  assert (Hn1 : (1 <= length l)%nat)
    by (destruct l; [congruence | simpl; lia]).
  change (l ++ [CR; LF]) with (l ++ [CR] ++ [LF]).
  rewrite app_assoc, feed_app.
  destruct (ascii_idle_collect (l ++ [CR]) st g)
    as (st1 & g1 & H1 & S1 & L1 & C1 & _ & _ & B1 & T1 & Pub1);
    try assumption; try lia.
  { rewrite HL, length_app. unfold ADVANCED_ASCII_LINE_LENGTH.
    cbn [length]. lia. }
  { apply Forall_app. split; [assumption|].
    constructor; [discriminate | constructor]. }
  rewrite H1. cbn [rbind fst snd feed].
  rewrite HL, length_app in L1. cbn [length] in L1.
  rewrite HL in T1. cbn [Z.to_nat take app] in T1.
  unfold serialRxAdvancedAscii. rewrite S1. cbv beta iota.
  rewrite append_Ok by (unfold SERIAL_RX_BUFFER_SIZE; lia).
  cbn [rbind]. change (LF =? 10) with true. cbv iota.
  rewrite C1, L1, u8_small, u16_small by lia.
  replace (2 <? 0 + Z.of_nat (length l + 1) + 1) with true
    by (symmetry; apply Z.ltb_lt; lia).
  cbn [rbind fst snd]. eexists _, _. split; [reflexivity|]. ascii_fields.
  split; [reflexivity|]. split; [reflexivity|]. split; [reflexivity|].
  rewrite !length_app. cbn [length].
  split; [lia|]. split; [rewrite length_wr; exact B1|].
  split; [|exact Pub1].
  rewrite take_wr_next by lia. rewrite <- L1, T1, <- !app_assoc.
  reflexivity.
Qed.

(** Blank lines ahead of a message are taken and thrown away. *)
Lemma ascii_blank_lines (n : nat) : forall st g,
  serialRxState g = 0 ->
  serialRxLength g = 0 ->
  lineCharCount st = 0 ->
  length (serialRxBuffer g) = 512%nat ->
  exists st' g',
    feed serialRxAdvancedAscii st g (concat (repeat [CR; LF] n))
      = Ok (st', g') /\
    serialRxState g' = 0 /\
    serialRxLength g' = 0 /\
    lineCharCount st' = 0 /\
    lineCount st' = lineCount st /\
    length (serialRxBuffer g') = 512%nat /\
    published g' = published g.
Proof.
  induction n as [|n IH]; intros st g Hs HL Hc Hb.
  - exists st, g. repeat split; auto.
  - cbn [repeat concat app feed].
    unfold serialRxAdvancedAscii at 1. rewrite Hs. cbv beta iota.
    rewrite append_Ok by (rewrite HL; unfold SERIAL_RX_BUFFER_SIZE; lia).
    cbn [rbind]. change (CR =? 10) with false. cbv iota.
    rewrite Hc, HL. change (u8 (0 + 1)) with 1. change (u16 (0 + 1)) with 1.
    change (ADVANCED_ASCII_LINE_LENGTH <? 1) with false. cbv iota.
    cbn [rbind fst snd].
    unfold serialRxAdvancedAscii at 1. ascii_fields. rewrite Hs.
    cbv beta iota.
    rewrite append_Ok
      by (ascii_fields; unfold SERIAL_RX_BUFFER_SIZE; lia).
    cbn [rbind]. change (LF =? 10) with true. cbv iota.
    ascii_fields. change (u8 (1 + 1)) with 2. change (2 <? 2) with false.
    cbv iota. cbn [rbind fst snd].
    match goal with
    | |- context [feed _ ?st1 ?g1 _] =>
        destruct (IH st1 g1) as (st' & g' & H & S' & L' & C' & N' & B' & P')
    end; ascii_fields; try assumption; try reflexivity.
    { rewrite !length_wr. exact Hb. }
    exists st', g'. repeat split; assumption.
Qed.

(** The blank line that ends a message hands it to the encoder. *)
Lemma ascii_blank_line_forwards (st : ascii_static) (g : globals) :
  serialRxState g = 1 ->
  lineCharCount st = 0 ->
  0 <= serialRxLength g <= 225 ->
  length (serialRxBuffer g) = 512%nat ->
  exists st' g' m,
    feed serialRxAdvancedAscii st g [CR; LF] = Ok (st', g') /\
    published g' = published g ++ [m] /\
    frame_of m
      = take (Z.to_nat (serialRxLength g)) (serialRxBuffer g) ++ [CR; LF] /\
    serialRxState g' = 0 /\
    serialRxLength g' = 0 /\
    lineCharCount st' = 0.
Proof.
  intros Hs Hc HL Hb. cbn [feed].
  rewrite ascii_char;
    unfold ADVANCED_ASCII_LINE_LENGTH, ADVANCED_ASCII_MAX_LENGTH;
    try assumption; try lia; try discriminate.
  cbn [rbind fst snd]. rewrite Hc.
  unfold serialRxAdvancedAscii. ascii_fields. rewrite Hs. cbv beta iota.
  rewrite append_Ok by (ascii_fields; unfold SERIAL_RX_BUFFER_SIZE; lia).
  cbn [rbind]. change (LF =? 10) with true. cbv iota. ascii_fields.
  change (u8 (0 + 1 + 1)) with 2. change (2 <? 2) with false.
  change ((2 =? 2) && (CR =? 13)) with true. cbv iota.
  rewrite u16_small by lia.
  match goal with
  | |- context [serialTxEventToNimbus ?x] => set (g4 := x)
  end.
  assert (L4 : serialRxLength g4 = serialRxLength g + 1 + 1)
    by (subst g4; ascii_fields; lia).
  assert (B4 : length (serialRxBuffer g4) = 512%nat)
    by (subst g4; ascii_fields; rewrite !length_wr; assumption).
  assert (T4 : take (Z.to_nat (serialRxLength g + 1 + 1)) (serialRxBuffer g4)
               = take (Z.to_nat (serialRxLength g)) (serialRxBuffer g)
                 ++ [CR; LF]).
  { subst g4. ascii_fields.
    rewrite take_wr_next by (rewrite ?length_wr; lia).
    rewrite take_wr_next by (rewrite ?length_wr; lia).
    rewrite <- app_assoc. reflexivity. }
  destruct (serialTxEventToNimbus_fits g4) as [g5 H5];
    [rewrite L4; unfold EVENT_DATA_SIZE; lia|].
  destruct (serialTxEventToNimbus_published g4 g5 H5) as (m & Hm & Hf);
    [lia | lia |].
  rewrite H5. cbn [rbind fst snd].
  eexists _, _, m. split; [reflexivity|]. ascii_fields.
  split; [rewrite Hm; subst g4; ascii_fields; reflexivity|].
  split; [|repeat split].
  unfold frame_of. rewrite Hf, L4, T4. reflexivity.
Qed.

(** A message is forwarded whole. *)
Lemma ascii_message (l : list Z) (lines : list (list Z))
  (st : ascii_static) (g : globals) :
  Forall text_ok (l :: lines) ->
  (length lines <= 7)%nat ->
  (length (text_message (l :: lines)) <= 227)%nat ->
  serialRxState g = 0 ->
  serialRxLength g = 0 ->
  lineCharCount st = 0 ->
  length (serialRxBuffer g) = 512%nat ->
  exists st' g' m,
    feed serialRxAdvancedAscii st g (text_message (l :: lines))
      = Ok (st', g') /\
    published g' = published g ++ [m] /\
    frame_of m = text_message (l :: lines) /\
    serialRxState g' = 0 /\
    serialRxLength g' = 0.
Proof.
  intros Hok Hn Hlen Hs HL Hc Hb. apply Forall_cons in Hok as [Hl Hok].
  unfold text_message in *. cbn [map concat] in *.
  rewrite !length_app in Hlen. cbn [length] in Hlen.
  destruct (ascii_first_line l st g Hl Hs HL Hc Hb)
    as (st1 & g1 & H1 & S1 & N1 & C1 & L1 & B1 & T1 & P1).
  destruct (ascii_lines lines st1 g1 Hok S1 C1)
    as (st2 & g2 & H2 & S2 & N2 & C2 & L2 & B2 & T2 & P2);
    unfold ADVANCED_ASCII_MAX_LINES, ADVANCED_ASCII_MAX_LENGTH;
    try assumption; try lia.
  destruct (ascii_blank_line_forwards st2 g2 S2 C2)
    as (st3 & g3 & m & H3 & P3 & F3 & S3 & L3 & C3);
    try assumption; try lia.
  exists st3, g3, m.
  rewrite !feed_app, H1. cbn [rbind fst snd]. rewrite H2.
  cbn [rbind fst snd].
  split; [exact H3|]. split; [congruence|].
  split; [|split; assumption].
  rewrite F3, T2, T1, <- app_assoc. reflexivity.
Qed.

(** X16. A printed message is forwarded whole: blank lines ahead of it
    are dropped; then one to eight lines, each of one to 41 characters
    before its CR LF, and the blank line, 227 bytes at most in all, are
    published as one record whose frame is the message, blank line
    included, and the parser is idle again with an empty message. *)
Theorem X16_ascii_message_is_forwarded
  (n : nat) (l : list Z) (lines : list (list Z))
  (st : ascii_static) (g : globals) :
  Forall text_ok (l :: lines) ->
  (length lines <= 7)%nat ->
  (length (text_message (l :: lines)) <= 227)%nat ->
  serialRxState g = 0 ->
  serialRxLength g = 0 ->
  lineCharCount st = 0 ->
  length (serialRxBuffer g) = 512%nat ->
  exists st' g' m,
    feed serialRxAdvancedAscii st g
         (concat (repeat [CR; LF] n) ++ text_message (l :: lines))
      = Ok (st', g') /\
    published g' = published g ++ [m] /\
    frame_of m = text_message (l :: lines) /\
    serialRxState g' = 0 /\
    serialRxLength g' = 0.
Proof.
  intros Hok Hn Hlen Hs HL Hc Hb.
  destruct (ascii_blank_lines n st g Hs HL Hc Hb)
    as (st0 & g0 & H0 & S0 & L0 & C0 & _ & B0 & P0).
  destruct (ascii_message l lines st0 g0 Hok Hn Hlen S0 L0 C0 B0)
    as (st3 & g3 & m & H3 & P3 & F3 & S3 & L3).
  exists st3, g3, m. rewrite feed_app, H0. cbn [rbind fst snd].
  split; [exact H3|]. split; [congruence|]. auto.
Qed.

Lemma X16_ascii_message_is_forwarded_witness :
  exists st' g' m,
    feed serialRxAdvancedAscii ascii_static_init (power_on ascii_cfg 0)
         (concat (repeat [CR; LF] 2)
          ++ text_message (LINE1 :: [repeat 66 41; [67]]))
      = Ok (st', g') /\
    published g' = published (power_on ascii_cfg 0) ++ [m] /\
    frame_of m = text_message (LINE1 :: [repeat 66 41; [67]]) /\
    serialRxState g' = 0 /\
    serialRxLength g' = 0.
Proof.
  apply (X16_ascii_message_is_forwarded 2 LINE1 [repeat 66 41; [67]]).
  - repeat constructor; try discriminate; cbn; lia.
  - cbn. lia.
  - vm_compute. lia.
  - reflexivity.
  - reflexivity.
  - reflexivity.
  - reflexivity.
Defined.

(** ** Messages the ASCII parser throws away *)

(** The ninth line: its LF sends the parser to error recovery. *)
Lemma ascii_ninth_line (l : list Z) (st : ascii_static) (g : globals) :
  text_ok l ->
  serialRxState g = 1 ->
  lineCharCount st = 0 ->
  lineCount st = ADVANCED_ASCII_MAX_LINES ->
  0 <= serialRxLength g ->
  serialRxLength g + Z.of_nat (length (text_line l))
    <= ADVANCED_ASCII_MAX_LENGTH ->
  length (serialRxBuffer g) = 512%nat ->
  exists st' g',
    feed serialRxAdvancedAscii st g (text_line l) = Ok (st', g') /\
    serialRxState g' = 2 /\
    lineCharCount st' = 0 /\
    published g' = published g.
Proof.
  intros (Hne & Hn & Hall) Hs Hc Hlc H0 HL Hb.
  unfold text_line in *. rewrite length_app in HL. cbn [length] in HL.
  unfold ADVANCED_ASCII_MAX_LENGTH, ADVANCED_ASCII_MAX_LINES in *.
  assert (Hn1 : (1 <= length l)%nat)
    by (destruct l; [congruence | simpl; lia]).
  change (l ++ [CR; LF]) with (l ++ [CR] ++ [LF]).
  rewrite app_assoc, feed_app.
  destruct (ascii_collect (l ++ [CR]) st g)
    as (st1 & g1 & H1 & S1 & N1 & C1 & L1 & B1 & T1 & Pub1);
    try assumption; try lia.
  { rewrite Hc, length_app. unfold ADVANCED_ASCII_LINE_LENGTH.
    cbn [length]. lia. }
  { rewrite length_app. unfold ADVANCED_ASCII_MAX_LENGTH.
    cbn [length]. lia. }
  { apply Forall_app. split; [assumption|].
    constructor; [discriminate | constructor]. }
  rewrite H1. cbn [rbind fst snd feed].
  rewrite length_app in C1, L1. cbn [length] in C1, L1.
  unfold serialRxAdvancedAscii. rewrite S1. cbv beta iota.
  rewrite append_Ok by (unfold SERIAL_RX_BUFFER_SIZE; lia).
  cbn [rbind]. change (LF =? 10) with true. cbv iota.
  rewrite C1, N1, Hlc, Hc. rewrite (u8_small (0 + _ + 1)) by lia.
  replace (2 <? 0 + Z.of_nat (length l + 1) + 1) with true
    by (symmetry; apply Z.ltb_lt; lia).
  change (ADVANCED_ASCII_MAX_LINES <? u8 (8 + 1)) with true. cbv iota.
  cbn [rbind fst snd]. eexists _, _. split; [reflexivity|]. ascii_fields.
  repeat split. exact Pub1.
Qed.

(** In error recovery characters are counted, not kept. *)
Lemma ascii_skip_chars (chars : list Z) : forall st g,
  serialRxState g = 2 ->
  0 <= lineCharCount st ->
  lineCharCount st + Z.of_nat (length chars) < 256 ->
  Forall (fun c => c <> LF) chars ->
  exists st',
    feed serialRxAdvancedAscii st g chars = Ok (st', g) /\
    lineCharCount st' = lineCharCount st + Z.of_nat (length chars) /\
    (chars <> [] -> previousChar st' = List.last chars 0).
Proof.
  induction chars as [|c rest IH]; intros st g Hs H0 HL Hall.
  - exists st. cbn [feed length]. rewrite Z.add_0_r.
    repeat split. intros []. reflexivity.
  - apply Forall_cons in Hall as [Hc Hall]. cbn [length] in HL.
    cbn [feed]. unfold serialRxAdvancedAscii at 1. rewrite Hs.
    cbv beta iota. unfold LF in Hc.
    replace (c =? 10) with false by (symmetry; apply Z.eqb_neq; exact Hc).
    rewrite u8_small by lia. cbn [rbind fst snd].
    match goal with
    | |- context [feed _ ?st1 g rest] =>
        destruct (IH st1 g) as (st' & H & C' & P')
    end; ascii_fields; try assumption; try lia.
    revert C' P'. ascii_fields. intros C' P'.
    exists st'. split; [exact H|]. cbn [length]. split; [lia|].
    intros _. destruct rest as [|d rest'].
    + cbn [feed] in H. injection H as <-. reflexivity.
    + rewrite P' by discriminate. reflexivity.
Qed.

(** A line in error recovery leaves everything as it is. *)
Lemma ascii_skip_line (l : list Z) (st : ascii_static) (g : globals) :
  text_ok l ->
  serialRxState g = 2 ->
  lineCharCount st = 0 ->
  exists st',
    feed serialRxAdvancedAscii st g (text_line l) = Ok (st', g) /\
    lineCharCount st' = 0.
Proof.
  intros (Hne & Hn & Hall) Hs Hc. unfold text_line.
  assert (Hn1 : (1 <= length l)%nat)
    by (destruct l; [congruence | simpl; lia]).
  change (l ++ [CR; LF]) with (l ++ [CR] ++ [LF]).
  rewrite app_assoc, feed_app.
  destruct (ascii_skip_chars (l ++ [CR]) st g) as (st1 & H1 & C1 & _);
    try assumption; try lia.
  { rewrite Hc, length_app. cbn [length]. lia. }
  { apply Forall_app. split; [assumption|].
    constructor; [discriminate | constructor]. }
  rewrite H1. cbn [rbind fst snd feed].
  rewrite Hc, length_app in C1. cbn [length] in C1.
  unfold serialRxAdvancedAscii. rewrite Hs. cbv beta iota.
  change (LF =? 10) with true. cbv iota.
  rewrite C1, (u8_small (0 + _ + 1)) by lia.
  replace (2 <? 0 + Z.of_nat (length l + 1) + 1) with true
    by (symmetry; apply Z.ltb_lt; lia).
  cbn [rbind fst snd]. eexists. split; reflexivity.
Qed.

Lemma ascii_skip_lines (lines : list (list Z)) : forall st g,
  Forall text_ok lines ->
  serialRxState g = 2 ->
  lineCharCount st = 0 ->
  exists st',
    feed serialRxAdvancedAscii st g (concat (map text_line lines))
      = Ok (st', g) /\
    lineCharCount st' = 0.
Proof.
  induction lines as [|l lines IH]; intros st g Hok Hs Hc.
  - exists st. split; [reflexivity | exact Hc].
  - apply Forall_cons in Hok as [Hl Hok]. cbn [map concat].
    rewrite feed_app.
    destruct (ascii_skip_line l st g Hl Hs Hc) as (st1 & H1 & C1).
    rewrite H1. cbn [rbind fst snd]. apply IH; assumption.
Qed.

(** The blank line that ends error recovery. *)
Lemma ascii_recovers (st : ascii_static) (g : globals) :
  serialRxState g = 2 ->
  lineCharCount st = 0 ->
  exists st' g',
    feed serialRxAdvancedAscii st g [CR; LF] = Ok (st', g') /\
    serialRxState g' = 0 /\
    serialRxLength g' = 0 /\
    lineCharCount st' = 0 /\
    serialRxBuffer g' = serialRxBuffer g /\
    published g' = published g.
Proof.
  intros Hs Hc. cbn [feed]. unfold serialRxAdvancedAscii at 1.
  rewrite Hs, Hc. cbv beta iota. change (CR =? 10) with false. cbv iota.
  cbn [rbind fst snd]. unfold serialRxAdvancedAscii. rewrite Hs.
  cbv beta iota. change (LF =? 10) with true. cbv iota. ascii_fields.
  change (u8 (u8 (0 + 1) + 1)) with 2. change (2 <? 2) with false.
  change ((2 =? 2) && (CR =? 13)) with true. cbv iota.
  cbn [rbind fst snd]. eexists _, _. split; [reflexivity|].
  repeat split.
Qed.

(** X17. A message of more than eight lines is thrown away whole: the LF
    of the ninth line sends the parser to error recovery, where nothing
    is stored or published whatever lines of 1 to 41 characters follow,
    and the blank line at the end brings it back to idle with an empty
    message. *)
Theorem X17_ascii_ninth_line_drops_the_message
  (l1 l9 : list Z) (mid more : list (list Z))
  (st : ascii_static) (g : globals) :
  Forall text_ok (l1 :: mid ++ l9 :: more) ->
  length mid = 7%nat ->
  (length (concat (map text_line (l1 :: mid ++ [l9]))) <= 312)%nat ->
  serialRxState g = 0 ->
  serialRxLength g = 0 ->
  lineCharCount st = 0 ->
  length (serialRxBuffer g) = 512%nat ->
  exists st' g',
    feed serialRxAdvancedAscii st g (text_message (l1 :: mid ++ l9 :: more))
      = Ok (st', g') /\
    published g' = published g /\
    serialRxState g' = 0 /\
    serialRxLength g' = 0 /\
    lineCharCount st' = 0.
Proof.
  intros Hok Hmid Hlen Hs HL Hc Hb.
  apply Forall_cons in Hok as [H1ok Hok].
  apply Forall_app in Hok as [Hmok Hok].
  apply Forall_cons in Hok as [H9ok Hmore].
  unfold text_message. cbn [map concat] in *.
  rewrite map_app, concat_app in *. cbn [map concat] in *.
  rewrite app_nil_r in Hlen. rewrite !length_app in Hlen.
  destruct (ascii_first_line l1 st g H1ok Hs HL Hc Hb)
    as (st1 & g1 & H1 & S1 & N1 & C1 & L1 & B1 & T1 & P1).
  destruct (ascii_lines mid st1 g1 Hmok S1 C1)
    as (st2 & g2 & H2 & S2 & N2 & C2 & L2 & B2 & T2 & P2);
    unfold ADVANCED_ASCII_MAX_LINES, ADVANCED_ASCII_MAX_LENGTH;
    try assumption; try lia.
  { pose proof H9ok as (Hne & _).
    assert (1 <= length (text_line l9))%nat
      by (unfold text_line; rewrite length_app; cbn [length]; lia).
    lia. }
  destruct (ascii_ninth_line l9 st2 g2 H9ok S2 C2)
    as (st3 & g3 & H3 & S3 & C3 & P3);
    unfold ADVANCED_ASCII_MAX_LINES, ADVANCED_ASCII_MAX_LENGTH;
    try assumption; try lia.
  destruct (ascii_skip_lines more st3 g3 Hmore S3 C3) as (st4 & H4 & C4).
  destruct (ascii_recovers st4 g3 S3 C4)
    as (st5 & g5 & H5 & S5 & L5 & C5 & _ & P5).
  exists st5, g5.
  rewrite <- !app_assoc, feed_app, H1. cbn [rbind fst snd].
  rewrite feed_app, H2. cbn [rbind fst snd].
  rewrite feed_app, H3. cbn [rbind fst snd].
  rewrite feed_app, H4. cbn [rbind fst snd].
  split; [exact H5|]. split; [congruence|]. auto.
Qed.

Lemma X17_ascii_ninth_line_drops_the_message_witness :
  exists st' g',
    feed serialRxAdvancedAscii ascii_static_init (power_on ascii_cfg 0)
         (text_message (LINE1 :: repeat LINE1 7 ++ LINE1 :: [[67]]))
      = Ok (st', g') /\
    published g' = published (power_on ascii_cfg 0) /\
    serialRxState g' = 0 /\
    serialRxLength g' = 0 /\
    lineCharCount st' = 0.
Proof.
  apply (X17_ascii_ninth_line_drops_the_message
           LINE1 LINE1 (repeat LINE1 7) [[67]]).
  - repeat constructor; try discriminate; cbn; lia.
  - reflexivity.
  - vm_compute. lia.
  - reflexivity.
  - reflexivity.
  - reflexivity.
  - reflexivity.
Defined.

(** ** The registry over a run *)

Lemma registry_inv_boot : registry_inv boot.
Proof.
  unfold registry_inv, PROTOCOL_COUNT. cbn.
  split; [lia|]. split; [reflexivity|]. split; [reflexivity|].
  intros _. reflexivity.
Qed.

Lemma setProtocolType_inv (s : interface) (X : Z) :
  registry_inv s -> 0 <= X < PROTOCOL_COUNT ->
  exists s1,
    setProtocolType X s = Ok s1 /\ registry_inv s1 /\ currentId s1 = X /\
    (parser_of X = None -> parser_of (currentId s) <> None ->
     pwrEnablePin s1 = false) /\
    (parser_of X = None -> parser_of (currentId s) = None ->
     pwrEnablePin s1 = pwrEnablePin s).
Proof.
  destruct s as [h p u c l]. unfold registry_inv.
  cbn [currentId protocolRxHandler Serial1_running pwrEnablePin].
  intros (Hc & Hh & Hu & Hp) HX.
  each_protocol Hc; each_protocol HX; cbn in Hp |- *;
    try (rewrite Hp by discriminate);
    (eexists; split; [reflexivity|]); cbn;
    (split; [split; [unfold PROTOCOL_COUNT; lia|];
             split; [reflexivity|]; split; [reflexivity|];
             first [reflexivity | intros H; contradiction H; reflexivity]|]);
    (split; [reflexivity|]);
    split; intros H1 H2;
    first [reflexivity | discriminate H1 | discriminate H2
          | contradiction H2; reflexivity].
Qed.

(** X18. The registry keeps its invariant over any run of switches
    between valid ids, starting at boot or anywhere the invariant holds:
    every switch returns, the installed handler is always the parser of
    the active protocol (none for an id without one), the UART runs
    exactly while a handler is installed, and a handler is never
    installed without the isolated supply switched on. *)
Theorem X18_registry_invariant (ids : list Z) (s : interface) :
  registry_inv s ->
  Forall (fun i => 0 <= i < PROTOCOL_COUNT) ids ->
  registry_inv boot /\
  exists s',
    switches ids s = Ok s' /\
    registry_inv s' /\
    currentId s' = List.last (currentId s :: ids) 0.
Proof.
  intros Hs Hids. split; [apply registry_inv_boot|].
  revert s Hs. induction Hids as [|i rest Hi _ IH]; intros s Hs.
  - exists s. repeat split; apply Hs.
  - destruct (setProtocolType_inv s i Hs Hi) as (s1 & H1 & Hinv1 & Hc1 & _).
    destruct (IH s1 Hinv1) as (s2 & H2 & Hinv2 & Hc2).
    exists s2. cbn [switches]. rewrite H1. cbn [rbind].
    split; [exact H2|]. split; [exact Hinv2|].
    rewrite Hc2, Hc1. reflexivity.
Qed.

Lemma X18_registry_invariant_witness :
  registry_inv boot /\
  exists s',
    switches [PROTOCOL_GENT; PROTOCOL_KENTEC; PROTOCOL_ADVANCED_ASCII] boot
      = Ok s' /\
    registry_inv s' /\
    currentId s'
    = List.last (currentId boot
                 :: [PROTOCOL_GENT; PROTOCOL_KENTEC; PROTOCOL_ADVANCED_ASCII])
                0.
Proof.
  apply (X18_registry_invariant
           [PROTOCOL_GENT; PROTOCOL_KENTEC; PROTOCOL_ADVANCED_ASCII] boot).
  - apply registry_inv_boot.
  - unfold PROTOCOL_COUNT, PROTOCOL_GENT, PROTOCOL_KENTEC,
      PROTOCOL_ADVANCED_ASCII.
    repeat constructor; lia.
Defined.

(** X19. What one switch does to the supply and the UART.  A switch to
    Gent, Advanced or Advanced ASCII installs that parser with supply and
    UART on.  A switch to any other id installs nothing and leaves the
    UART stopped: it switches the supply off if a parser was running and
    leaves the supply as it was if none was, so that from boot the six
    protocols with empty handlers start nothing at all. *)
Theorem X19_switch_and_supply (s : interface) (X : Z) :
  registry_inv s -> 0 <= X < PROTOCOL_COUNT ->
  exists s1,
    setProtocolType X s = Ok s1 /\
    protocolRxHandler s1 = parser_of X /\
    (parser_of X <> None ->
     pwrEnablePin s1 = true /\ Serial1_running s1 = true) /\
    (parser_of X = None ->
     Serial1_running s1 = false /\
     pwrEnablePin s1
     = match protocolRxHandler s with
       | Some _ => false
       | None => pwrEnablePin s
       end) /\
    (parser_of X <> None <->
     X = PROTOCOL_GENT \/ X = PROTOCOL_ADVANCED \/
     X = PROTOCOL_ADVANCED_ASCII).
Proof.
  intros Hs HX.
  destruct (setProtocolType_inv s X Hs HX)
    as (s1 & H1 & (Hc1 & Hh1 & Hu1 & Hp1) & HX1 & Hoff & Hsame).
  destruct Hs as (Hc & Hh & Hu & Hp).
  exists s1. split; [exact H1|]. rewrite HX1 in Hh1.
  split; [exact Hh1|]. split; [|split].
  - intros Hn. rewrite <- Hh1 in Hn. split; [apply Hp1, Hn|].
    rewrite Hu1. destruct (protocolRxHandler s1); [reflexivity|].
    contradiction Hn. reflexivity.
  - intros Hn. split; [rewrite Hu1, Hh1, Hn; reflexivity|].
    rewrite Hh. destruct (parser_of (currentId s)) eqn:E.
    + apply Hoff; [exact Hn | discriminate].
    + apply Hsame; [exact Hn | reflexivity].
  - unfold PROTOCOL_GENT, PROTOCOL_ADVANCED, PROTOCOL_ADVANCED_ASCII.
    clear - HX. split.
    + intros Hn. each_protocol HX; try (contradiction Hn; reflexivity); lia.
    + intros [-> | [-> | ->]]; discriminate.
Qed.

Lemma X19_switch_and_supply_witness :
  exists s1,
    setProtocolType PROTOCOL_KENTEC boot = Ok s1 /\
    protocolRxHandler s1 = parser_of PROTOCOL_KENTEC /\
    (parser_of PROTOCOL_KENTEC <> None ->
     pwrEnablePin s1 = true /\ Serial1_running s1 = true) /\
    (parser_of PROTOCOL_KENTEC = None ->
     Serial1_running s1 = false /\
     pwrEnablePin s1
     = match protocolRxHandler boot with
       | Some _ => false
       | None => pwrEnablePin boot
       end) /\
    (parser_of PROTOCOL_KENTEC <> None <->
     PROTOCOL_KENTEC = PROTOCOL_GENT \/
     PROTOCOL_KENTEC = PROTOCOL_ADVANCED \/
     PROTOCOL_KENTEC = PROTOCOL_ADVANCED_ASCII).
Proof.
  apply (X19_switch_and_supply boot PROTOCOL_KENTEC).
  - apply registry_inv_boot.
  - unfold PROTOCOL_COUNT, PROTOCOL_KENTEC. lia.
Defined.

(** ** The scan of the UART *)

Lemma scans_fed (fuel : nat) (bytes : list Z) : forall rest d,
  Serial1_pending d = bytes ++ rest ->
  scans fuel (length bytes) d = fed fuel bytes rest d.
Proof.
  induction bytes as [|c bytes IH]; intros rest d Hd.
  - destruct d as [s g gs as_ ts p]. cbn in Hd. subst p.
    unfold fed. cbn [scans length registry feed rbind fst snd globals_of
                     gent_statics adv_statics ascii_statics].
    destruct (protocolRxHandler s) as [[ | | ]|]; reflexivity.
  - cbn [length scans]. unfold serialScan. rewrite Hd. cbn [app].
    unfold fed. destruct (protocolRxHandler (registry d)) as [h|] eqn:Eh.
    + destruct h; unfold call_handler; cbn [feed].
      * destruct (serialRxGent _ _ c) as [[st1 g1]|f]; cbn [rbind fst snd];
          [|reflexivity].
        rewrite (IH rest) by reflexivity. unfold fed.
        cbn [registry globals_of gent_statics adv_statics ascii_statics].
        rewrite Eh. reflexivity.
      * destruct (serialRxAdvanced _ _ _ c) as [[st1 g1]|f];
          cbn [rbind fst snd]; [|reflexivity].
        rewrite (IH rest) by reflexivity. unfold fed.
        cbn [registry globals_of gent_statics adv_statics ascii_statics].
        rewrite Eh. reflexivity.
      * destruct (serialRxAdvancedAscii _ _ c) as [[st1 g1]|f];
          cbn [rbind fst snd]; [|reflexivity].
        rewrite (IH rest) by reflexivity. unfold fed.
        cbn [registry globals_of gent_statics adv_statics ascii_statics].
        rewrite Eh. reflexivity.
    + cbn [rbind]. rewrite (IH rest) by reflexivity. unfold fed.
      cbn [registry globals_of gent_statics adv_statics ascii_statics].
      rewrite Eh. reflexivity.
Qed.

(** X20. Passes of [serialScan] are the byte stream of the installed
    parser: as many passes as bytes are pending give each byte, in order,
    to the parser [protocolRxHandler] points to, with that parser's own
    statics, and leave the other parsers' statics alone; with no handler
    installed the bytes are taken from the UART and lost, and the globals
    stay as they are. *)
Theorem X20_scans_feed_the_installed_parser
  (fuel : nat) (bytes rest : list Z) (d : device) :
  Serial1_pending d = bytes ++ rest ->
  scans fuel (length bytes) d = fed fuel bytes rest d /\
  (protocolRxHandler (registry d) = None ->
   exists d',
     scans fuel (length bytes) d = Ok d' /\
     globals_of d' = globals_of d /\
     Serial1_pending d' = rest).
Proof.
  intros Hd. pose proof (scans_fed fuel bytes rest d Hd) as H.
  split; [exact H|]. intros Hn. rewrite H. unfold fed. rewrite Hn.
  eexists. split; [reflexivity|]. split; reflexivity.
Qed.

Lemma X20_scans_feed_the_installed_parser_witness :
  scans 0 (length gent_fire_frame)
        (started gent_cfg (install RxGent boot) (gent_fire_frame ++ [1; 2]))
  = fed 0 gent_fire_frame [1; 2]
        (started gent_cfg (install RxGent boot) (gent_fire_frame ++ [1; 2]))
  /\
  (protocolRxHandler
     (registry (started gent_cfg (install RxGent boot)
                        (gent_fire_frame ++ [1; 2]))) = None ->
   exists d',
     scans 0 (length gent_fire_frame)
           (started gent_cfg (install RxGent boot)
                    (gent_fire_frame ++ [1; 2])) = Ok d' /\
     globals_of d'
     = globals_of (started gent_cfg (install RxGent boot)
                           (gent_fire_frame ++ [1; 2])) /\
     Serial1_pending d' = [1; 2]).
Proof.
  apply (X20_scans_feed_the_installed_parser 0 gent_fire_frame [1; 2]).
  reflexivity.
Defined.

(** ** hexDump, line by line *)

Lemma length_poke ob pos s :
  (pos + length s <= length ob)%nat -> length (poke ob pos s) = length ob.
Proof.
  intros H. unfold poke. rewrite !length_app, length_take, length_drop. lia.
Qed.

Lemma take_poke_le ob pos s n :
  (n <= pos <= length ob)%nat -> take n (poke ob pos s) = take n ob.
Proof.
  intros H. unfold poke. rewrite take_app_le by (rewrite length_take; lia).
  rewrite take_take. f_equal. lia.
Qed.

Lemma take_poke_app ob pos s1 s2 :
  (pos <= length ob)%nat ->
  take (pos + length s1) (poke ob pos (s1 ++ s2)) = take pos ob ++ s1.
Proof.
  intros H. unfold poke.
  rewrite take_app_ge by (rewrite length_take; lia).
  rewrite length_take. replace (pos + length s1 - pos `min` length ob)%nat
    with (length s1) by lia.
  rewrite <- app_assoc, take_app_length. reflexivity.
Qed.

Lemma drop_poke_ge ob pos s n :
  (pos + length s <= n)%nat -> (pos + length s <= length ob)%nat ->
  drop n (poke ob pos s) = drop n ob.
Proof.
  intros H1 H2. unfold poke.
  rewrite drop_app_ge by (rewrite length_take; lia).
  rewrite length_take.
  rewrite drop_app_ge by lia. rewrite drop_drop. f_equal. lia.
Qed.

Lemma lookup_poke ob pos s q :
  (pos <= length ob)%nat -> (q < length s)%nat ->
  poke ob pos s !! (pos + q)%nat = s !! q.
Proof.
  intros H1 H2. unfold poke.
  rewrite lookup_app_r by (rewrite length_take; lia).
  rewrite length_take. replace (pos + q - pos `min` length ob)%nat with q
    by lia.
  apply lookup_app_l. exact H2.
Qed.

Lemma sprintf_Ok ob pos s :
  0 <= pos -> pos + Z.of_nat (length s) < OB_SIZE ->
  sprintf ob pos s = Ok (poke ob (Z.to_nat pos) (s ++ [0])).
Proof.
  intros H0 H. unfold sprintf.
  replace ((0 <=? pos) && (pos + Z.of_nat (length s) <? OB_SIZE)) with true;
    [reflexivity|].
  symmetry. apply andb_true_iff. split; [apply Z.leb_le | apply Z.ltb_lt]; lia.
Qed.

Lemma seq_snoc (j : nat) : seq 0 (S j) = seq 0 j ++ [j].
Proof. rewrite seq_S. reflexivity. Qed.

Lemma length_fmt_02X b : length (fmt_02X b) = 2%nat.
Proof. reflexivity. Qed.

(** One turn of the loop over the columns. *)
Lemma hexDump_column_done buf i chunk head ob (j : nat) :
  (forall q b, chunk !! q = Some b ->
               buf !! Z.to_nat (i + Z.of_nat q) = Some b) ->
  (j < 16)%nat ->
  columns_done head chunk j ob ->
  exists ob',
    hexDump_column buf i (Z.of_nat (length chunk)) 8 ob (Z.of_nat j) = Ok ob' /\
    columns_done head chunk (S j) ob'.
Proof.
  intros Hbuf Hj (Hlen & Hhex & Hchr & _). unfold hexDump_column.
  assert (Hcell : exists h c,
    length h = 3%nat /\ cell_hex chunk j = h /\ cell_chr chunk j = c /\
    (if Z.of_nat j <? Z.of_nat (length chunk)
     then match buf !! Z.to_nat (i + Z.of_nat j) with
          | Some b =>
              do ob1 <- sprintf ob (8 + Z.of_nat j * 3) (fmt_02X b ++ [32]);
              sprintf ob1 (8 + 16 * 3 + Z.of_nat j + 2)
                      [if isprint b then b else 46]
          | None => Fault ReadOverrun
          end
     else do ob1 <- sprintf ob (8 + Z.of_nat j * 3) [32; 32; 32];
          sprintf ob1 (8 + 16 * 3 + Z.of_nat j + 2) [32])
    = (do ob1 <- sprintf ob (8 + Z.of_nat j * 3) h;
       sprintf ob1 (8 + 16 * 3 + Z.of_nat j + 2) [c])).
  { unfold cell_hex, cell_chr.
    destruct (Z.of_nat j <? Z.of_nat (length chunk)) eqn:E.
    - apply Z.ltb_lt in E.
      destruct (lookup_lt_is_Some_2 chunk j) as [b Hb]; [lia|].
      rewrite Hb, (Hbuf _ _ Hb).
      exists (fmt_02X b ++ [32]), (dump_char b). repeat split.
    - apply Z.ltb_ge in E. rewrite (lookup_ge_None_2 chunk j) by lia.
      exists [32; 32; 32], 32. repeat split. }
  destruct Hcell as (h & c & Hh & Eh & Ec & ->).
  rewrite sprintf_Ok by (unfold OB_SIZE; lia). cbn [rbind].
  set (ob1 := poke ob _ _).
  assert (Hlen1 : length ob1 = 80%nat).
  { subst ob1. rewrite length_poke; [exact Hlen|].
    rewrite length_app. cbn [length]. lia. }
  rewrite sprintf_Ok by (unfold OB_SIZE; cbn [length]; lia).
  eexists. split; [reflexivity|]. unfold columns_done.
  split; [|split; [|split]].
  - rewrite length_poke; [exact Hlen1|]. cbn [length app]. lia.
  - rewrite take_poke_le by lia. subst ob1.
    replace (Z.to_nat (8 + Z.of_nat j * 3)) with (8 + 3 * j)%nat by lia.
    replace (8 + 3 * S j)%nat with (8 + 3 * j + length h)%nat by lia.
    rewrite take_poke_app by lia.
    rewrite Hhex, seq_snoc, flat_map_app. cbn [flat_map].
    rewrite Eh, app_nil_r, <- app_assoc. reflexivity.
  - rewrite take_drop_commute.
    replace (Z.to_nat (8 + 16 * 3 + Z.of_nat j + 2)) with (58 + j)%nat by lia.
    replace (57 + (1 + S j))%nat with (58 + j + length [c])%nat
      by (cbn [length]; lia).
    rewrite take_poke_app by lia.
    rewrite drop_app_le by (rewrite length_take; lia).
    replace (58 + j)%nat with (57 + (1 + j))%nat by lia.
    rewrite <- take_drop_commute. subst ob1.
    rewrite drop_poke_ge.
    + rewrite Hchr, seq_snoc, map_app. cbn [map]. rewrite Ec. reflexivity.
    + rewrite length_app. cbn [length]. lia.
    + rewrite length_app. cbn [length]. lia.
  - intros _.
    replace (Z.to_nat (8 + 16 * 3 + Z.of_nat j + 2)) with (58 + j)%nat by lia.
    replace (58 + S j)%nat with (58 + j + 1)%nat by lia.
    rewrite lookup_poke by (cbn [length app]; lia). reflexivity.
Qed.

Lemma hexDump_columns_done buf i chunk head (cnt : nat) :
  (forall q b, chunk !! q = Some b ->
               buf !! Z.to_nat (i + Z.of_nat q) = Some b) ->
  forall (j : nat) ob,
    (j + cnt <= 16)%nat ->
    columns_done head chunk j ob ->
    exists ob',
      hexDump_columns cnt buf i (Z.of_nat (length chunk)) 8 ob (Z.of_nat j)
        = Ok ob' /\
      columns_done head chunk (j + cnt) ob'.
Proof.
  intros Hbuf. induction cnt as [|cnt IH]; intros j ob Hj Hinv.
  - exists ob. rewrite Nat.add_0_r. split; [reflexivity | exact Hinv].
  - cbn [hexDump_columns].
    destruct (hexDump_column_done buf i chunk head ob j Hbuf)
      as (ob1 & H1 & I1);
      [lia | exact Hinv |].
    rewrite H1. cbn [rbind].
    replace (Z.of_nat j + 1) with (Z.of_nat (S j)) by lia.
    destruct (IH (S j) ob1) as (ob2 & H2 & I2); [lia | exact I1 |].
    exists ob2. split; [exact H2|].
    replace (j + S cnt)%nat with (S j + cnt)%nat by lia. exact I2.
Qed.

(** The columns of a whole line, bytes first and blanks behind. *)
Lemma cells_hex chunk (m : nat) : forall start,
  flat_map (cell_hex chunk) (seq start m)
  = flat_map (fun b => fmt_02X b ++ [32]) (take m (drop start chunk))
    ++ repeat 32 (3 * (m - length (take m (drop start chunk)))).
Proof.
  induction m as [|m IH]; intros start; [reflexivity|].
  cbn [seq flat_map]. rewrite IH. unfold cell_hex.
  destruct (chunk !! start) as [b|] eqn:E.
  - rewrite (drop_S _ _ _ E). cbn [take flat_map length].
    rewrite <- !app_assoc. reflexivity.
  - apply lookup_ge_None_1 in E.
    rewrite !drop_ge by lia. rewrite !take_nil. cbn [flat_map length app].
    rewrite !Nat.sub_0_r.
    replace (3 * S m)%nat with (3 + 3 * m)%nat by lia. reflexivity.
Qed.

Lemma cells_chr chunk (m : nat) : forall start,
  map (cell_chr chunk) (seq start m)
  = map dump_char (take m (drop start chunk))
    ++ repeat 32 (m - length (take m (drop start chunk))).
Proof.
  induction m as [|m IH]; intros start; [reflexivity|].
  cbn [seq map]. rewrite IH. unfold cell_chr.
  destruct (chunk !! start) as [b|] eqn:E.
  - rewrite (drop_S _ _ _ E). cbn [take map length]. reflexivity.
  - apply lookup_ge_None_1 in E.
    rewrite !drop_ge by lia. rewrite !take_nil. cbn [map length app].
    rewrite !Nat.sub_0_r. reflexivity.
Qed.

Lemma c_string_app (l rest : list Z) :
  Forall (fun c => c <> 0) l -> c_string (l ++ 0 :: rest) = l.
Proof.
  induction 1 as [|c l Hc _ IH]; [reflexivity|].
  cbn [app c_string].
  replace (c =? 0) with false by (symmetry; apply Z.eqb_neq; exact Hc).
  rewrite IH. reflexivity.
Qed.

Lemma hex_digit_pos upper d : 0 <= d -> hex_digit upper d <> 0.
Proof.
  intros H. unfold hex_digit. destruct (d <? 10), upper; lia.
Qed.

Lemma dump_char_pos b : dump_char b <> 0.
Proof.
  unfold dump_char, isprint. destruct (32 <=? b) eqn:E; cbn [andb].
  - apply Z.leb_le in E. destruct (b <? 127); lia.
  - lia.
Qed.

Lemma fmt_03x_pos i : 0 <= i -> Forall (fun c => c <> 0) (fmt_03x i).
Proof.
  intros H. unfold fmt_03x.
  destruct (i <? 4096); repeat constructor; apply hex_digit_pos;
    try apply Z.div_pos; try apply Z.mod_pos_bound; lia.
Qed.

Lemma fmt_02X_pos b : 0 <= b -> Forall (fun c => c <> 0) (fmt_02X b ++ [32]).
Proof.
  intros H. unfold fmt_02X. repeat constructor;
    [apply hex_digit_pos, Z.div_pos; lia
    | apply hex_digit_pos, Z.mod_pos_bound; lia | lia].
Qed.

Lemma length_dump_head i :
  0 <= i < 4096 -> length ([32; 32; 32] ++ fmt_03x i ++ [58; 32]) = 8%nat.
Proof.
  intros H. unfold fmt_03x.
  replace (i <? 4096) with true by (symmetry; apply Z.ltb_lt; lia).
  reflexivity.
Qed.

(** One line: the buffer with its stale contents and its NULs prints the
    line as it should read, and is ready for the next. *)
Lemma hexDump_line_dump buf len i ob :
  0 <= i < 4096 -> i < len <= 65535 ->
  (Z.to_nat len <= length buf)%nat ->
  Forall is_u8 buf ->
  dump_ready ob ->
  exists ob',
    hexDump_line buf len i ob
    = Ok (ob', dump_line i (take 16 (drop (Z.to_nat i)
                                          (take (Z.to_nat len) buf)))) /\
    dump_ready ob'.
Proof.
  intros Hi Hlen Hbuf Hu8 (Hob & H57).
  set (chunk := take 16 (drop (Z.to_nat i) (take (Z.to_nat len) buf))).
  assert (Hchunk : length chunk = Nat.min 16 (Z.to_nat (len - i))).
  { subst chunk. rewrite length_take, length_drop, length_take. lia. }
  assert (Hlook : forall q b, chunk !! q = Some b ->
                    buf !! Z.to_nat (i + Z.of_nat q) = Some b).
  { intros q b Hq. subst chunk.
    apply lookup_take_Some in Hq as [Hq _].
    rewrite lookup_drop in Hq. apply lookup_take_Some in Hq as [Hq _].
    rewrite <- Hq. f_equal. lia. }
  assert (Hcu8 : Forall is_u8 chunk)
    by (subst chunk; apply Forall_take, Forall_drop, Forall_take, Hu8).
  unfold hexDump_line. cbv zeta.
  set (head := [32; 32; 32] ++ fmt_03x i ++ [58; 32]).
  assert (Hhead : length head = 8%nat) by (apply length_dump_head; exact Hi).
  rewrite sprintf_Ok by (unfold OB_SIZE; lia). cbn [rbind].
  rewrite Hhead. change (Z.of_nat 8) with 8.
  replace (if len <? i + 16 then u16 (len - i) else 16)
    with (Z.of_nat (length chunk)).
  2:{ rewrite Hchunk. destruct (len <? i + 16) eqn:E.
      - apply Z.ltb_lt in E. rewrite u16_small by lia. lia.
      - apply Z.ltb_ge in E. lia. }
  set (ob0 := poke ob _ _).
  assert (H0 : columns_done head chunk 0 ob0).
  { subst ob0. change (Z.to_nat 0) with 0%nat. split; [|split; [|split]].
    - rewrite length_poke; [exact Hob|]. rewrite length_app. cbn [length].
      lia.
    - change (8 + 3 * 0)%nat with (0 + 8)%nat. rewrite <- Hhead.
      rewrite take_poke_app by lia. cbn [seq flat_map take app].
      rewrite app_nil_r. reflexivity.
    - rewrite drop_poke_ge
        by (rewrite length_app; cbn [length]; lia).
      cbn [seq map]. rewrite (drop_S _ _ _ H57). reflexivity.
    - intros H. inversion H. }
  destruct (hexDump_columns_done buf i chunk head 16 Hlook 0 ob0)
    as (ob1 & H1 & (Hl1 & Hhex & Hchr & Hnul)); [lia | exact H0 |].
  change (Z.of_nat 0) with 0 in H1. rewrite H1. cbn [rbind].
  change (0 + 16)%nat with 16%nat in *.
  change (8 + 16 * 3) with 56.
  specialize (Hnul ltac:(lia)). change (58 + 16)%nat with 74%nat in Hnul.
  change (8 + 3 * 16)%nat with 56%nat in Hhex.
  change (1 + 16)%nat with 17%nat in Hchr.
  rewrite cells_hex in Hhex. rewrite cells_chr in Hchr.
  rewrite drop_0, (take_ge chunk 16) in Hhex, Hchr by lia.
  set (ob2 := wr (wr ob1 56 32) 79 0).
  assert (H74 : ob2 !! 74%nat = Some 0).
  { subst ob2. unfold wr. rewrite !list_lookup_insert_ne by lia.
    exact Hnul. }
  assert (Ht : take 74 ob2
               = head ++ (flat_map (fun b => fmt_02X b ++ [32]) chunk
                          ++ repeat 32 (3 * (16 - length chunk)))
                 ++ [32; 32]
                 ++ map dump_char chunk ++ repeat 32 (16 - length chunk)).
  { subst ob2. unfold wr. rewrite take_insert_ge by lia.
    change 74%nat with (57 + 17)%nat. rewrite <- take_take_drop.
    rewrite drop_insert_lt by lia. rewrite Hchr.
    change (Z.to_nat 56) with 56%nat.
    change 57%nat with (S 56).
    rewrite (take_S_r _ 56 32) by (apply list_lookup_insert_eq; lia).
    rewrite take_insert_ge by lia. rewrite Hhex.
    rewrite <- !app_assoc. reflexivity. }
  assert (Hnz : Forall (fun c => c <> 0) (take 74 ob2)).
  { rewrite Ht. subst head. repeat apply Forall_app_2.
    - repeat constructor; lia.
    - apply fmt_03x_pos. lia.
    - repeat constructor; lia.
    - clear - Hcu8. induction Hcu8 as [|b l Hb _ IH]; [constructor|].
      cbn [flat_map]. apply Forall_app_2; [|exact IH].
      apply fmt_02X_pos. unfold is_u8 in Hb. lia.
    - apply Forall_forall. intros x Hx.
      apply list_elem_of_In, repeat_spec in Hx. lia.
    - repeat constructor; lia.
    - apply Forall_forall. intros x Hx. apply list_elem_of_In in Hx.
      apply in_map_iff in Hx as (b & <- & _). apply dump_char_pos.
    - apply Forall_forall. intros x Hx.
      apply list_elem_of_In, repeat_spec in Hx. lia. }
  exists ob2. split.
  - f_equal. f_equal.
    rewrite <- (take_drop_middle ob2 74 0 H74).
    rewrite c_string_app by exact Hnz. rewrite Ht. unfold dump_line.
    subst head. rewrite <- !app_assoc. reflexivity.
  - subst ob2. unfold wr, dump_ready. rewrite !length_insert.
    split; [exact Hl1|]. rewrite !list_lookup_insert_ne by lia.
    rewrite <- (Nat.add_0_r 57), <- lookup_drop.
    rewrite <- (lookup_take_lt _ 17) by lia. rewrite Hchr. reflexivity.
Qed.

Lemma hexDump_lines_dump buf len :
  0 <= len <= 4096 ->
  (Z.to_nat len <= length buf)%nat ->
  Forall is_u8 buf ->
  forall (r q fuel : nat) ob out,
    (q + r)%nat = Z.to_nat ((len + 15) / 16) ->
    (r < fuel)%nat ->
    dump_ready ob ->
    hexDump_lines fuel buf len (16 * Z.of_nat q) ob out
    = Ok (out ++ map (fun q => dump_line (16 * Z.of_nat q)
                                         (dump_chunk buf len q))
                     (seq q r)).
Proof.
  intros Hlen Hbuf Hu8.
  pose proof (Z.div_mod (len + 15) 16 ltac:(lia)) as Hd.
  pose proof (Z.mod_pos_bound (len + 15) 16 ltac:(lia)) as Hm.
  assert (Hn : 0 <= (len + 15) / 16) by (apply Z.div_pos; lia).
  induction r as [|r IH]; intros q fuel ob out Hq Hfuel Hob;
    (destruct fuel as [|fuel]; [lia|]); cbn [hexDump_lines].
  - replace (16 * Z.of_nat q <? len) with false
      by (symmetry; apply Z.ltb_ge; lia).
    cbn [seq map]. rewrite app_nil_r. reflexivity.
  - replace (16 * Z.of_nat q <? len) with true
      by (symmetry; apply Z.ltb_lt; lia).
    destruct (hexDump_line_dump buf len (16 * Z.of_nat q) ob)
      as (ob1 & H1 & Hob1); try assumption; try lia.
    rewrite H1. cbn [rbind fst snd].
    rewrite u16_small by lia.
    replace (16 * Z.of_nat q + 16) with (16 * Z.of_nat (S q)) by lia.
    rewrite (IH (S q)) by (try assumption; lia).
    cbn [seq map]. rewrite <- app_assoc. cbn [app]. unfold dump_chunk.
    replace (Z.to_nat (16 * Z.of_nat q)) with (16 * q)%nat by lia.
    reflexivity.
Qed.

Lemma length_hex_columns chunk :
  length (flat_map (fun b => fmt_02X b ++ [32]) chunk)
  = (3 * length chunk)%nat.
Proof.
  induction chunk as [|b chunk IH]; [reflexivity|].
  cbn [flat_map]. rewrite !length_app, IH. unfold fmt_02X.
  cbn [length]. lia.
Qed.

Lemma length_dump_line i chunk :
  0 <= i < 4096 -> (length chunk <= 16)%nat ->
  length (dump_line i chunk) = 76%nat.
Proof.
  intros Hi Hc. unfold dump_line.
  rewrite (app_assoc [32; 32; 32]), (app_assoc _ [58; 32]).
  rewrite <- (app_assoc [32; 32; 32]).
  rewrite length_app, length_dump_head by exact Hi.
  rewrite !length_app, length_hex_columns, !repeat_length, length_map.
  cbn [length]. lia.
Qed.

Lemma hexDump_dump (fuel : nat) (buf : list Z) (len : Z) :
  0 <= len <= 4096 ->
  (Z.to_nat len <= length buf)%nat ->
  Forall is_u8 buf ->
  (Z.to_nat ((len + 15) / 16) < fuel)%nat ->
  hexDump fuel buf len = Ok (dump buf len).
Proof.
  intros Hlen Hbuf Hu8 Hfuel. unfold hexDump.
  rewrite (hexDump_lines_dump buf len Hlen Hbuf Hu8
             (Z.to_nat ((len + 15) / 16)) 0 fuel);
    [reflexivity | reflexivity | exact Hfuel | split; reflexivity].
Qed.

(** X21. What [hexDump] prints of up to 4096 bytes: one line for every
    16 bytes, each exactly the three-digit offset, the bytes in two-digit
    upper-case hex, blanks where the last line has no byte, two blanks,
    and the bytes as characters with a dot for every byte that does not
    print; every line is 74 characters and CR LF, and a bare CR LF ends
    the dump.  Nothing of an earlier line and none of the NULs written
    into the 80-byte line buffer shows, and the buffer is never
    overrun. *)
Theorem X21_hexDump_prints_the_dump (fuel : nat) (buf : list Z) (len : Z) :
  0 <= len <= 4096 ->
  (Z.to_nat len <= length buf)%nat ->
  Forall is_u8 buf ->
  (Z.to_nat ((len + 15) / 16) < fuel)%nat ->
  hexDump fuel buf len = Ok (dump buf len) /\
  length (dump buf len) = S (Z.to_nat ((len + 15) / 16)) /\
  Forall (fun l => length l = 76%nat)
         (take (Z.to_nat ((len + 15) / 16)) (dump buf len)).
Proof.
  intros Hlen Hbuf Hu8 Hfuel. split; [|split].
  - apply hexDump_dump; assumption.
  - unfold dump. rewrite length_app, length_map, length_seq.
    cbn [length]. lia.
  - unfold dump. rewrite take_app_length'
      by (rewrite length_map, length_seq; reflexivity).
    apply Forall_forall. intros l Hl. apply list_elem_of_In in Hl.
    apply in_map_iff in Hl as (q & <- & Hq). apply in_seq in Hq.
    pose proof (Z.div_mod (len + 15) 16 ltac:(lia)) as Hd.
    pose proof (Z.mod_pos_bound (len + 15) 16 ltac:(lia)) as Hm.
    apply length_dump_line; [lia|].
    unfold dump_chunk. rewrite length_take. lia.
Qed.

Lemma X21_hexDump_prints_the_dump_witness :
  hexDump 3 (requestNodeStatus ++ [65; 66; 67; 200; 0; 7; 32]) 19
  = Ok (dump (requestNodeStatus ++ [65; 66; 67; 200; 0; 7; 32]) 19) /\
  length (dump (requestNodeStatus ++ [65; 66; 67; 200; 0; 7; 32]) 19)
  = S (Z.to_nat ((19 + 15) / 16)) /\
  Forall (fun l => length l = 76%nat)
         (take (Z.to_nat ((19 + 15) / 16))
               (dump (requestNodeStatus ++ [65; 66; 67; 200; 0; 7; 32]) 19)).
Proof.
  apply (X21_hexDump_prints_the_dump 3
           (requestNodeStatus ++ [65; 66; 67; 200; 0; 7; 32]) 19).
  - lia.
  - vm_compute. lia.
  - apply all_u8_Forall. vm_compute. reflexivity.
  - vm_compute. lia.
Defined.

(** ** Reading the dump back *)

Lemma unhex_hex_digit upper d :
  0 <= d < 16 -> unhex_digit (hex_digit upper d) = d.
Proof.
  intros H. unfold hex_digit, unhex_digit.
  destruct (d <? 10) eqn:E.
  - apply Z.ltb_lt in E.
    replace (48 + d <? 58) with true by (symmetry; apply Z.ltb_lt; lia).
    lia.
  - apply Z.ltb_ge in E. destruct upper.
    + replace (55 + d <? 58) with false by (symmetry; apply Z.ltb_ge; lia).
      replace (55 + d <? 97) with true by (symmetry; apply Z.ltb_lt; lia).
      lia.
    + replace (87 + d <? 58) with false by (symmetry; apply Z.ltb_ge; lia).
      replace (87 + d <? 97) with false by (symmetry; apply Z.ltb_ge; lia).
      lia.
Qed.

Lemma unhex_hex_columns chunk :
  Forall is_u8 chunk ->
  unhex_columns (flat_map (fun b => fmt_02X b ++ [32]) chunk) = chunk.
Proof.
  induction 1 as [|b chunk Hb _ IH]; [reflexivity|].
  unfold is_u8 in Hb. cbn [flat_map].
  set (rest := flat_map _ chunk) in *. unfold fmt_02X.
  cbn [app unhex_columns]. subst rest. rewrite IH, !unhex_hex_digit.
  - f_equal. pose proof (Z.div_mod b 16 ltac:(lia)). lia.
  - apply Z.mod_pos_bound. lia.
  - split; [apply Z.div_pos; lia | apply Z.div_lt_upper_bound; lia].
Qed.

Lemma unhex_offset_fmt i :
  0 <= i < 4096 -> unhex_offset (fmt_03x i) = i.
Proof.
  intros H. unfold fmt_03x.
  replace (i <? 4096) with true by (symmetry; apply Z.ltb_lt; lia).
  unfold unhex_offset. cbn [fold_left].
  rewrite !unhex_hex_digit.
  - pose proof (Z.div_mod i 16 ltac:(lia)).
    pose proof (Z.div_mod (i / 16) 16 ltac:(lia)).
    rewrite Z.div_div in * by lia. change (16 * 16) with 256 in *. lia.
  - apply Z.mod_pos_bound. lia.
  - apply Z.mod_pos_bound. lia.
  - split; [apply Z.div_pos; lia | apply Z.div_lt_upper_bound; lia].
Qed.

(** X22. The dump can be read back: in line [q] of what [hexDump]
    prints, the three hex digits after the leading blanks are the offset
    16 q, and the hex columns that follow, read two digits at a time,
    are the bytes 16 q to 16 q + 15 of the buffer as far as the length
    goes. *)
Theorem X22_hexDump_reads_back
  (fuel : nat) (buf : list Z) (len : Z) (q : nat) :
  0 <= len <= 4096 ->
  (Z.to_nat len <= length buf)%nat ->
  Forall is_u8 buf ->
  (Z.to_nat ((len + 15) / 16) < fuel)%nat ->
  (q < Z.to_nat ((len + 15) / 16))%nat ->
  exists out line,
    hexDump fuel buf len = Ok out /\
    out !! q = Some line /\
    unhex_offset (take 3 (drop 3 line)) = 16 * Z.of_nat q /\
    unhex_columns (take (3 * length (dump_chunk buf len q)) (drop 8 line))
    = dump_chunk buf len q /\
    dump_chunk buf len q
    = take 16 (drop (16 * q) (take (Z.to_nat len) buf)).
Proof.
  intros Hlen Hbuf Hu8 Hfuel Hq.
  pose proof (Z.div_mod (len + 15) 16 ltac:(lia)) as Hd.
  pose proof (Z.mod_pos_bound (len + 15) 16 ltac:(lia)) as Hm.
  exists (dump buf len),
         (dump_line (16 * Z.of_nat q) (dump_chunk buf len q)).
  split; [apply hexDump_dump; assumption|]. split.
  { unfold dump. rewrite lookup_app_l
      by (rewrite length_map, length_seq; exact Hq).
    rewrite list_lookup_fmap, lookup_seq_lt by exact Hq. reflexivity. }
  set (chunk := dump_chunk buf len q).
  assert (Hcu8 : Forall is_u8 chunk)
    by (subst chunk; unfold dump_chunk;
        apply Forall_take, Forall_drop, Forall_take, Hu8).
  split; [|split; [|reflexivity]].
  - unfold dump_line. cbn [app drop take]. rewrite drop_0.
    rewrite take_app_length' by (unfold fmt_03x;
      replace (16 * Z.of_nat q <? 4096) with true
        by (symmetry; apply Z.ltb_lt; lia); reflexivity).
    apply unhex_offset_fmt. lia.
  - unfold dump_line.
    rewrite (app_assoc [32; 32; 32]), (app_assoc _ [58; 32]).
    rewrite <- (app_assoc [32; 32; 32]).
    rewrite drop_app_length' by (symmetry; apply length_dump_head; lia).
    rewrite take_app_length' by (symmetry; apply length_hex_columns).
    apply unhex_hex_columns, Hcu8.
Qed.

Lemma X22_hexDump_reads_back_witness :
  exists out line,
    hexDump 3 (requestNodeStatus ++ [65; 66; 67; 200; 0; 7; 32]) 19
      = Ok out /\
    out !! 1%nat = Some line /\
    unhex_offset (take 3 (drop 3 line)) = 16 * Z.of_nat 1 /\
    unhex_columns
      (take (3 * length (dump_chunk
                           (requestNodeStatus ++ [65; 66; 67; 200; 0; 7; 32])
                           19 1))
            (drop 8 line))
    = dump_chunk (requestNodeStatus ++ [65; 66; 67; 200; 0; 7; 32]) 19 1 /\
    dump_chunk (requestNodeStatus ++ [65; 66; 67; 200; 0; 7; 32]) 19 1
    = take 16 (drop (16 * 1)
                    (take (Z.to_nat 19)
                          (requestNodeStatus
                           ++ [65; 66; 67; 200; 0; 7; 32]))).
Proof.
  apply (X22_hexDump_reads_back 3
           (requestNodeStatus ++ [65; 66; 67; 200; 0; 7; 32]) 19 1).
  - lia.
  - vm_compute. lia.
  - apply all_u8_Forall. vm_compute. reflexivity.
  - vm_compute. lia.
  - vm_compute. lia.
Defined.

(** ** Packets the binary parser abandons *)

(** X23. The three ways out of a packet in progress: a byte FB to FE
    (a start byte included), an ordinary byte once 108 bytes are held,
    and a byte above 5 after the escape byte.  Each time the parser goes
    back to waiting without taking the byte, the bytes held are added to
    [totalDiscardedBytes], and in verbose mode one record is published
    all the same. *)
Theorem X23_abandoned_packet
  (fuel : nat) (st : adv_static) (g : globals) (c : Z) :
  0 <= serialRxLength g <= EVENT_DATA_SIZE ->
  (serialRxState g = 1 /\
   (250 < c <= 254 \/
    ADVANCED_MAX_LENGTH <= serialRxLength g /\ 0 <= c < 250)) \/
  (serialRxState g = 2 /\ 5 < c) ->
  exists g',
    serialRxAdvanced fuel st g c = Ok (st, g') /\
    serialRxState g' = 0 /\
    serialRxLength g' = serialRxLength g /\
    serialRxBuffer g' = serialRxBuffer g /\
    totalDiscardedBytes g'
    = u32 (totalDiscardedBytes g + serialRxLength g) /\
    (verbose (particleEepromData g) = false ->
     published g' = published g) /\
    (verbose (particleEepromData g) = true ->
     exists m, published g' = published g ++ [m]).
Proof.
  intros HL Hcase.
  assert (Herr : exists g1,
            advancedPacketReceptionError g = Ok g1 /\
            serialRxLength g1 = serialRxLength g /\
            serialRxBuffer g1 = serialRxBuffer g /\
            totalDiscardedBytes g1 = totalDiscardedBytes g /\
            (verbose (particleEepromData g) = false ->
             published g1 = published g) /\
            (verbose (particleEepromData g) = true ->
             exists m, published g1 = published g ++ [m])).
  { unfold advancedPacketReceptionError.
    destruct (verbose (particleEepromData g)).
    - destruct (serialTxEventToNimbus_fits g) as [g1 H1]; [lia|].
      exists g1. split; [exact H1|].
      pose proof (serialTxEventToNimbus_publishes_one _ _ H1) as Hm.
      apply serialTxEventToNimbus_fields in H1.
      destruct H1 as (_ & _ & _ & _ & _ & _ & _ & _ & _ & _ & Hb & Hl & Hd
                      & _).
      repeat split; try assumption; [discriminate | intros _; exact Hm].
    - exists g. repeat split; [discriminate]. }
  destruct Herr as (g1 & H1 & Hl1 & Hb1 & Hd1 & Hq & Hv).
  exists (set_serialRxState 0
            (set_totalDiscardedBytes
               (u32 (totalDiscardedBytes g1 + serialRxLength g1)) g1)).
  split.
  - unfold serialRxAdvanced.
    destruct Hcase as [[Hs [Hc | [Hlen Hc]]] | [Hs Hc]]; rewrite Hs;
      cbv beta iota.
    + replace (c =? 255) with false by (symmetry; apply Z.eqb_neq; lia).
      replace (c =? 250) with false by (symmetry; apply Z.eqb_neq; lia).
      replace ((250 <? c) && (c <=? 254)) with true.
      2:{ symmetry. apply andb_true_iff.
          split; [apply Z.ltb_lt | apply Z.leb_le]; lia. }
      rewrite H1. reflexivity.
    + replace (c =? 255) with false by (symmetry; apply Z.eqb_neq; lia).
      replace (c =? 250) with false by (symmetry; apply Z.eqb_neq; lia).
      replace (250 <? c) with false by (symmetry; apply Z.ltb_ge; lia).
      cbn [andb].
      replace (ADVANCED_MAX_LENGTH <=? serialRxLength g) with true
        by (symmetry; apply Z.leb_le; exact Hlen).
      rewrite H1. reflexivity.
    + replace (5 <? c) with true by (symmetry; apply Z.ltb_lt; lia).
      rewrite H1. reflexivity.
  - adv_fields. rewrite Hd1, Hl1. repeat split; assumption.
Qed.

Lemma X23_abandoned_packet_witness :
  exists g',
    serialRxAdvanced 0 adv_static_init
      (received (removelast short_stream)) 254 = Ok (adv_static_init, g') /\
    serialRxState g' = 0 /\
    serialRxLength g' = serialRxLength (received (removelast short_stream)) /\
    serialRxBuffer g' = serialRxBuffer (received (removelast short_stream)) /\
    totalDiscardedBytes g'
    = u32 (totalDiscardedBytes (received (removelast short_stream))
           + serialRxLength (received (removelast short_stream))) /\
    (verbose (particleEepromData (received (removelast short_stream)))
     = false ->
     published g' = published (received (removelast short_stream))) /\
    (verbose (particleEepromData (received (removelast short_stream)))
     = true ->
     exists m,
       published g' = published (received (removelast short_stream)) ++ [m]).
Proof.
  apply (X23_abandoned_packet 0 adv_static_init
           (received (removelast short_stream)) 254).
  - vm_compute. split; discriminate.
  - left. split; [reflexivity|]. left. lia.
Defined.

(** ** Lines of 42 and of 43 characters *)

(** The 43rd character of a line of a message in progress. *)
Lemma ascii_char_too_long st g c :
  serialRxState g = 1 -> c <> LF ->
  lineCharCount st = ADVANCED_ASCII_LINE_LENGTH ->
  0 <= serialRxLength g < SERIAL_RX_BUFFER_SIZE ->
  serialRxAdvancedAscii st g c
  = Ok ({| lineCount := lineCount st; lineCharCount := 0;
           previousChar := c |},
        set_serialRxState 2
          (set_serialRxLength (u16 (serialRxLength g + 1))
             (set_serialRxBuffer
                (wr (serialRxBuffer g) (serialRxLength g) c) g))).
Proof.
  unfold LF. intros Hs Hc Hl HL. unfold serialRxAdvancedAscii.
  rewrite Hs, Hl. cbv beta iota. rewrite append_Ok by exact HL.
  cbn [rbind].
  replace (c =? 10) with false by (symmetry; apply Z.eqb_neq; exact Hc).
  reflexivity.
Qed.

(** A whole first part of a line, 42 characters, and one more. *)
Lemma ascii_43_characters (l : list Z) (c : Z) (st : ascii_static)
  (g : globals) :
  length l = 42%nat -> Forall (fun x => x <> LF) l -> c <> LF ->
  serialRxState g = 1 ->
  lineCharCount st = 0 ->
  0 <= serialRxLength g ->
  serialRxLength g + 43 < ADVANCED_ASCII_MAX_LENGTH ->
  length (serialRxBuffer g) = 512%nat ->
  exists st' g',
    feed serialRxAdvancedAscii st g (l ++ [c]) = Ok (st', g') /\
    serialRxState g' = 2 /\
    lineCharCount st' = 0 /\
    previousChar st' = c /\
    length (serialRxBuffer g') = 512%nat /\
    published g' = published g.
Proof.
  intros Hn Hall Hc Hs Hl H0 HL Hb.
  unfold ADVANCED_ASCII_MAX_LENGTH in *.
  destruct (ascii_collect l st g)
    as (st1 & g1 & H1 & S1 & N1 & C1 & L1 & B1 & T1 & Pub1);
    unfold ADVANCED_ASCII_LINE_LENGTH, ADVANCED_ASCII_MAX_LENGTH;
    try assumption; try lia.
  rewrite feed_app, H1. cbn [rbind fst snd feed].
  rewrite ascii_char_too_long;
    unfold ADVANCED_ASCII_LINE_LENGTH, SERIAL_RX_BUFFER_SIZE;
    try assumption; try lia.
  cbn [rbind fst snd]. eexists _, _. split; [reflexivity|]. ascii_fields.
  repeat split; [rewrite length_wr; exact B1 | exact Pub1].
Qed.

(** A LF in error recovery that ends no blank line. *)
Lemma ascii_recovery_LF st g :
  serialRxState g = 2 ->
  0 <= lineCharCount st < 255 ->
  lineCharCount st <> 1 \/ previousChar st <> CR ->
  serialRxAdvancedAscii st g LF
  = Ok ({| lineCount := lineCount st;
           lineCharCount := if 2 <=? lineCharCount st
                            then 0 else lineCharCount st + 1;
           previousChar := LF |}, g).
Proof.
  intros Hs Hl Hn. unfold serialRxAdvancedAscii. rewrite Hs.
  cbv beta iota. change (LF =? 10) with true. cbv iota.
  rewrite u8_small by lia.
  destruct (2 <? lineCharCount st + 1) eqn:E.
  - apply Z.ltb_lt in E.
    replace (2 <=? lineCharCount st) with true
      by (symmetry; apply Z.leb_le; lia).
    reflexivity.
  - apply Z.ltb_ge in E.
    replace (2 <=? lineCharCount st) with false
      by (symmetry; apply Z.leb_gt; lia).
    replace ((lineCharCount st + 1 =? 2) && (previousChar st =? 13))
      with false; [reflexivity|].
    symmetry. apply andb_false_iff. unfold CR in Hn.
    destruct Hn as [Hn | Hn]; [left | right]; apply Z.eqb_neq; lia.
Qed.

(** A CR in error recovery. *)
Lemma ascii_recovery_CR st g :
  serialRxState g = 2 ->
  0 <= lineCharCount st < 255 ->
  serialRxAdvancedAscii st g CR
  = Ok ({| lineCount := lineCount st;
           lineCharCount := lineCharCount st + 1;
           previousChar := CR |}, g).
Proof.
  intros Hs Hl. unfold serialRxAdvancedAscii. rewrite Hs.
  cbv beta iota. change (CR =? 10) with false. cbv iota.
  rewrite u8_small by lia. reflexivity.
Qed.

(** X24. A line of exactly 42 characters inside a message costs the next
    message as well.  Its CR is the 43rd character and sends the parser
    to error recovery with the count of the line at zero; its LF is then
    counted as a line of one character, so the CR LF of the blank line
    that ends the message makes three and is not seen as blank.  The
    parser is still in error recovery after the blank line, and the
    whole message that follows is taken and thrown away. *)
Theorem X24_ascii_line_of_42_characters
  (l : list Z) (lines : list (list Z)) (st : ascii_static) (g : globals) :
  length l = 42%nat ->
  Forall (fun x => x <> LF) l ->
  Forall text_ok lines ->
  serialRxState g = 1 ->
  lineCharCount st = 0 ->
  0 <= serialRxLength g ->
  serialRxLength g + 43 < ADVANCED_ASCII_MAX_LENGTH ->
  length (serialRxBuffer g) = 512%nat ->
  (exists st1 g1,
     feed serialRxAdvancedAscii st g (text_line l ++ [CR; LF])
       = Ok (st1, g1) /\
     serialRxState g1 = 2 /\
     published g1 = published g) /\
  (exists st2 g2,
     feed serialRxAdvancedAscii st g
          (text_line l ++ [CR; LF] ++ text_message lines) = Ok (st2, g2) /\
     serialRxState g2 = 0 /\
     serialRxLength g2 = 0 /\
     published g2 = published g).
Proof.
  intros Hn Hall Hok Hs Hl H0 HL Hb.
  destruct (ascii_43_characters l CR st g)
    as (st1 & g1 & H1 & S1 & C1 & P1 & B1 & Pub1);
    try assumption; try discriminate.
  assert (Hblank : exists st3,
            feed serialRxAdvancedAscii st g (text_line l ++ [CR; LF])
              = Ok (st3, g1) /\
            lineCharCount st3 = 0).
  { unfold text_line. change (l ++ [CR; LF]) with (l ++ [CR] ++ [LF]).
    rewrite app_assoc, <- app_assoc, feed_app, H1. cbn [rbind fst snd].
    cbn [app feed].
    rewrite ascii_recovery_LF by (try assumption; lia).
    cbn [rbind fst snd]. rewrite C1. cbn [Z.leb Z.compare].
    rewrite ascii_recovery_CR by (ascii_fields; try assumption; lia).
    cbn [rbind fst snd].
    rewrite ascii_recovery_LF by (ascii_fields; try assumption; lia).
    cbn [rbind fst snd]. ascii_fields. eexists. split; reflexivity. }
  destruct Hblank as (st3 & H3 & C3). split.
  - exists st3, g1. auto.
  - unfold text_message.
    destruct (ascii_skip_lines lines st3 g1 Hok S1 C3) as (st4 & H4 & C4).
    destruct (ascii_recovers st4 g1 S1 C4)
      as (st5 & g5 & H5 & S5 & L5 & C5 & _ & P5).
    exists st5, g5.
    rewrite (app_assoc (text_line l)), feed_app, H3. cbn [rbind fst snd].
    rewrite feed_app, H4. cbn [rbind fst snd].
    split; [exact H5|]. split; [exact S5|]. split; [exact L5|]. congruence.
Qed.

Lemma X24_ascii_line_of_42_characters_witness :
  (exists st1 g1,
     feed serialRxAdvancedAscii ascii_static_init
          (set_serialRxState 1 (power_on ascii_cfg 0))
          (text_line (repeat 65 42) ++ [CR; LF]) = Ok (st1, g1) /\
     serialRxState g1 = 2 /\
     published g1 = published (set_serialRxState 1 (power_on ascii_cfg 0)))
  /\
  (exists st2 g2,
     feed serialRxAdvancedAscii ascii_static_init
          (set_serialRxState 1 (power_on ascii_cfg 0))
          (text_line (repeat 65 42) ++ [CR; LF] ++ text_message [LINE1])
       = Ok (st2, g2) /\
     serialRxState g2 = 0 /\
     serialRxLength g2 = 0 /\
     published g2 = published (set_serialRxState 1 (power_on ascii_cfg 0))).
Proof.
  apply (X24_ascii_line_of_42_characters (repeat 65 42) [LINE1]).
  - reflexivity.
  - apply (bool_decide_unpack _). vm_compute. exact I.
  - repeat constructor; try discriminate; cbn; lia.
  - reflexivity.
  - reflexivity.
  - cbn. lia.
  - unfold ADVANCED_ASCII_MAX_LENGTH. cbn. lia.
  - reflexivity.
Defined.

(** X25. A line of exactly 43 characters inside a message cuts the
    message in two.  Its 43rd character sends the parser to error
    recovery, and its own CR LF, two characters after the count was put
    back to zero, is taken for the blank line: the parser is idle again
    before the message is over, what it held is thrown away, and the
    lines that follow are published as a message of their own. *)
Theorem X25_ascii_line_of_43_characters
  (l l1 : list Z) (lines : list (list Z))
  (st : ascii_static) (g : globals) :
  length l = 43%nat ->
  Forall (fun x => x <> LF) l ->
  Forall text_ok (l1 :: lines) ->
  (length lines <= 7)%nat ->
  (length (text_message (l1 :: lines)) <= 227)%nat ->
  serialRxState g = 1 ->
  lineCharCount st = 0 ->
  0 <= serialRxLength g ->
  serialRxLength g + 43 < ADVANCED_ASCII_MAX_LENGTH ->
  length (serialRxBuffer g) = 512%nat ->
  (exists st1 g1,
     feed serialRxAdvancedAscii st g (text_line l) = Ok (st1, g1) /\
     serialRxState g1 = 0 /\
     serialRxLength g1 = 0 /\
     published g1 = published g) /\
  (exists st' g' m,
     feed serialRxAdvancedAscii st g
          (text_line l ++ text_message (l1 :: lines)) = Ok (st', g') /\
     published g' = published g ++ [m] /\
     frame_of m = text_message (l1 :: lines) /\
     serialRxState g' = 0).
Proof.
  intros Hn Hall Hok Hlines Hlen Hs Hl H0 HL Hb.
  destruct (@exists_last _ l) as (l0 & c & ->);
    [intros ->; discriminate Hn|].
  rewrite length_app in Hn. cbn [length] in Hn.
  apply Forall_app in Hall as [Hall0 Hc]. apply Forall_cons in Hc as [Hc _].
  destruct (ascii_43_characters l0 c st g)
    as (st1 & g1 & H1 & S1 & C1 & P1 & B1 & Pub1);
    try assumption; try lia.
  destruct (ascii_recovers st1 g1 S1 C1)
    as (st2 & g2 & H2 & S2 & L2 & C2 & Hb2 & P2).
  assert (Hline : feed serialRxAdvancedAscii st g (text_line (l0 ++ [c]))
                  = Ok (st2, g2)).
  { unfold text_line. rewrite feed_app, H1. cbn [rbind fst snd]. exact H2. }
  split.
  - exists st2, g2. split; [exact Hline|]. split; [exact S2|].
    split; [exact L2 | congruence].
  - destruct (ascii_message l1 lines st2 g2 Hok Hlines Hlen S2 L2 C2)
      as (st3 & g3 & m & H3 & P3 & F3 & S3 & _); [rewrite Hb2; exact B1|].
    exists st3, g3, m. rewrite feed_app, Hline. cbn [rbind fst snd].
    split; [exact H3|]. split; [congruence|]. split; assumption.
Qed.

Lemma X25_ascii_line_of_43_characters_witness :
  (exists st1 g1,
     feed serialRxAdvancedAscii ascii_static_init
          (set_serialRxState 1 (power_on ascii_cfg 0))
          (text_line (repeat 65 43)) = Ok (st1, g1) /\
     serialRxState g1 = 0 /\
     serialRxLength g1 = 0 /\
     published g1 = published (set_serialRxState 1 (power_on ascii_cfg 0)))
  /\
  (exists st' g' m,
     feed serialRxAdvancedAscii ascii_static_init
          (set_serialRxState 1 (power_on ascii_cfg 0))
          (text_line (repeat 65 43) ++ text_message (LINE1 :: [[67]]))
       = Ok (st', g') /\
     published g'
     = published (set_serialRxState 1 (power_on ascii_cfg 0)) ++ [m] /\
     frame_of m = text_message (LINE1 :: [[67]]) /\
     serialRxState g' = 0).
Proof.
  apply (X25_ascii_line_of_43_characters (repeat 65 43) LINE1 [[67]]).
  - reflexivity.
  - apply (bool_decide_unpack _). vm_compute. exact I.
  - repeat constructor; try discriminate; cbn; lia.
  - cbn. lia.
  - vm_compute. lia.
  - reflexivity.
  - reflexivity.
  - cbn. lia.
  - unfold ADVANCED_ASCII_MAX_LENGTH. cbn. lia.
  - reflexivity.
Defined.

(** ** Valid packets from the wire to the publication *)

Lemma buffer_of_bytes_store idx v g g' :
  store idx v g = Ok g' -> is_u8 v -> buffer_of_bytes g ->
  buffer_of_bytes g'.
Proof.
  unfold store, buffer_of_bytes. destruct (_ && _); [|discriminate].
  intros [= <-] Hv Hg. cbn [serialRxBuffer set_serialRxBuffer]. unfold wr.
  apply Forall_insert; assumption.
Qed.

Lemma buffer_of_bytes_append v g g' :
  append v g = Ok g' -> is_u8 v -> buffer_of_bytes g -> buffer_of_bytes g'.
Proof.
  unfold append. intros H. apply rbind_Ok in H as (g1 & H1 & H2).
  injection H2 as <-. intros Hv Hg.
  apply (buffer_of_bytes_store _ _ _ _ H1 Hv Hg).
Qed.

Lemma buffer_of_bytes_forward g g' :
  serialTxEventToNimbus g = Ok g' -> buffer_of_bytes g -> buffer_of_bytes g'.
Proof.
  intros H. apply serialTxEventToNimbus_fields in H.
  destruct H as (_ & _ & _ & _ & _ & _ & _ & _ & _ & _ & Hb & _).
  unfold buffer_of_bytes. rewrite Hb. auto.
Qed.

Lemma buffer_of_bytes_set_serialRxState v g :
  buffer_of_bytes g -> buffer_of_bytes (set_serialRxState v g).
Proof. auto. Qed.

Lemma buffer_of_bytes_set_serialRxLength v g :
  buffer_of_bytes g -> buffer_of_bytes (set_serialRxLength v g).
Proof. auto. Qed.

Lemma buffer_of_bytes_set_totalDiscardedBytes v g :
  buffer_of_bytes g -> buffer_of_bytes (set_totalDiscardedBytes v g).
Proof. auto. Qed.

Lemma is_u8_u8 z : is_u8 (u8 z).
Proof. apply u8_range. Qed.

Create HintDb bytes.
#[local] Hint Resolve buffer_of_bytes_append buffer_of_bytes_forward
  buffer_of_bytes_set_serialRxState buffer_of_bytes_set_serialRxLength
  buffer_of_bytes_set_totalDiscardedBytes is_u8_u8 : bytes.

Lemma serialRxAdvanced_bytes fuel st g c st' g' :
  is_u8 c ->
  serialRxAdvanced fuel st g c = Ok (st', g') ->
  buffer_of_bytes g -> buffer_of_bytes g'.
Proof.
  intros Hc H Hg. unfold serialRxAdvanced, advancedPacketReceptionError in H.
  rx_cases H; eauto 8 with bytes.
Qed.

Lemma config_is_store cfg idx v g g' :
  store idx v g = Ok g' -> config_is cfg g -> config_is cfg g'.
Proof.
  unfold store. destruct (_ && _); [|discriminate]. intros [= <-]. auto.
Qed.

Lemma config_is_append cfg v g g' :
  append v g = Ok g' -> config_is cfg g -> config_is cfg g'.
Proof.
  unfold append. intros H. apply rbind_Ok in H as (g1 & H1 & H2).
  injection H2 as <-. apply (config_is_store _ _ _ _ _ H1).
Qed.

Lemma config_is_forward cfg g g' :
  serialTxEventToNimbus g = Ok g' -> config_is cfg g -> config_is cfg g'.
Proof.
  intros H. apply serialTxEventToNimbus_fields in H.
  unfold config_is. intros <-. tauto.
Qed.

Lemma config_is_set_serialRxState cfg v g :
  config_is cfg g -> config_is cfg (set_serialRxState v g).
Proof. auto. Qed.

Lemma config_is_set_serialRxLength cfg v g :
  config_is cfg g -> config_is cfg (set_serialRxLength v g).
Proof. auto. Qed.

Lemma config_is_set_totalDiscardedBytes cfg v g :
  config_is cfg g -> config_is cfg (set_totalDiscardedBytes v g).
Proof. auto. Qed.

Create HintDb cfg.
#[local] Hint Resolve config_is_append config_is_forward
  config_is_set_serialRxState config_is_set_serialRxLength
  config_is_set_totalDiscardedBytes : cfg.

Lemma serialRxAdvanced_config cfg fuel st g c st' g' :
  serialRxAdvanced fuel st g c = Ok (st', g') ->
  config_is cfg g -> config_is cfg g'.
Proof.
  intros H Hg. unfold serialRxAdvanced, advancedPacketReceptionError in H.
  rx_cases H; eauto 8 with cfg.
Qed.

Lemma feed_advanced_bytes fuel bytes : forall st g st' g',
  Forall is_u8 bytes ->
  feed (serialRxAdvanced fuel) st g bytes = Ok (st', g') ->
  buffer_of_bytes g -> buffer_of_bytes g'.
Proof.
  induction bytes as [|c rest IH]; intros st g st' g' Hb H Hg.
  - injection H as <- <-. exact Hg.
  - apply Forall_cons in Hb as [Hc Hb]. cbn [feed] in H.
    apply rbind_Ok in H as ([st1 g1] & H1 & H2). cbn [fst snd] in H2.
    eapply IH; [exact Hb | exact H2 |].
    eapply serialRxAdvanced_bytes; eauto.
Qed.

(** A chain of messages depends on the bytes up to its bound only. *)
Lemma message_chain_ext buf buf' bound c :
  (forall i, 0 <= i <= bound + 1 -> rd buf' i = rd buf i) ->
  (forall i, 0 <= rd buf i) ->
  message_chain buf bound c -> 0 <= c -> message_chain buf' bound c.
Proof.
  intros Heq Hpos H. induction H as [c Hk Hb Hend | c Hk Hb Hrest IH];
    intros Hc; pose proof (Hpos (c + 1)) as HL.
  - apply chain_last.
    + rewrite Heq by lia. exact Hk.
    + rewrite (Heq (c + 1)) by lia. exact Hb.
    + rewrite (Heq (c + 1)) by lia. rewrite Heq by lia. exact Hend.
  - apply chain_next.
    + rewrite Heq by lia. exact Hk.
    + rewrite (Heq (c + 1)) by lia. exact Hb.
    + rewrite (Heq (c + 1)) by lia. apply IH. lia.
Qed.

(** So does the validity of a packet. *)
Lemma valid_packet_ext buf buf' len :
  take (Z.to_nat len) buf' = take (Z.to_nat len) buf ->
  (forall i, 0 <= rd buf i) ->
  valid_packet buf len -> valid_packet buf' len.
Proof.
  intros Ht Hpos (Hlen & Hcrc & Hid & Hchain).
  assert (Hrd : forall i, 0 <= i < len -> rd buf' i = rd buf i).
  { intros i Hi. apply (rd_of_take _ _ (Z.to_nat len)); [exact Ht | lia | lia]. }
  split; [exact Hlen|]. split; [|split].
  - rewrite !Hrd by lia. rewrite <- Hcrc. unfold packet_crc. f_equal.
    rewrite !take_drop_commute. f_equal.
    replace (1 + Z.to_nat (len - 4))%nat
      with (Nat.min (1 + Z.to_nat (len - 4)) (Z.to_nat len)) by lia.
    rewrite <- !take_take, Ht. reflexivity.
  - rewrite Hrd by lia. exact Hid.
  - apply (message_chain_ext buf); [|exact Hpos | exact Hchain | lia].
    intros i Hi. apply Hrd. lia.
Qed.

Lemma rd_of_bytes a i : Forall is_u8 a -> 0 <= rd a i.
Proof.
  intros Hb. unfold rd.
  destruct (nth_in_or_default (Z.to_nat i) a 0) as [Hi | ->]; [|lia].
  rewrite Forall_forall in Hb. apply list_elem_of_In in Hi.
  apply Hb in Hi. unfold is_u8 in Hi. lia.
Qed.

Lemma stuffed_bytes body :
  Forall is_u8 body -> Forall is_u8 (flat_map stuff body).
Proof.
  induction 1 as [|b body Hu _ IH]; [constructor|].
  cbn [flat_map]. apply Forall_app. split; [|exact IH].
  eapply Forall_impl; [apply stuff_clean, Hu|].
  cbn. unfold is_u8. intros; lia.
Qed.

(** The start byte given to a waiting parser. *)
Lemma adv_start_byte (fuel : nat) (st : adv_static) (g : globals) :
  serialRxState g = 0 ->
  (0 < length (serialRxBuffer g))%nat ->
  exists g1,
    serialRxAdvanced fuel st g 254 = Ok (st, g1) /\
    serialRxState g1 = 1 /\
    serialRxLength g1 = 1 /\
    serialRxBuffer g1 = wr (serialRxBuffer g) 0 254 /\
    published g1 = published g /\
    totalDiscardedBytes g1 = totalDiscardedBytes g.
Proof.
  intros Hs Hlen. unfold serialRxAdvanced. rewrite Hs. cbv beta iota.
  change (254 =? 254) with true. cbv iota.
  rewrite append_Ok by (adv_fields; unfold SERIAL_RX_BUFFER_SIZE; lia).
  adv_fields. cbn [rbind fst snd]. change (u16 (0 + 1)) with 1.
  eexists. split; [reflexivity|]. adv_fields. repeat split; reflexivity.
Qed.

(** A substituted pair inside a packet leaves the discard count alone. *)
Lemma adv_escape_pair_counts (fuel : nat) (st : adv_static) (g : globals)
  (v : Z) (st' : adv_static) (g' : globals) :
  0 <= v <= 5 ->
  serialRxState g = 1 ->
  0 <= serialRxLength g < SERIAL_RX_BUFFER_SIZE ->
  feed (serialRxAdvanced fuel) st g [250; v] = Ok (st', g') ->
  totalDiscardedBytes g' = totalDiscardedBytes g.
Proof.
  intros Hv Hs HL. cbn [feed].
  unfold serialRxAdvanced at 1. rewrite Hs. cbv beta iota.
  change (250 =? 255) with false. change (250 =? 250) with true.
  cbv iota. cbn [rbind fst snd].
  unfold serialRxAdvanced. adv_fields. cbv beta iota.
  replace (5 <? v) with false by (symmetry; apply Z.ltb_ge; lia).
  rewrite append_Ok by (adv_fields; assumption).
  adv_fields. cbn [rbind fst snd].
  intros [= <- <-]. reflexivity.
Qed.

(** Nor does a stuffed body that fits. *)
Lemma adv_body_counts (fuel : nat) (st : adv_static) (body : list Z) :
  forall g st' g',
    Forall is_u8 body ->
    serialRxState g = 1 ->
    0 <= serialRxLength g ->
    serialRxLength g + Z.of_nat (length body) <= ADVANCED_MAX_LENGTH ->
    length (serialRxBuffer g) = 512%nat ->
    feed (serialRxAdvanced fuel) st g (flat_map stuff body) = Ok (st', g') ->
    totalDiscardedBytes g' = totalDiscardedBytes g.
Proof.
  induction body as [|b body IH]; intros g st' g' Hb Hs H0 HL Hlen H.
  - injection H as <- <-. reflexivity.
  - apply Forall_cons in Hb as [Hu Hb]. unfold is_u8 in Hu.
    cbn [length] in HL. unfold ADVANCED_MAX_LENGTH in *.
    cbn [flat_map] in H. rewrite feed_app in H.
    apply rbind_Ok in H as ([st1 g1] & H1 & H2). cbn [fst snd] in H2.
    assert (Hone : st1 = st /\ serialRxState g1 = 1 /\
                   serialRxLength g1 = serialRxLength g + 1 /\
                   length (serialRxBuffer g1) = 512%nat /\
                   totalDiscardedBytes g1 = totalDiscardedBytes g).
    { unfold stuff, CLASH_CODE in H1. destruct (250 <=? b) eqn:E.
      - apply Z.leb_le in E.
        pose proof (adv_escape_pair_counts fuel st g (b - 250) st1 g1) as Hd.
        destruct (adv_escape_pair fuel st g (b - 250))
          as (g1' & H1' & Hs1 & HL1 & Hb1 & _);
          [lia | exact Hs | unfold SERIAL_RX_BUFFER_SIZE; lia |].
        rewrite Hd; [| lia | exact Hs | unfold SERIAL_RX_BUFFER_SIZE; lia
                     | exact H1].
        rewrite H1' in H1. injection H1 as <- <-.
        rewrite Hb1, length_wr. auto.
      - apply Z.leb_gt in E. cbn [feed] in H1.
        rewrite adv_plain_byte in H1
          by (try assumption; unfold ADVANCED_MAX_LENGTH; lia).
        cbn [rbind fst snd] in H1. injection H1 as <- <-. adv_fields.
        rewrite length_wr. auto. }
    destruct Hone as (-> & Hs1 & HL1 & Hlen1 & Hd1).
    rewrite <- Hd1. apply (IH g1 st' g' Hb Hs1); [lia | lia | exact Hlen1 |].
    exact H2.
Qed.

(** X26. From the wire to the record: the start byte, the stuffed form of
    a body of at most 107 bytes and the end byte, given to a waiting
    parser, where start byte, body and end byte make up a valid packet.
    The parser is back waiting, no byte is counted as discarded, the
    packet is in the receive buffer, and it is published as one record,
    whose frame is the packet as it was before stuffing, exactly when the
    device is verbose or the scan of the packet came across a Device
    Status code. *)
Theorem X26_valid_packet_from_wire_to_record
  (body : list Z) (st : adv_static) (g : globals) :
  Forall is_u8 body ->
  (length body <= 107)%nat ->
  valid_packet (254 :: body ++ [255]) (Z.of_nat (length body) + 2) ->
  codes (idCodeTable st) = codes idCodeTable_init ->
  serialRxState g = 0 ->
  length (serialRxBuffer g) = 512%nat ->
  Forall is_u8 (serialRxBuffer g) ->
  exists st' g',
    feed (serialRxAdvanced 256) st g (254 :: flat_map stuff body ++ [255])
      = Ok (st', g') /\
    serialRxState g' = 0 /\
    totalDiscardedBytes g' = totalDiscardedBytes g /\
    take (Z.to_nat (serialRxLength g')) (serialRxBuffer g')
      = 254 :: body ++ [255] /\
    (verbose (particleEepromData g) = true \/ device_status_seen g' ->
     exists m, published g' = published g ++ [m] /\
               frame_of m = 254 :: body ++ [255]) /\
    (verbose (particleEepromData g) = false -> ~ device_status_seen g' ->
     published g' = published g).
Proof.
  intros Hb Hn Hv Hc Hs Hlen Hbuf.
  destruct (adv_start_byte 256 st g Hs)
    as (g1 & H1 & Hs1 & HL1 & Hb1 & Hp1 & Hd1); [lia|].
  destruct (adv_body_received 256 st body g1 Hb Hs1)
    as (g2 & H2 & Hs2 & HL2 & Hb2 & Hlen2 & Hp2).
  { lia. }
  { unfold ADVANCED_MAX_LENGTH. lia. }
  { rewrite Hb1, length_wr. exact Hlen. }
  assert (Hd2 : totalDiscardedBytes g2 = totalDiscardedBytes g).
  { rewrite <- Hd1.
    apply (adv_body_counts 256 st body g1 st g2 Hb Hs1); try exact H2.
    - lia.
    - unfold ADVANCED_MAX_LENGTH. lia.
    - rewrite Hb1, length_wr. exact Hlen. }
  assert (Hcfg : particleEepromData g2 = particleEepromData g).
  { apply (feed_invariant (config_is (particleEepromData g))
             (serialRxAdvanced 256)
             (serialRxAdvanced_config (particleEepromData g) 256)
             (254 :: flat_map stuff body) st g st g2); [|reflexivity].
    cbn [feed]. rewrite H1. exact H2. }
  assert (Hbytes : buffer_of_bytes g2).
  { apply (feed_advanced_bytes 256 (254 :: flat_map stuff body) st g st g2).
    - constructor; [unfold is_u8; lia | apply stuffed_bytes, Hb].
    - cbn [feed]. rewrite H1. exact H2.
    - exact Hbuf. }
  rewrite HL1 in HL2, Hb2. rewrite Hb1 in Hb2.
  change (Z.to_nat 1) with (Z.to_nat (0 + 1)) in Hb2.
  rewrite take_wr_next in Hb2 by lia. cbn [take app Z.to_nat] in Hb2.
  destruct (serialRxAdvanced_end_byte 256 st g2 Hs2)
    as (g3 & H3 & _ & Hd3 & HL3 & Hend).
  { unfold EVENT_DATA_SIZE. lia. }
  assert (Hpkt : take (Z.to_nat (serialRxLength (completed g2)))
                      (serialRxBuffer (completed g2))
                 = 254 :: body ++ [255]).
  { rewrite HL3. unfold completed. adv_fields.
    rewrite take_wr_next by lia. rewrite Hb2. reflexivity. }
  assert (Hvalid : valid_packet (serialRxBuffer (completed g2))
                                (serialRxLength (completed g2))).
  { apply (valid_packet_ext (254 :: body ++ [255])).
    - rewrite Hpkt. rewrite HL3, HL2. symmetry. apply take_ge.
      cbn [length]. rewrite length_app. cbn [length]. lia.
    - intros i. apply rd_of_bytes. constructor; [unfold is_u8; lia|].
      apply Forall_app. split; [exact Hb|]. repeat constructor; lia.
    - rewrite HL3, HL2.
      replace (1 + Z.of_nat (length body) + 1)
        with (Z.of_nat (length body) + 2) by lia.
      exact Hv. }
  destruct (valid_packet_accepted (completed g2) st Hvalid) as [st1 Hok];
    [| rewrite HL3; lia | exact Hc |].
  { intros i. apply rd_of_bytes. unfold completed. adv_fields. unfold wr.
    apply Forall_insert; [exact Hbytes | unfold is_u8; lia]. }
  pose proof (deviceStatusCount_seen 256 (completed g2) st st1 Hc Hok)
    as Hseen.
  rewrite Hok, Hcfg in Hend.
  destruct (serialTxEventToNimbus_published (completed g2) g3 H3)
    as (m & Hm & Hframe).
  { rewrite HL3. lia. }
  { rewrite HL3. unfold completed. adv_fields. rewrite length_wr. lia. }
  rewrite Hpkt in Hframe.
  pose proof (serialTxEventToNimbus_fields _ _ H3) as Hf.
  destruct Hf as (_ & _ & _ & _ & _ & _ & _ & _ & _ & _ & Hb3 & HL3' & _).
  assert (Hfeed : feed (serialRxAdvanced 256) st g
                       (254 :: flat_map stuff body ++ [255])
                  = (do r <- serialRxAdvanced 256 st g2 255;
                     Ok (fst r, snd r))).
  2: {
  destruct (verbose (particleEepromData g) || (0 <? deviceStatusCount st1))
    eqn:E.
  - exists st1, (set_serialRxState 0 g3).
    split; [rewrite Hfeed, Hend; reflexivity|]. adv_fields.
    split; [reflexivity|]. split; [congruence|].
    split; [rewrite Hb3, HL3'; exact Hpkt|]. split.
    + intros _. exists m. split; [|exact Hframe].
      rewrite Hm. unfold completed. adv_fields. congruence.
    + intros Hq Hno. exfalso. apply Hno. rewrite Hq in E. cbn [orb] in E.
      apply Z.ltb_lt in E. apply Hseen in E.
      unfold device_status_seen in *. adv_fields. rewrite Hb3, HL3'. exact E.
  - apply orb_false_iff in E as [Hq E]. apply Z.ltb_ge in E.
    exists st1, (set_serialRxState 0 (completed g2)).
    split; [rewrite Hfeed, Hend; reflexivity|].
    split; [reflexivity|]. split; [exact Hd2|].
    split; [exact Hpkt|]. split.
    + intros [Hq' | Hyes]; [congruence|]. exfalso.
      change (device_status_seen (completed g2)) in Hyes.
      apply Hseen in Hyes. lia.
    + intros _ _. unfold completed. adv_fields. congruence. }
  cbn [feed]. rewrite H1. cbn [rbind fst snd]. rewrite feed_app, H2.
  cbn [rbind fst snd feed]. reflexivity.
Qed.

Lemma X26_valid_packet_from_wire_to_record_witness :
  exists st' g',
    feed (serialRxAdvanced 256) adv_static_init (power_on advanced_cfg 0)
         (254 :: flat_map stuff [128; 0; 0; 1; 10; 3; 7; 240; 132; 7] ++ [255])
      = Ok (st', g') /\
    serialRxState g' = 0 /\
    totalDiscardedBytes g' = totalDiscardedBytes (power_on advanced_cfg 0) /\
    take (Z.to_nat (serialRxLength g')) (serialRxBuffer g')
      = 254 :: [128; 0; 0; 1; 10; 3; 7; 240; 132; 7] ++ [255] /\
    (verbose (particleEepromData (power_on advanced_cfg 0)) = true
     \/ device_status_seen g' ->
     exists m, published g' = published (power_on advanced_cfg 0) ++ [m] /\
               frame_of m
               = 254 :: [128; 0; 0; 1; 10; 3; 7; 240; 132; 7] ++ [255]) /\
    (verbose (particleEepromData (power_on advanced_cfg 0)) = false ->
     ~ device_status_seen g' ->
     published g' = published (power_on advanced_cfg 0)).
Proof.
  apply (X26_valid_packet_from_wire_to_record
           [128; 0; 0; 1; 10; 3; 7; 240; 132; 7] adv_static_init
           (power_on advanced_cfg 0)).
  - apply all_u8_Forall. reflexivity.
  - cbn. lia.
  - unfold valid_packet. split; [vm_compute; discriminate|].
    split; [vm_compute; reflexivity|]. split; [vm_compute; reflexivity|].
    apply chain_last.
    + unfold known_code. vm_compute. right. left. reflexivity.
    + vm_compute. discriminate.
    + vm_compute. reflexivity.
  - reflexivity.
  - reflexivity.
  - reflexivity.
  - apply (bool_decide_unpack _). vm_compute. exact I.
Defined.
